(** * Naukri job scraper: extraction pipeline of [scrapeNaukriJobs]

    A shallow embedding of the MongoDB-backed scraper script (the variant
    with per-page crash recovery): the search URL builder, the login guard,
    the per-card enrichment and the page loop of [scrapeNaukriJobs], with the
    browser and the document store as observations supplied from outside.

    Conventions.
    - JavaScript strings are modelled as [string] (sequences of 8-bit
      characters); [toLowerCase], [trim] and the [\s] class act on the ASCII
      range only.
    - JavaScript numbers that the script uses as counters, limits and page
      numbers are modelled as [Z]; the script does not validate its limits,
      so a limit may be negative; a limit that [parseInt] could not read
      (NaN) is outside the model.
    - The plain object [params] is modelled by the map of its own
      properties.
    - The browser is an oracle: every query the script sends to the driver is
      answered by an observation record ([PageObs], [CardObs], [DetailObs],
      [LoginObs]); every command the script sends that changes the browser
      is appended to the [events] log of the run state.
    - Logging to the console and screenshots' file contents are not
      modelled; the "Scraped Date" timestamp of a record is not modelled.

    How [scrapeNaukriJobs] is cut into definitions.
    - [searchUrlBase], [searchUrlParams], [currentPageUrl]: the search phase
      before the loop and the URL computed at the top of each iteration.
    - [fetchPage]: one pass from the [while] condition to the entry of the
      card loop (stop conditions, [driver.get], container and card
      cascades, CAPTCHA and no-results checks); [pageCatch]: the
      [catch (pageError)] block with the increment that follows it.
    - [processCard]: the body of the card loop ([titleLoop], the summary
      loops, [scrapeDetails] for the detail tab with its [catch] and
      [finally], the record, [acceptJob] for the acceptance block);
      [cardCatch]: the [catch (cardError)] block.
    - [step] and [run]: the page loop as a machine that takes one page
      fetch or one card per step, started from [initial], the state in which
      the session phase leaves the variables.
    - [checkIfLoggedIn], [tryRestoreCookies], [sessionPhase]: the login
      check, the restoration of the session file and the login/session
      phase; [scrapeNaukriJobs]: the whole function around the page loop,
      from the connection to the store to the saving of the batch, with its
      effects outside the browser as [Effect]s; [parseArgs], [readOptions]:
      the command line and the string options of the configuration. *)

From Stdlib Require Import ZArith String Ascii List Lia DecimalString.
From Stdlib Require DecimalZ DecimalPos.
From stdpp Require Import gmap strings list.

Open Scope Z_scope.

(** ** JavaScript string primitives used by the script *)

(** The [\s] class restricted to ASCII: TAB, LF, VT, FF, CR and space. *)
Definition isSpace (c : ascii) : bool :=
  let n := nat_of_ascii c in
  ((9 <=? n)%nat && (n <=? 13)%nat) || (n =? 32)%nat.

Definition lowerChar (c : ascii) : ascii :=
  let n := nat_of_ascii c in
  if ((65 <=? n)%nat && (n <=? 90)%nat) then ascii_of_nat (n + 32) else c.

(** [s.toLowerCase()] *)
Fixpoint toLowerCase (s : string) : string :=
  match s with
  | EmptyString => EmptyString
  | String c r => String (lowerChar c) (toLowerCase r)
  end.

Fixpoint dropSpaces (s : string) : string :=
  match s with
  | String c r => if isSpace c then dropSpaces r else s
  | EmptyString => EmptyString
  end.

(** [s.replace(/\s+/g, "-")]: every maximal run of white space becomes one
    hyphen.  [inRun] tells that the previous character was white space. *)
Fixpoint replaceSpacesFrom (inRun : bool) (s : string) : string :=
  match s with
  | EmptyString => EmptyString
  | String c r =>
      if isSpace c
      then (if inRun then replaceSpacesFrom true r
            else String "-"%char (replaceSpacesFrom true r))
      else String c (replaceSpacesFrom false r)
  end.

Definition replaceSpaces (s : string) : string := replaceSpacesFrom false s.

(** [s.includes(sub)] *)
Fixpoint includes (s sub : string) : bool :=
  String.prefix sub s ||
  match s with
  | EmptyString => false
  | String _ r => includes r sub
  end.

Fixpoint revString (acc s : string) : string :=
  match s with
  | EmptyString => acc
  | String c r => revString (String c acc) r
  end.

(** [s.trim()] *)
Definition trim (s : string) : string :=
  revString EmptyString (dropSpaces (revString EmptyString (dropSpaces s))).

(** The decimal rendering of an integer inside a template literal. *)
Definition showZ (z : Z) : string := NilZero.string_of_int (Z.to_int z).

(** Truthiness of a string: non-empty. *)
Definition truthy (s : string) : bool := negb (String.eqb s "").

(** [s.length] *)
Definition len (s : string) : Z := Z.of_nat (String.length s).

(** ** Configuration surface *)

Record Config := {
  EMAIL : string;
  PASSWORD : string;
  JOB_SEARCH_QUERY : string;
  LOCATION : string;
  EXPERIENCE : string;
  INTERNAL_JOBS_LIMIT : Z;
  EXTERNAL_JOBS_LIMIT : Z;
  MAX_PAGES_TO_SEARCH : Z
}.

(** ** Search Navigator: the paginated search URL *)

Definition formattedQuery (cfg : Config) : string :=
  replaceSpaces (toLowerCase (JOB_SEARCH_QUERY cfg)).

Definition formattedLocation (cfg : Config) : string :=
  replaceSpaces (toLowerCase (LOCATION cfg)).

(** The URL before the experience filter is considered. *)
Definition searchUrlPath (cfg : Config) : string :=
  "https://www.naukri.com/" +:+ formattedQuery cfg +:+ "-jobs-in-"
    +:+ formattedLocation cfg.

(** [EXPERIENCE && EXPERIENCE !== "0"] *)
Definition experienceGiven (cfg : Config) : bool :=
  truthy (EXPERIENCE cfg) && negb (String.eqb (EXPERIENCE cfg) "0").

Definition searchUrlBase (cfg : Config) : string :=
  if experienceGiven cfg
  then searchUrlPath cfg +:+ "?experience=" +:+ EXPERIENCE cfg
  else searchUrlPath cfg.

Definition searchUrlParams (cfg : Config) : string :=
  if experienceGiven cfg then "&" else "?".

Definition currentPageUrl (cfg : Config) (page : Z) : string :=
  searchUrlBase cfg +:+
  (if 1 <? page then searchUrlParams cfg +:+ "pageNo=" +:+ showZ page else "").

(** [JOB_SEARCH_QUERY.replace(/[^a-z0-9]/gi, '_').toLowerCase()], used in
    the names of diagnostic screenshots. *)
Definition isAlnum (c : ascii) : bool :=
  let n := nat_of_ascii c in
  ((48 <=? n)%nat && (n <=? 57)%nat) || ((65 <=? n)%nat && (n <=? 90)%nat)
  || ((97 <=? n)%nat && (n <=? 122)%nat).

Fixpoint replaceNonAlnum (s : string) : string :=
  match s with
  | EmptyString => EmptyString
  | String c r => String (if isAlnum c then c else "_"%char) (replaceNonAlnum r)
  end.

Definition sanitizedQuery (cfg : Config) : string :=
  toLowerCase (replaceNonAlnum (JOB_SEARCH_QUERY cfg)).

(** ** The browser as seen by the script *)

(** The classes of driver errors the script tells apart with [instanceof]. *)
Inductive ErrorClass :=
| TimeoutError
| NoSuchElementError
| StaleElementReferenceError
| OtherError.

Record JsError := { errClass : ErrorClass; message : string }.

Definition isTimeout (e : JsError) : bool :=
  match errClass e with TimeoutError => true | _ => false end.

Definition isStale (e : JsError) : bool :=
  match errClass e with StaleElementReferenceError => true | _ => false end.

(** [new Error(msg)] *)
Definition mkError (msg : string) : JsError :=
  {| errClass := OtherError; message := msg |}.

(** What one located element answers.  [None] in [e_text], [e_displayed]
    and [e_enabled] is a rejected call; [None] in [e_href] is a missing
    attribute or a rejected call; [e_actOk] tells whether [click], [clear]
    and [sendKeys] on the element succeed. *)
Record ElemObs := {
  e_text : option string;
  e_href : option string;
  e_displayed : option bool;
  e_enabled : option bool;
  e_actOk : bool
}.

(** Commands the script sends to the browser or to the session store, in
    the order it issues them, whether or not the browser carries them out. *)
Inductive Event :=
| EvGet (url : string)
| EvClick (selector : string)
| EvSendKeys (text : string)
| EvScript (what : string)
| EvOpenTab (url : string)
| EvCloseTab
| EvSwitchBack
| EvScreenshot (file : string)
| EvSaveCookies
| EvQuit
| EvBuildDriver (attempt : Z).

Definition isGet (ev : Event) : bool :=
  match ev with EvGet _ => true | _ => false end.

Definition isQuit (ev : Event) : bool :=
  match ev with EvQuit => true | _ => false end.

Definition displayedTrue (e : ElemObs) : bool :=
  match e_displayed e with Some true => true | _ => false end.

(** [await el.isDisplayed() && await el.isEnabled()], a rejection counting
    as failure of the surrounding [try]. *)
Definition clickable (e : ElemObs) : bool :=
  displayedTrue e && match e_enabled e with Some true => true | _ => false end.

(** ** Safe accessors *)

(** [safeGetText(element, defaultValue)] *)
Definition safeGetText (element : option ElemObs) (defaultValue : string) : string :=
  match element with
  | None => defaultValue
  | Some e =>
      match e_text e with
      | Some text => if truthy text then trim text else defaultValue
      | None => defaultValue
      end
  end.

(** [safeGetAttribute(element, "href")] with the default [null]. *)
Definition safeGetAttribute (element : option ElemObs) : option string :=
  match element with
  | None => None
  | Some e =>
      match e_href e with
      | Some attribute => Some (trim attribute)
      | None => None
      end
  end.

(** ** Session Manager: [loginToNaukri] *)

Definition dq : string := String (ascii_of_nat 34) EmptyString.

Definition attr (tag name value : string) : string :=
  tag +:+ "[" +:+ name +:+ "=" +:+ dq +:+ value +:+ dq +:+ "]".

Definition homeLoginButtonSelectors : list string :=
  [ "a#login_Layer"; "a.nI-gNb-lg-rg__login";
    attr "a" "title" "Jobseeker Login"; attr "a" "href*" "login" ].

Definition emailSelectors : list string :=
  [ attr "input" "placeholder*" "Email ID"; attr "input" "placeholder*" "Username";
    "#usernameField"; "#emailTxt"; attr "input" "name" "email";
    attr "input" "type" "email" ].

Definition passwordSelectors : list string :=
  [ attr "input" "placeholder*" "Password"; attr "input" "type" "password";
    "#passwordField"; attr "input" "name" "password" ].

Definition loginButtonSelectors : list string :=
  [ attr "button" "type" "submit"; "button.blue-btn"; "button.loginButton";
    attr "input" "type" "submit" +:+ "[value=" +:+ dq +:+ "Login" +:+ dq +:+ "]";
    "button.btn-primary"; "button.waves-effect";
    "button:contains(" +:+ dq +:+ "Login" +:+ dq +:+ ")";
    "//button[normalize-space()=" +:+ dq +:+ "Login" +:+ dq +:+ "]";
    "//button[contains(normalize-space()," +:+ dq +:+ "Login" +:+ dq +:+ ")]" ].

(** What the browser answers during one login attempt.  The [lo_*Page]
    oracles answer [driver.wait(until.elementLocated(..), SHORT_WAIT)] for a
    selector of the script's lists ([None]: the wait is rejected); they are
    keyed by the selector as listed, the script's choice between a CSS and an
    XPath locator for it being part of the answer.  [lo_loggedIn] is the
    verdict of [checkIfLoggedIn] after submission. *)
Record LoginObs := {
  lo_get1 : option JsError;
  lo_currentUrl : option string;
  lo_firstPage : string -> option ElemObs;
  lo_get2 : option JsError;
  lo_secondPage : string -> option ElemObs;
  lo_scrollOk : bool;
  lo_jsClickOk : bool;
  lo_pageSource : option string;
  lo_loggedIn : bool
}.

(** The homepage login button loop: the first selector whose element is
    displayed, enabled and accepts the click. *)
Fixpoint clickHomeLogin (find : string -> option ElemObs) (sels : list string)
  : list Event :=
  match sels with
  | [] => []
  | sel :: rest =>
      match find sel with
      | Some e =>
          if clickable e
          then EvClick sel :: (if e_actOk e then [] else clickHomeLogin find rest)
          else clickHomeLogin find rest
      | None => clickHomeLogin find rest
      end
  end.

(** The email and password field loops: the variable keeps the last located
    element, the loop stops at the first displayed one.  The second
    component is [onLoginPage]. *)
Fixpoint locateField (find : string -> option ElemObs) (sels : list string)
    (field : option ElemObs) : option ElemObs * bool :=
  match sels with
  | [] => (field, false)
  | sel :: rest =>
      match find sel with
      | Some e =>
          if displayedTrue e then (Some e, true)
          else locateField find rest (Some e)
      | None => locateField find rest field
      end
  end.

Fixpoint locateLoginButton (find : string -> option ElemObs) (sels : list string)
  : option (string * ElemObs) :=
  match sels with
  | [] => None
  | sel :: rest =>
      match find sel with
      | Some e => if clickable e then Some (sel, e) else locateLoginButton find rest
      | None => locateLoginButton find rest
      end
  end.

(** The click on the login button: scroll and direct click first, the
    scripted click when either is rejected.  The first component tells
    whether one of the two clicks went through. *)
Definition clickLogin (o : LoginObs) (sel : string) (loginButton : ElemObs)
  : bool * list Event :=
  let scroll := EvScript "scrollIntoView" in
  let direct := if lo_scrollOk o then [scroll; EvClick sel] else [scroll] in
  if lo_scrollOk o && e_actOk loginButton then (true, direct)
  else (lo_jsClickOk o, direct ++ [EvScript "click"]).

(** The part of [loginToNaukri] inside its [try], once the form is ready:
    credentials, submission, challenge detection and verification. *)
Definition submitLogin (email password : string) (o : LoginObs)
    (form : string -> option ElemObs) (emailField : ElemObs) : bool * list Event :=
  if negb (e_actOk emailField) then (false, [EvSendKeys email])
  else
    match fst (locateField form passwordSelectors None) with
    | None => (false, [EvSendKeys email; EvScreenshot "login_password_fail_screenshot.png"])
    | Some passwordField =>
        let typed := [EvSendKeys email; EvSendKeys password] in
        if negb (e_actOk passwordField) then (false, typed)
        else
          match locateLoginButton form loginButtonSelectors with
          | None => (false, typed ++ [EvScreenshot "login_button_fail_screenshot.png"])
          | Some (sel, loginButton) =>
              let '(clicked, evs) := clickLogin o sel loginButton in
              if negb clicked
              then (false, typed ++ evs ++ [EvScreenshot "login_click_fail_screenshot.png"])
              else
                let src := toLowerCase (default "" (lo_pageSource o)) in
                if includes src "captcha"
                then (false, typed ++ evs ++ [EvScreenshot "login_captcha_screenshot.png"])
                else if includes src "verify mobile" || includes src "enter otp"
                then (false, typed ++ evs ++ [EvScreenshot "login_otp_screenshot.png"])
                else if lo_loggedIn o then (true, typed ++ evs)
                else (false, typed ++ evs ++ [EvScreenshot "login_verify_fail_screenshot.png"])
          end
    end.

(** [loginToNaukri(driver, email, password)]: the verdict and the commands
    it sent to the browser. *)
Definition loginToNaukri (email password : string) (o : LoginObs) : bool * list Event :=
  if negb (truthy email) || negb (truthy password) then (false, [])
  else
    let fatal := [EvScreenshot "login_fatal_error_screenshot.png"] in
    let get1 := [EvGet "https://www.naukri.com/nlogin/login"] in
    match lo_get1 o with
    | Some _ => (false, get1 ++ fatal)
    | None =>
        match lo_currentUrl o with
        | None => (false, get1 ++ fatal)
        | Some currentUrl =>
            let home :=
              if includes currentUrl "login" then []
              else clickHomeLogin (lo_firstPage o) homeLoginButtonSelectors in
            let '(emailField, onLoginPage) :=
              locateField (lo_firstPage o) emailSelectors None in
            if onLoginPage
            then match emailField with
                 | Some field =>
                     let '(ok, evs) := submitLogin email password o (lo_firstPage o) field in
                     (ok, get1 ++ home ++ evs)
                 | None =>
                     (false, get1 ++ home ++ [EvScreenshot "login_page_fail_screenshot.png"])
                 end
            else
              let get2 := [EvGet "https://login.naukri.com/nLogin/Login.php"] in
              match lo_get2 o with
              | Some _ => (false, get1 ++ home ++ get2 ++ fatal)
              | None =>
                  match locateField (lo_secondPage o) emailSelectors emailField with
                  | (Some field, true) =>
                      let '(ok, evs) :=
                        submitLogin email password o (lo_secondPage o) field in
                      (ok, get1 ++ home ++ get2 ++ evs)
                  | _ =>
                      (false, get1 ++ home ++ get2
                                ++ [EvScreenshot "login_page_fail_screenshot.png"])
                  end
              end
        end
    end.

(** ** Item Enricher *)

(** The document built for one posting ([jobData]); the field names are the
    keys of the stored document. *)
Record JobData := {
  Job_Title : string;
  Company_Name : string;
  Location : string;
  Experience_Required : string;
  Salary : string;
  Application_Type : string;
  Job_URL : string;
  Skills : string;
  Job_Description : string;
  Search_Query : string;
  Search_Location : string;
  Search_Experience : string
}.

(** What the detail tab answers: [d_wait] and [d_waitAll] are the bounded
    waits for one and for all elements of a selector ([None]: rejected),
    [d_findAll] is [driver.findElements] ([None]: rejected). *)
Record DetailObs := {
  d_wait : string -> option ElemObs;
  d_waitAll : string -> option (list ElemObs);
  d_findAll : string -> option (list ElemObs)
}.

(** How opening the detail tab goes.  [DetailFails known e]: [window.open],
    [getAllWindowHandles] or the switch to the new tab is rejected with
    [e]; [known] tells whether the new handle had been found by then.
    [DetailNoHandle]: no new handle appears. *)
Inductive DetailOutcome :=
| DetailFails (handleKnown : bool) (e : JsError)
| DetailNoHandle
| DetailOpened (d : DetailObs).

(** What one card answers: the scroll, the safe finders inside the card,
    [getWindowHandle], the detail tab and the switch back. *)
Record CardObs := {
  c_scroll : option JsError;
  c_find : string -> option ElemObs;
  c_findAll : string -> list ElemObs;
  c_windowHandle : option JsError;
  c_detail : DetailOutcome;
  c_switchBack : bool
}.

Definition titleSelectors : list string :=
  [ "a.title"; ".jobTitle.ellipsis"; "a.jobTitle"; ".title.ellipsis";
    "a[title]"; "div.title a"; "div.jobTitle a" ].

Definition companySelectors : list string :=
  [ "a.comp-name"; "a.companyName"; "a.company-name"; "div.companyName span";
    "div.comp-name a"; "span.comp-name"; ".companyInfo.subTitle.ellipsis" ].

Definition locationSelectors : list string :=
  [ "span.locWdth"; "span.location"; ".location.ellipsis"; "div.loc span";
    "span.location-link"; "div.location span"; "span[title*='location']";
    ".new-joblist-location-item" ].

Definition experienceSelectors : list string :=
  [ "span.expwdth"; "span.experience"; ".experience.ellipsis"; "div.exp span";
    "span.exp-container"; "li.experience"; ".exp > span" ].

Definition salarySelectors : list string :=
  [ "span.sal-wrap span"; "span.salary"; ".salary.ellipsis"; "div.sal span";
    "span.salary-container"; "span[title*='salary']"; ".salary > span" ].

Definition skillsSelectors : list string :=
  [ "ul.tags-gt li"; "ul.skill-tags li"; "div.tag-li span"; "ul.skills li";
    "div.skills-section span"; ".chip.skill"; ".tag-container > span" ].

Definition descriptionSelectors : list string :=
  [ "span.job-desc"; "div.job-description"; "div.desc"; "div.jobDescription";
    "p.job-desc"; ".job-description-main" ].

Definition detailDescriptionSelectors : list string :=
  [ "div.styles_JDC__dang-inner-html__h0K4t"; "section.job-desc";
    "div.dang-inner-html"; "div.JDC__dang-inner-html"; "div.jd-desc";
    "div.description"; "div#jobDescription"; "div.job-details-section" ].

Definition detailSkillsSelectors : list string :=
  [ "div.styles_key-skill__GIPn_ a.styles_chip__7YCfG"; "div.key-skill span";
    "div.skills-container a"; "div.keySkills span"; ".styles_chips__vOE84 > span" ].

Definition externalButtonSelectors : list string :=
  [ "#apply-on-company-site-button"; ".styles_company-site-button__C_2YK";
    ".company-site-button"; "button[data-action='apply-external']";
    "a.ext-apply-btn";
    "//button[contains(translate(., 'ABCDEFGHIJKLMNOPQRSTUVWXYZ', 'abcdefghijklmnopqrstuvwxyz'), 'apply on company')]";
    "//a[contains(translate(., 'ABCDEFGHIJKLMNOPQRSTUVWXYZ', 'abcdefghijklmnopqrstuvwxyz'), 'apply on company')]" ].

(** The title loop: [jobTitle] and [jobUrl] are overwritten at every
    located element, the loop stops at the first truthy [href]. *)
Fixpoint titleLoop (find : string -> option ElemObs) (sels : list string)
    (jobTitle : string) (jobUrl : option string) : string * option string :=
  match sels with
  | [] => (jobTitle, jobUrl)
  | sel :: rest =>
      match find sel with
      | Some e =>
          let jobTitle' := safeGetText (Some e) jobTitle in
          let jobUrl' := safeGetAttribute (Some e) in
          match jobUrl' with
          | Some u => if truthy u then (jobTitle', jobUrl')
                      else titleLoop find rest jobTitle' jobUrl'
          | None => titleLoop find rest jobTitle' jobUrl'
          end
      | None => titleLoop find rest jobTitle jobUrl
      end
  end.

(** The loops for company, experience, salary and the description snippet:
    the variable takes the text of each located element and the loop stops
    once it differs from the field's sentinel. *)
Fixpoint textLoop (find : string -> option ElemObs) (sels : list string)
    (sentinel value : string) : string :=
  match sels with
  | [] => value
  | sel :: rest =>
      match find sel with
      | Some e =>
          let value' := safeGetText (Some e) value in
          if String.eqb value' sentinel then textLoop find rest sentinel value'
          else value'
      | None => textLoop find rest sentinel value
      end
  end.

(** The location loop: the first extracted text that is non-empty and is
    not the sentinel replaces the search location. *)
Fixpoint locationLoop (find : string -> option ElemObs) (sels : list string)
    (location : string) : string :=
  match sels with
  | [] => location
  | sel :: rest =>
      match find sel with
      | Some e =>
          let extractedLocation := safeGetText (Some e) "" in
          if truthy extractedLocation
             && negb (String.eqb (toLowerCase extractedLocation) "not available")
          then extractedLocation
          else locationLoop find rest location
      | None => locationLoop find rest location
      end
  end.

(** [elements.map(el => safeGetText(el, "")).filter(Boolean)] *)
Definition textsOf (elements : list ElemObs) : list string :=
  List.filter truthy (List.map (fun el => safeGetText (Some el) "") elements).

(** The skills loop on the card: the value of [skillsList] when it ends. *)
Fixpoint skillsLoop (findAll : string -> list ElemObs) (sels : list string)
  : list string :=
  match sels with
  | [] => []
  | sel :: rest =>
      match textsOf (findAll sel) with
      | [] => skillsLoop findAll rest
      | texts => texts
      end
  end.

Definition joinSkills (skillsList : list string) (fallback : string) : string :=
  match skillsList with
  | [] => fallback
  | _ => String.concat ", " skillsList
  end.

(** The detailed description loop: a detail text replaces the snippet only
    when it is non-empty and more than twenty characters longer. *)
Fixpoint detailDescription (wait : string -> option ElemObs) (sels : list string)
    (detailedDescription : string) : string :=
  match sels with
  | [] => detailedDescription
  | sel :: rest =>
      match wait sel with
      | Some descElement =>
          let detailText := safeGetText (Some descElement) "" in
          if truthy detailText && (len detailedDescription + 20 <? len detailText)
          then detailText
          else detailDescription wait rest detailedDescription
      | None => detailDescription wait rest detailedDescription
      end
  end.

(** The detailed skills loop: a list with more entries than the card's. *)
Fixpoint detailSkills (waitAll : string -> option (list ElemObs)) (sels : list string)
    (skillsList : list string) (detailedSkills : string) : string :=
  match sels with
  | [] => detailedSkills
  | sel :: rest =>
      match waitAll sel with
      | Some skillElements =>
          let detailSkillsList := textsOf skillElements in
          if (0 <? length skillElements)%nat
             && (length skillsList <? length detailSkillsList)%nat
          then String.concat ", " detailSkillsList
          else detailSkills waitAll rest skillsList detailedSkills
      | None => detailSkills waitAll rest skillsList detailedSkills
      end
  end.

(** One external-button selector: its elements are asked in order whether
    they are displayed; a rejected call abandons the selector. *)
Fixpoint anyDisplayed (elements : list ElemObs) : bool :=
  match elements with
  | [] => false
  | btn :: rest =>
      match e_displayed btn with
      | Some true => true
      | Some false => anyDisplayed rest
      | None => false
      end
  end.

(** The application type decided on the detail page: reset to "Internal",
    set to "External" by the first displayed company-site button.  The
    search for the standard apply button that follows only writes a warning
    and is not modelled. *)
Definition classifyApplication (d : DetailObs) : string :=
  if existsb (fun sel => match d_findAll d sel with
                         | Some elements => anyDisplayed elements
                         | None => false
                         end) externalButtonSelectors
  then "External" else "Internal".

(** [value || "Not available"] *)
Definition orNotAvailable (value : string) : string :=
  if truthy value then value else "Not available".

(** ** Run Coordinator *)

(** The variables of [scrapeNaukriJobs] that live across cards and pages,
    and the log of commands sent so far. *)
Record RunState := {
  jobsToSave : list JobData;
  internalCount : Z;
  externalCount : Z;
  newJobsCount : Z;
  page : Z;
  scrapedUrls : gset string;
  isLoggedIn : bool;
  events : list Event
}.

Definition addEvents (evs : list Event) (st : RunState) : RunState :=
  {| jobsToSave := jobsToSave st; internalCount := internalCount st;
     externalCount := externalCount st; newJobsCount := newJobsCount st;
     page := page st; scrapedUrls := scrapedUrls st;
     isLoggedIn := isLoggedIn st; events := events st ++ evs |}.

Definition setLoggedIn (b : bool) (st : RunState) : RunState :=
  {| jobsToSave := jobsToSave st; internalCount := internalCount st;
     externalCount := externalCount st; newJobsCount := newJobsCount st;
     page := page st; scrapedUrls := scrapedUrls st;
     isLoggedIn := b; events := events st |}.

(** [page++] *)
Definition nextPage (st : RunState) : RunState :=
  {| jobsToSave := jobsToSave st; internalCount := internalCount st;
     externalCount := externalCount st; newJobsCount := newJobsCount st;
     page := page st + 1; scrapedUrls := scrapedUrls st;
     isLoggedIn := isLoggedIn st; events := events st |}.

(** The acceptance block: push, mark the URL, count. *)
Definition acceptJob (cfg : Config) (jobData : JobData) (st : RunState) : RunState :=
  if String.eqb (Application_Type jobData) "Internal"
     && (internalCount st <? INTERNAL_JOBS_LIMIT cfg)
  then {| jobsToSave := jobsToSave st ++ [jobData];
          internalCount := internalCount st + 1;
          externalCount := externalCount st;
          newJobsCount := newJobsCount st + 1;
          page := page st;
          scrapedUrls := {[Job_URL jobData]} ∪ scrapedUrls st;
          isLoggedIn := isLoggedIn st; events := events st |}
  else if String.eqb (Application_Type jobData) "External"
          && (externalCount st <? EXTERNAL_JOBS_LIMIT cfg)
  then {| jobsToSave := jobsToSave st ++ [jobData];
          internalCount := internalCount st;
          externalCount := externalCount st + 1;
          newJobsCount := newJobsCount st + 1;
          page := page st;
          scrapedUrls := {[Job_URL jobData]} ∪ scrapedUrls st;
          isLoggedIn := isLoggedIn st; events := events st |}
  else st.

(** How the body of the card loop is left. *)
Inductive CardExit :=
| CardNext   (* on to the next card *)
| CardBreak. (* [break]: the rest of the page is abandoned *)

(** The [catch (cardError)] of the card loop. *)
Definition cardCatch (cfg : Config) (i : nat) (cardError : JsError) (st : RunState)
  : RunState * CardExit :=
  let shot := EvScreenshot ("card_error_" +:+ sanitizedQuery cfg +:+ "_"
                              +:+ showZ (page st) +:+ "_" +:+ showZ (Z.of_nat i)
                              +:+ ".png") in
  if isStale cardError then (addEvents [shot] st, CardNext)
  else if includes (message cardError) "Failed to switch back" then (st, CardBreak)
  else (addEvents [shot] st, CardNext).

(** The values the detail tab leaves in [jobDescription], [skills] and
    [applicationType], and whether [newWindowHandle] is still set when the
    [finally] block runs. *)
Record Details := {
  dt_description : string;
  dt_skills : string;
  dt_applicationType : string;
  dt_handle : bool;
  dt_events : list Event
}.

(** The [try]/[catch (detailError)] around the detail tab. *)
Definition scrapeDetails (cfg : Config) (i : nat) (card : CardObs)
    (jobUrl jobDescription skills : string) (skillsList : list string) : Details :=
  let failed (handleKnown : bool) (detailError : JsError) :=
    {| dt_description :=
         if isTimeout detailError
         then "Details page did not load correctly or structure changed."
         else jobDescription;
       dt_skills := skills;
       dt_applicationType := "Internal";
       dt_handle :=
         if isTimeout detailError then handleKnown
         else if includes (message detailError) "no such window" then false
         else handleKnown;
       dt_events :=
         [EvOpenTab jobUrl;
          EvScreenshot ("detail_error_" +:+ sanitizedQuery cfg +:+ "_"
                          +:+ showZ (Z.of_nat i) +:+ ".png")] |} in
  match c_detail card with
  | DetailOpened d =>
      {| dt_description :=
           detailDescription (d_wait d) detailDescriptionSelectors jobDescription;
         dt_skills := detailSkills (d_waitAll d) detailSkillsSelectors skillsList skills;
         dt_applicationType := classifyApplication d;
         dt_handle := true;
         dt_events := [EvOpenTab jobUrl] |}
  | DetailNoHandle =>
      failed false (mkError "Could not find new window handle after opening link.")
  | DetailFails handleKnown detailError => failed handleKnown detailError
  end.

(** The body of the card loop for card [i], after the limits check. *)
Definition processCard (cfg : Config) (i : nat) (card : CardObs) (st : RunState)
  : RunState * CardExit :=
  match c_scroll card with
  | Some cardError => cardCatch cfg i cardError (addEvents [EvScript "scrollIntoView"] st)
  | None =>
      let st := addEvents [EvScript "scrollIntoView"] st in
      let '(jobTitle, jobUrl) :=
        titleLoop (c_find card) titleSelectors "Not available" None in
      match jobUrl with
      | None => (st, CardNext)
      | Some jobUrl =>
          if negb (truthy jobUrl) then (st, CardNext)
          else if bool_decide (jobUrl ∈ scrapedUrls st) then (st, CardNext)
          else
            let companyName :=
              textLoop (c_find card) companySelectors "Not available" "Not available" in
            let location := locationLoop (c_find card) locationSelectors (LOCATION cfg) in
            let experience :=
              textLoop (c_find card) experienceSelectors "Not specified" "Not specified" in
            let salary :=
              textLoop (c_find card) salarySelectors "Not disclosed" "Not disclosed" in
            let skillsList := skillsLoop (c_findAll card) skillsSelectors in
            let skills := joinSkills skillsList "Not available" in
            let jobDescription :=
              textLoop (c_find card) descriptionSelectors "Not available" "Not available" in
            match c_windowHandle card with
            | Some cardError => cardCatch cfg i cardError st
            | None =>
                let dt := scrapeDetails cfg i card jobUrl jobDescription skills skillsList in
                let st := addEvents (dt_events dt
                                       ++ (if dt_handle dt then [EvCloseTab] else [])
                                       ++ [EvSwitchBack]) st in
                if negb (c_switchBack card)
                then cardCatch cfg i (mkError "Failed to switch back to main window") st
                else
                  let jobData :=
                    {| Job_Title := jobTitle;
                       Company_Name := companyName;
                       Location := location;
                       Experience_Required := experience;
                       Salary := salary;
                       Application_Type := dt_applicationType dt;
                       Job_URL := jobUrl;
                       Skills := orNotAvailable (dt_skills dt);
                       Job_Description := orNotAvailable (dt_description dt);
                       Search_Query := JOB_SEARCH_QUERY cfg;
                       Search_Location := LOCATION cfg;
                       Search_Experience := EXPERIENCE cfg |} in
                  (acceptJob cfg jobData st, CardNext)
            end
      end
  end.

(** *** Pages *)

Definition jobListContainerSelectors : list string :=
  [ "div.styles_job-listing-container__OCfZC"; "div.list"; "div.listContainer";
    "section.listContainer"; "div[data-testid='srp-jobList-container']";
    "div.srp-jobtuple-wrapper"; "div.srp_container"; "article.jobTuple" ].

Definition directCardSelectors : list string :=
  [ "article.jobTuple"; "div.srp-jobtuple-wrapper"; "div.jobTuple";
    "div.jobTupleHeader"; "div[data-job-id]" ].

Definition jobCardSelectors : list string :=
  [ "article.jobTuple"; "div.srp-jobtuple-wrapper"; "div.jobTuple";
    "div.jobTupleHeader" ].

Definition noResultsSelectors : list string :=
  [ "div.styles_no-results-container"; "div.no-results";
    "//*[contains(text(), 'No matching jobs found')]";
    "//*[contains(text(), 'no jobs found')]" ].

(** What a loaded result page answers: whether a container selector is
    located within the wait, whether a card selector matches on the page,
    the page source ([None]: rejected), the cards a card selector yields
    inside the resolved container, and the no-results elements. *)
Record PageLoaded := {
  p_container : string -> bool;
  p_directCard : string -> bool;
  p_pageSource : option string;
  p_cards : string -> list CardObs;
  p_noResults : string -> option ElemObs
}.

(** What fetching a result page gives: [driver.get] is rejected, or the
    page loads. *)
Inductive PageObs :=
| GetFails (e : JsError)
| Loaded (p : PageLoaded).

(** Everything outside the script during the page loop, indexed by the
    page number at which it is asked: the result page, the attempts to
    build a new driver after a crash, and the login that follows. *)
Record World := {
  w_page : Z -> PageObs;
  w_build : Z -> nat -> bool;
  w_login : Z -> LoginObs
}.

Definition MAX_RETRIES : nat := 3.

(** [initializeDriver()]: up to [MAX_RETRIES] attempts; [false] stands for
    the error thrown after the last failed attempt. *)
Fixpoint buildLoop (build : nat -> bool) (retries remaining : nat) : bool * list Event :=
  match remaining with
  | O => (false, [])
  | S k =>
      if build retries then (true, [EvBuildDriver (Z.of_nat retries + 1)])
      else let '(ok, evs) := buildLoop build (S retries) k in
           (ok, EvBuildDriver (Z.of_nat retries + 1) :: evs)
  end.

Definition initializeDriver (build : nat -> bool) : bool * list Event :=
  buildLoop build 0 MAX_RETRIES.

(** The first card selector that yields one or more cards. *)
Fixpoint findJobCards (cards : string -> list CardObs) (sels : list string)
  : list CardObs :=
  match sels with
  | [] => []
  | sel :: rest =>
      match cards sel with
      | [] => findJobCards cards rest
      | found => found
      end
  end.

(** The no-results probe on page 1; a rejected [isDisplayed] ends it. *)
Fixpoint noResultsFound (find : string -> option ElemObs) (sels : list string) : bool :=
  match sels with
  | [] => false
  | sel :: rest =>
      match find sel with
      | Some element =>
          match e_displayed element with
          | Some true => true
          | Some false => noResultsFound find rest
          | None => false
          end
      | None => noResultsFound find rest
      end
  end.

(** Both category limits are satisfied. *)
Definition limitsReached (cfg : Config) (st : RunState) : bool :=
  (INTERNAL_JOBS_LIMIT cfg <=? internalCount st)
  && (EXTERNAL_JOBS_LIMIT cfg <=? externalCount st).

(** How the page loop ended: left by its condition or a [break] (the
    results are then saved), or cut short by an error that reaches the
    outermost [catch]. *)
Inductive Halt :=
| Finished
| Fatal (e : JsError).

(** Where the control is: at the head of the [while], inside the card
    loop of the current page at index [i], or past the page loop. *)
Inductive Control :=
| LoopHead
| CardLoop (jobCards : list CardObs) (i : nat)
| Halted (h : Halt).

Record Machine := { vars : RunState; ctl : Control }.

Definition sessionLost (msg : string) : bool :=
  includes msg "session" || includes msg "crashed"
  || includes msg "disconnected" || includes msg "target closed".

(** The [catch (pageError)] of the page loop and what follows it. *)
Definition pageCatch (cfg : Config) (w : World) (pageError : JsError) (st : RunState)
  : Machine :=
  let general :=
    {| vars := nextPage (addEvents
                 [EvScreenshot ("page_" +:+ showZ (page st)
                                  +:+ "_general_error_screenshot.png")] st);
       ctl := LoopHead |} in
  if isTimeout pageError then general
  else if sessionLost (message pageError) then
    let st := addEvents [EvQuit] st in
    match initializeDriver (w_build w (page st)) with
    | (true, built) =>
        let '(ok, sent) := loginToNaukri (EMAIL cfg) (PASSWORD cfg) (w_login w (page st)) in
        let st := addEvents (built ++ sent ++ (if ok then [EvSaveCookies] else [])) st in
        {| vars := nextPage (setLoggedIn ok st); ctl := LoopHead |}
    | (false, built) =>
        {| vars := addEvents built st;
           ctl := Halted (Fatal (mkError "Failed to initialize WebDriver after 3 attempts.")) |}
    end
  else if includes (message pageError) "CAPTCHA" then {| vars := st; ctl := Halted Finished |}
  else general.

(** From the located (or missing) container to the card loop. *)
Definition enterCards (jobCards : list CardObs) (p : PageLoaded) (st : RunState)
  : Machine :=
  match jobCards with
  | [] =>
      if 1 <? page st then {| vars := st; ctl := Halted Finished |}
      else if (page st =? 1) && noResultsFound (p_noResults p) noResultsSelectors
      then {| vars := st; ctl := Halted Finished |}
      else {| vars := st; ctl := CardLoop jobCards 0 |}
  | _ => {| vars := st; ctl := CardLoop jobCards 0 |}
  end.

(** One pass through the head of the page loop: the two stop conditions,
    the fetch, the container and the cards. *)
Definition fetchPage (cfg : Config) (w : World) (st : RunState) : Machine :=
  if negb (page st <=? MAX_PAGES_TO_SEARCH cfg) then {| vars := st; ctl := Halted Finished |}
  else if limitsReached cfg st then {| vars := st; ctl := Halted Finished |}
  else
    let st := addEvents [EvGet (currentPageUrl cfg (page st))] st in
    match w_page w (page st) with
    | GetFails pageError => pageCatch cfg w pageError st
    | Loaded p =>
        if existsb (p_container p) jobListContainerSelectors
           || existsb (p_directCard p) directCardSelectors
        then enterCards (findJobCards (p_cards p) jobCardSelectors) p st
        else
          let st := addEvents [EvScreenshot ("page_" +:+ showZ (page st)
                                               +:+ "_no_elements_found.png")] st in
          let pageSource := default "" (p_pageSource p) in
          if includes (toLowerCase pageSource) "captcha"
          then pageCatch cfg w (mkError "CAPTCHA challenge detected on results page") st
          else if includes pageSource "No matching jobs found"
                  || includes pageSource "no jobs found"
          then {| vars := st; ctl := Halted Finished |}
          else if 1 <? page st then {| vars := st; ctl := Halted Finished |}
          else enterCards [] p st
    end.

(** One step of the run: a page fetch at the loop head, one card inside
    the card loop (or leaving it for the next page). *)
Definition step (cfg : Config) (w : World) (m : Machine) : Machine :=
  match ctl m with
  | Halted _ => m
  | LoopHead => fetchPage cfg w (vars m)
  | CardLoop jobCards i =>
      match jobCards !! i with
      | None => {| vars := nextPage (vars m); ctl := LoopHead |}
      | Some card =>
          if limitsReached cfg (vars m)
          then {| vars := nextPage (vars m); ctl := LoopHead |}
          else
            match processCard cfg i card (vars m) with
            | (st, CardNext) => {| vars := st; ctl := CardLoop jobCards (S i) |}
            | (st, CardBreak) => {| vars := nextPage st; ctl := LoopHead |}
            end
      end
  end.

(** The state when the page loop is entered: nothing collected, page 1,
    the known URLs loaded from the store, the login verdict and the
    commands of the session phase. *)
Definition initial (storedUrls : gset string) (loggedIn : bool) (sent : list Event)
  : Machine :=
  {| vars := {| jobsToSave := []; internalCount := 0; externalCount := 0;
                newJobsCount := 0; page := 1; scrapedUrls := storedUrls;
                isLoggedIn := loggedIn; events := sent |};
     ctl := LoopHead |}.

(** The machine after [n] steps. *)
Fixpoint run (cfg : Config) (w : World) (n : nat) (m : Machine) : Machine :=
  match n with
  | O => m
  | S k => run cfg w k (step cfg w m)
  end.

(** The part of the state that only the acceptance block writes. *)
Definition ledger (st : RunState)
  : list JobData * Z * Z * Z * gset string :=
  (jobsToSave st, internalCount st, externalCount st, newJobsCount st, scrapedUrls st).

(** The relation between two consecutive states of the acceptance
    bookkeeping: nothing moved, or exactly one record was accepted. *)
Inductive Accepts (cfg : Config) (a b : RunState) : Prop :=
| AcceptsInternal (jobData : JobData) :
    Application_Type jobData = "Internal" ->
    internalCount a < INTERNAL_JOBS_LIMIT cfg ->
    Job_URL jobData ∉ scrapedUrls a ->
    ledger b = (jobsToSave a ++ [jobData], internalCount a + 1, externalCount a,
                newJobsCount a + 1, {[Job_URL jobData]} ∪ scrapedUrls a) ->
    Accepts cfg a b
| AcceptsExternal (jobData : JobData) :
    Application_Type jobData = "External" ->
    externalCount a < EXTERNAL_JOBS_LIMIT cfg ->
    Job_URL jobData ∉ scrapedUrls a ->
    ledger b = (jobsToSave a ++ [jobData], internalCount a, externalCount a + 1,
                newJobsCount a + 1, {[Job_URL jobData]} ∪ scrapedUrls a) ->
    Accepts cfg a b.

(** From [a] to [b] the page number moved by [k] and no page was fetched. *)
Definition noFetch (k : Z) (a b : RunState) : Prop :=
  page b = page a + k
  /\ exists evs, events b = events a ++ evs /\ List.filter isGet evs = [].

(** The scanner finds neither a container nor a card on the page. *)
Definition noElements (p : PageLoaded) : bool :=
  negb (existsb (p_container p) jobListContainerSelectors
        || existsb (p_directCard p) directCardSelectors).

(** The scanner finds a container (or a card on the page) and the card
    selectors yield one or more cards. *)
Definition showsCards (p : PageLoaded) : bool :=
  negb (noElements p)
  && match findJobCards (p_cards p) jobCardSelectors with
     | [] => false
     | _ => true
     end.

(** The outcome the coordinator aims at after a lost session on the fetch
    of page [page st]: the old driver quit, a new one built, the login
    called, and the loop back at its head on the next page with the batch
    untouched. *)
Definition recovered (cfg : Config) (w : World) (st : RunState) (m : Machine) : Prop :=
  ctl m = LoopHead
  /\ page (vars m) = page st + 1
  /\ ledger (vars m) = ledger st
  /\ isLoggedIn (vars m)
     = (loginToNaukri (EMAIL cfg) (PASSWORD cfg) (w_login w (page st))).1
  /\ exists built,
       initializeDriver (w_build w (page st)) = (true, built)
       /\ events (vars m)
          = events st
            ++ [EvGet (currentPageUrl cfg (page st)); EvQuit]
            ++ built
            ++ (loginToNaukri (EMAIL cfg) (PASSWORD cfg) (w_login w (page st))).2
            ++ (if (loginToNaukri (EMAIL cfg) (PASSWORD cfg) (w_login w (page st))).1
                then [EvSaveCookies] else []).

(** What is asked of the two category counters: neither is above its
    configured limit. *)
Definition withinLimits (cfg : Config) (st : RunState) : Prop :=
  internalCount st <= INTERNAL_JOBS_LIMIT cfg
  /\ externalCount st <= EXTERNAL_JOBS_LIMIT cfg.

(** ** Sample observations *)

Definition sampleElement (text href : string) : ElemObs :=
  {| e_text := Some text; e_href := Some href; e_displayed := Some true;
     e_enabled := Some true; e_actOk := true |}.

Definition sampleDetail : DetailObs :=
  {| d_wait := fun sel =>
       if String.eqb sel "section.job-desc"
       then Some (sampleElement "SQL and dashboards." "") else None;
     d_waitAll := fun _ => None;
     d_findAll := fun _ => Some [] |}.

Definition sampleCard (href : string) : CardObs :=
  {| c_scroll := None;
     c_find := fun sel =>
       if String.eqb sel "a.title" then Some (sampleElement "Data Analyst" href)
       else if String.eqb sel "span.job-desc"
       then Some (sampleElement "Build reports and dashboards for the sales team." "")
       else None;
     c_findAll := fun _ => [];
     c_windowHandle := None;
     c_detail := DetailOpened sampleDetail;
     c_switchBack := true |}.

Definition samplePage : PageLoaded :=
  {| p_container := fun sel => String.eqb sel "div.list";
     p_directCard := fun _ => false;
     p_pageSource := Some "<html><body>jobs</body></html>";
     p_cards := fun sel =>
       if String.eqb sel "article.jobTuple"
       then [sampleCard "https://www.naukri.com/job-listings-data-analyst-1"]
       else [];
     p_noResults := fun _ => None |}.

Definition captchaPage : PageLoaded :=
  {| p_container := fun _ => false;
     p_directCard := fun _ => false;
     p_pageSource := Some "<html><body>Please solve the CAPTCHA</body></html>";
     p_cards := fun _ => [];
     p_noResults := fun _ => None |}.

Definition sampleLogin : LoginObs :=
  {| lo_get1 := None; lo_currentUrl := Some "https://www.naukri.com/nlogin/login";
     lo_firstPage := fun _ => None; lo_get2 := None; lo_secondPage := fun _ => None;
     lo_scrollOk := true; lo_jsClickOk := true; lo_pageSource := None;
     lo_loggedIn := false |}.

Definition sampleConfig : Config :=
  {| EMAIL := ""; PASSWORD := "secret"; JOB_SEARCH_QUERY := "Data Analyst";
     LOCATION := "Bangalore"; EXPERIENCE := "2"; INTERNAL_JOBS_LIMIT := 15;
     EXTERNAL_JOBS_LIMIT := 5; MAX_PAGES_TO_SEARCH := 3 |}.

(** The configuration after [--internal -1]: [parseInt] gives -1 and the
    script takes it as it is. *)
Definition negativeLimitConfig : Config :=
  {| EMAIL := ""; PASSWORD := "secret"; JOB_SEARCH_QUERY := "Data Analyst";
     LOCATION := "Bangalore"; EXPERIENCE := "2"; INTERNAL_JOBS_LIMIT := -1;
     EXTERNAL_JOBS_LIMIT := 5; MAX_PAGES_TO_SEARCH := 3 |}.

Definition sampleWorld : World :=
  {| w_page := fun _ => Loaded samplePage;
     w_build := fun _ _ => true;
     w_login := fun _ => sampleLogin |}.

Definition captchaWorld : World :=
  {| w_page := fun _ => Loaded captchaPage;
     w_build := fun _ _ => true;
     w_login := fun _ => sampleLogin |}.

Definition crashError : JsError :=
  {| errClass := OtherError; message := "session deleted because of page crash" |}.

Definition timeoutError : JsError :=
  {| errClass := TimeoutError; message := "timeout: session not responding" |}.

(** A world whose first fetch loses the session, with a driver that can
    ([rebuild = true]) or cannot be built again. *)
Definition crashWorld (e : JsError) (rebuild : bool) : World :=
  {| w_page := fun N => if N =? 1 then GetFails e else Loaded samplePage;
     w_build := fun _ _ => rebuild;
     w_login := fun _ => sampleLogin |}.

Definition sampleStart : Machine := initial ∅ false [].

(** ** Session Manager: the login check, the session store, the session phase *)

(** Effects of the script outside the page loop: the browser commands of
    [Event] and the commands to the cookie jar, the session file, the
    document store and the backup file. *)
Inductive Effect :=
| FxDriver (ev : Event)
| FxDeleteAllCookies
| FxAddCookie (name value : string) (domain : option string) (path : string)
              (secure httpOnly : bool)
| FxRefresh
| FxUnlinkCookies
| FxWriteCookies
| FxBulkWrite (jobs : list JobData)
| FxWriteFile (file : string) (jobs : list JobData)
| FxCloseStore.

Definition loggedInIndicators : list string :=
  [ "div.nI-gNb-bar1"; "a.user-name"; "div.user-name"; "div.nI-gNb-nav__visible";
    "img.user-pic"; "[data-ga-track*=" +:+ dq +:+ "My Naukri" +:+ dq +:+ "]";
    attr "a" "href*" "mynaukri.naukri.com"; ".nI-gNb-info";
    "div.view-profile-wrapper"; "a[href*='/profile-summary']";
    "div.user-info"; "div.user-avatar"; "div.profile-section";
    "//*[contains(text(), 'My Naukri')]"; "//*[contains(text(), 'My Profile')]";
    "//*[contains(text(), 'Logout')]";
    ".dashboard-container"; ".profile-completion"; ".recommended-jobs" ].

Definition loggedOutIndicators : list string :=
  [ "a#login_Layer"; "a.loginButton"; "a.nI-gNb-lg-rg__login";
    "//a[contains(text(), 'Login')]"; "//button[contains(text(), 'Login')]" ].

(** What the browser answers during a login check: the current URL
    ([None]: rejected) and the bounded wait for an indicator, keyed by the
    text of its locator ([None]: rejected). *)
Record CheckObs := {
  ck_currentUrl : option string;
  ck_wait : string -> option ElemObs
}.

(** One indicator loop: whether some indicator of the list is located and
    displayed; a rejected wait or [isDisplayed] moves on to the next. *)
Fixpoint indicatorShown (wait : string -> option ElemObs) (locators : list string) : bool :=
  match locators with
  | [] => false
  | locator :: rest =>
      match wait locator with
      | Some element => if displayedTrue element then true else indicatorShown wait rest
      | None => indicatorShown wait rest
      end
  end.

(** [checkIfLoggedIn(driver)]: the verdict and the screenshot taken when
    neither kind of indicator is found. *)
Definition checkIfLoggedIn (o : CheckObs) : bool * list Event :=
  let inMembersArea :=
    match ck_currentUrl o with
    | Some currentUrl =>
        includes currentUrl "mynaukri" || includes currentUrl "/v1/user/dashboard"
    | None => false
    end in
  if inMembersArea then (true, [])
  else if indicatorShown (ck_wait o) loggedInIndicators then (true, [])
  else if indicatorShown (ck_wait o) loggedOutIndicators then (false, [])
  else (false, [EvScreenshot "login_check_state.png"]).

(** A cookie as read from the session file; an absent or empty field is
    the empty string, an absent flag is [false]. *)
Record Cookie := {
  cookieName : string;
  cookieValue : string;
  cookieDomain : string;
  cookiePath : string;
  cookieSecure : bool;
  cookieHttpOnly : bool
}.

(** What the session file and the browser answer during a restoration:
    whether the file exists, its parsed content ([None]: reading or parsing
    throws), and whether the navigation, the clearing of the cookie jar and
    the two refreshes succeed.  Whether the browser accepts a single cookie
    is not observed: the script ignores a rejected [addCookie]. *)
Record RestoreObs := {
  ro_fileExists : bool;
  ro_cookies : option (list Cookie);
  ro_getOk : bool;
  ro_deleteOk : bool;
  ro_refresh1Ok : bool;
  ro_refresh2Ok : bool
}.

(** [c.domain && c.domain.includes("naukri")] *)
Definition isDomainCookie (c : Cookie) : bool :=
  truthy (cookieDomain c) && includes (cookieDomain c) "naukri".

(** [cookie.name && cookie.value] *)
Definition usableCookie (c : Cookie) : bool :=
  truthy (cookieName c) && truthy (cookieValue c).

(** [cookie.path || "/"] *)
Definition pathOrRoot (c : Cookie) : string :=
  if truthy (cookiePath c) then cookiePath c else "/".

(** The domain sent for a cookie of the first pass. *)
Definition sentDomain (c : Cookie) : string :=
  let domain := if truthy (cookieDomain c) then cookieDomain c else ".naukri.com" in
  if negb (String.prefix "." domain) && includes domain "naukri.com"
     && negb (String.eqb domain "naukri.com")
  then "." +:+ domain else domain.

Definition addDomainCookie (c : Cookie) : Effect :=
  FxAddCookie (cookieName c) (cookieValue c) (Some (sentDomain c)) (pathOrRoot c)
              (cookieSecure c) (cookieHttpOnly c).

Definition addOtherCookie (c : Cookie) : Effect :=
  FxAddCookie (cookieName c) (cookieValue c)
              (if truthy (cookieDomain c) then Some (cookieDomain c) else None)
              (pathOrRoot c) (cookieSecure c) (cookieHttpOnly c).

(** The two passes of [addCookie]: the cookies of the site's domain first,
    then the others; a cookie without name or value is not sent; a rejected
    [addCookie] is ignored. *)
Definition addCookies (cookiesData : list Cookie) : list Effect :=
  List.map addDomainCookie (List.filter usableCookie (List.filter isDomainCookie cookiesData))
  ++ List.map addOtherCookie
       (List.filter usableCookie
          (List.filter (fun c => negb (isDomainCookie c)) cookiesData)).

(** [tryRestoreCookies(driver)]: the verdict and the effects. *)
Definition tryRestoreCookies (o : RestoreObs) : bool * list Effect :=
  if negb (ro_fileExists o) then (false, [])
  else
    match ro_cookies o with
    | None => (false, [FxUnlinkCookies])
    | Some cookiesData =>
        let get := FxDriver (EvGet "https://www.naukri.com") in
        if negb (ro_getOk o) then (false, [get; FxUnlinkCookies])
        else if negb (ro_deleteOk o)
        then (false, [get; FxDeleteAllCookies; FxUnlinkCookies])
        else
          let applied := [get; FxDeleteAllCookies] ++ addCookies cookiesData in
          if negb (ro_refresh1Ok o) then (false, applied ++ [FxRefresh; FxUnlinkCookies])
          else if negb (ro_refresh2Ok o)
          then (false, applied ++ [FxRefresh; FxRefresh; FxUnlinkCookies])
          else (true, applied ++ [FxRefresh; FxRefresh])
    end.

(** What the session phase observes: the first navigation, the
    restoration, the login check after it, the clearing of cookies after a
    failed check, and the login. *)
Record SessionObs := {
  se_homeOk : bool;
  se_restore : RestoreObs;
  se_check : CheckObs;
  se_clearOk : bool;
  se_login : LoginObs
}.

(** How a phase before or after the page loop ends: normally with a
    value, or with an error that reaches the outermost [catch]. *)
Inductive Phase (A : Type) :=
| Done (value : A) (effects : list Effect)
| Thrown (effects : list Effect).
Arguments Done {A} value effects.
Arguments Thrown {A} effects.

(** The login/session phase of [scrapeNaukriJobs]; its value is
    [isLoggedIn]. *)
Definition sessionPhase (cfg : Config) (o : SessionObs) : Phase bool :=
  let home := FxDriver (EvGet "https://www.naukri.com/") in
  if negb (se_homeOk o) then Thrown [home]
  else
    let '(restored, fx1) := tryRestoreCookies (se_restore o) in
    let '(checked, evs) :=
      if restored then checkIfLoggedIn (se_check o) else (false, []) in
    let fx2 := [home] ++ fx1 ++ List.map FxDriver evs in
    if restored && negb checked && negb (se_clearOk o)
    then Thrown (fx2 ++ [FxDeleteAllCookies])
    else
      let fx3 := fx2 ++ (if restored && negb checked then [FxDeleteAllCookies] else []) in
      if negb checked && truthy (EMAIL cfg) && truthy (PASSWORD cfg)
      then
        let '(ok, sent) := loginToNaukri (EMAIL cfg) (PASSWORD cfg) (se_login o) in
        Done ok (fx3 ++ List.map FxDriver sent ++ (if ok then [FxWriteCookies] else []))
      else Done checked fx3.

(** ** The whole of [scrapeNaukriJobs] *)

(** [LOCATION.replace(/[^a-z0-9]/gi, '_').toLowerCase()] *)
Definition sanitizedLocation (cfg : Config) : string :=
  toLowerCase (replaceNonAlnum (LOCATION cfg)).

Definition OUTPUT_FILE (cfg : Config) : string :=
  "./naukri_jobs_" +:+ sanitizedQuery cfg +:+ "_" +:+ sanitizedLocation cfg +:+ ".json".

(** What the document store and the file system answer: whether the client
    can be created and connected, the "Job URL" of every stored document
    (the empty string when the field is absent; [None]: the scan is
    rejected), and whether the client is still connected when the outermost
    [catch] asks. *)
Record StoreObs := {
  db_clientOk : bool;
  db_connectOk : bool;
  db_docs : option (list string);
  db_connectedInCatch : bool
}.

(** Everything outside the script during one run. *)
Record Env := {
  env_store : StoreObs;
  env_build : nat -> bool;
  env_session : SessionObs;
  env_world : World
}.

(** The known URLs loaded from the store: the non-empty "Job URL" fields. *)
Definition loadExistingUrls (docs : list string) : gset string :=
  list_to_set (List.filter truthy docs).

(** The saving after the page loop: bulk write, then backup file, each
    attempted whatever happens to the other; nothing for an empty batch. *)
Definition saveResults (cfg : Config) (jobs : list JobData) : list Effect :=
  match jobs with
  | [] => []
  | _ => [FxBulkWrite jobs; FxWriteFile (OUTPUT_FILE cfg) jobs]
  end.

(** The saving in the outermost [catch]: backup file first, then the bulk
    write when the store is still connected. *)
Definition savePartial (cfg : Config) (connected : bool) (jobs : list JobData)
  : list Effect :=
  match jobs with
  | [] => []
  | _ => FxWriteFile (OUTPUT_FILE cfg) jobs
         :: (if connected then [FxBulkWrite jobs] else [])
  end.

(** What a run leaves: the number it returns and its effects in order. *)
Record Outcome := {
  returned : Z;
  effects : list Effect
}.

(** [scrapeNaukriJobs()], with the page loop run for [fuel] steps; [None]
    when the page loop has not ended within [fuel] steps. *)
Definition scrapeNaukriJobs (cfg : Config) (env : Env) (fuel : nat) : option Outcome :=
  let store := env_store env in
  if negb (db_clientOk store) then Some {| returned := 0; effects := [] |}
  else if negb (db_connectOk store)
  then Some {| returned := 0; effects := [FxCloseStore] |}
  else
    match db_docs store with
    | None => Some {| returned := 0; effects := [FxCloseStore] |}
    | Some docs =>
        match initializeDriver (env_build env) with
        | (false, built) =>
            Some {| returned := 0;
                    effects := List.map FxDriver built ++ [FxCloseStore] |}
        | (true, built) =>
            match sessionPhase cfg (env_session env) with
            | Thrown fx =>
                Some {| returned := 0;
                        effects := List.map FxDriver built ++ fx
                                     ++ [FxDriver EvQuit; FxCloseStore] |}
            | Done loggedIn fx =>
                let m := run cfg (env_world env) fuel
                             (initial (loadExistingUrls docs) loggedIn []) in
                let before := List.map FxDriver built ++ fx
                                ++ List.map FxDriver (events (vars m)) in
                match ctl m with
                | Halted Finished =>
                    Some {| returned := newJobsCount (vars m);
                            effects := before ++ saveResults cfg (jobsToSave (vars m))
                                         ++ [FxDriver EvQuit; FxCloseStore] |}
                | Halted (Fatal _) =>
                    Some {| returned := newJobsCount (vars m);
                            effects := before
                                         ++ savePartial cfg (db_connectedInCatch store)
                                              (jobsToSave (vars m))
                                         ++ [FxCloseStore] |}
                | _ => None
                end
            end
        end
    end.

(** ** Command line and environment *)

(** [params[name] = value] for a string [value] on the plain object
    [params], whose own properties the map holds.  The name "__proto__" is
    the one name the object inherits with a setter: the assignment then goes
    to that setter, which ignores a string, and no own property is made.
    Every other name becomes an own property (the inherited properties of a
    plain object other than "__proto__" are writable data properties, which
    an assignment shadows). *)
Definition setProperty (name value : string) (params : gmap string string)
  : gmap string string :=
  if String.eqb name "__proto__" then params else <[name := value]> params.

(** The loop over [process.argv.slice(2)]: arguments are read in pairs
    from the first on; a pair whose first member starts with "--" sets the
    parameter named by the rest of that member.  The map holds the own
    properties of [params]; the names the script reads from it (email,
    password, query, location, experience, ...) are none of the inherited
    ones, so reading [params.<name>] is a lookup in the map. *)
Fixpoint parseArgs (args : list string) (params : gmap string string)
  : gmap string string :=
  match args with
  | flag :: value :: rest =>
      parseArgs rest
        (if String.prefix "--" flag
         then setProperty (String.substring 2 (String.length flag - 2) flag) value params
         else params)
  | _ => params
  end.

(** [a || b]: the first of two optional strings that is present and
    non-empty. *)
Definition orElse (a b : option string) : option string :=
  match a with
  | Some s => if truthy s then a else b
  | None => b
  end.

(** [params.<name> || process.env.<NAME> || fallback] *)
Definition setting (params env : gmap string string) (name envName fallback : string)
  : string :=
  default fallback (orElse (orElse (params !! name) (env !! envName)) (Some fallback)).

(** The string options of the configuration as the script resolves them. *)
Record Options := {
  optEmail : string;
  optPassword : string;
  optQuery : string;
  optLocation : string;
  optExperience : string
}.

Definition readOptions (args : list string) (env : gmap string string) : Options :=
  let params := parseArgs args ∅ in
  {| optEmail := setting params env "email" "EMAIL" "";
     optPassword := setting params env "password" "PASSWORD" "";
     optQuery := setting params env "query" "JOB_SEARCH_QUERY" "Data Analyst";
     optLocation := setting params env "location" "LOCATION" "Bangalore";
     optExperience := setting params env "experience" "EXPERIENCE" "0" |}.

(** The kinds of effect a restoration can have. *)
Definition restoreEffect (fx : Effect) : bool :=
  match fx with
  | FxDriver (EvGet url) => String.eqb url "https://www.naukri.com"
  | FxDeleteAllCookies | FxAddCookie _ _ _ _ _ _ | FxRefresh | FxUnlinkCookies => true
  | _ => false
  end.

Definition isWrite (fx : Effect) : bool :=
  match fx with
  | FxBulkWrite _ | FxWriteFile _ _ => true
  | _ => false
  end.

(** ** Predicates used to state further properties *)

(** Every character of [s] satisfies [P]. *)
Fixpoint allChars (P : ascii -> bool) (s : string) : bool :=
  match s with
  | EmptyString => true
  | String c r => P c && allChars P r
  end.

Definition isUpper (c : ascii) : bool :=
  let n := nat_of_ascii c in (65 <=? n)%nat && (n <=? 90)%nat.

(** The characters a sanitized name is made of: [a-z], [0-9] and [_]. *)
Definition isNameChar (c : ascii) : bool :=
  let n := nat_of_ascii c in
  ((48 <=? n)%nat && (n <=? 57)%nat) || ((97 <=? n)%nat && (n <=? 122)%nat)
  || (n =? 95)%nat.

Definition startsWithSpace (s : string) : bool :=
  match s with
  | String c _ => isSpace c
  | EmptyString => false
  end.

Definition endsWithSpace (s : string) : bool :=
  startsWithSpace (revString EmptyString s).

Definition isOpenTab (ev : Event) : bool :=
  match ev with EvOpenTab _ => true | _ => false end.

Definition isSwitchBack (ev : Event) : bool :=
  match ev with EvSwitchBack => true | _ => false end.

Definition isCloseTab (ev : Event) : bool :=
  match ev with EvCloseTab => true | _ => false end.

(** The commands about tabs among the commands sent, in order. *)
Definition tabCommands (evs : list Event) : list Event :=
  List.filter (fun ev => isOpenTab ev || isCloseTab ev || isSwitchBack ev) evs.

(** The shape every stored record has: a non-empty URL, non-empty skills
    and description, and the search context of the run. *)
Definition wellFormed (cfg : Config) (jobData : JobData) : Prop :=
  truthy (Job_URL jobData) = true
  /\ truthy (Skills jobData) = true
  /\ truthy (Job_Description jobData) = true
  /\ Search_Query jobData = JOB_SEARCH_QUERY cfg
  /\ Search_Location jobData = LOCATION cfg
  /\ Search_Experience jobData = EXPERIENCE cfg.

(** The card gets as far as the detail tab in state [st]: the scroll and
    [getWindowHandle] succeed and the title link gives the non-empty URL
    [jobUrl], not known so far. *)
Definition reachesDetails (card : CardObs) (st : RunState) (jobUrl : string) : Prop :=
  c_scroll card = None
  /\ (titleLoop (c_find card) titleSelectors "Not available" None).2 = Some jobUrl
  /\ truthy jobUrl = true
  /\ (jobUrl ∉ scrapedUrls st)
  /\ c_windowHandle card = None.

(** The snippet the card loop leaves in [jobDescription]. *)
Definition cardDescription (card : CardObs) : string :=
  textLoop (c_find card) descriptionSelectors "Not available" "Not available".

(** A card as [sampleCard] whose detail tab cannot be opened. *)
Definition failingCard (href : string) (outcome : DetailOutcome) (back : bool) : CardObs :=
  {| c_scroll := None;
     c_find := c_find (sampleCard href);
     c_findAll := fun _ => [];
     c_windowHandle := None;
     c_detail := outcome;
     c_switchBack := back |}.

(** A login form on which everything works and the check confirms the
    login. *)
Definition goodLogin : LoginObs :=
  {| lo_get1 := None; lo_currentUrl := Some "https://www.naukri.com/nlogin/login";
     lo_firstPage := fun _ => Some (sampleElement "" "");
     lo_get2 := None; lo_secondPage := fun _ => None;
     lo_scrollOk := true; lo_jsClickOk := true;
     lo_pageSource := Some "<html>My Naukri</html>";
     lo_loggedIn := true |}.

(** A session in which no cookie file exists and the login form works. *)
Definition sampleSession : SessionObs :=
  {| se_homeOk := true;
     se_restore := {| ro_fileExists := false; ro_cookies := None; ro_getOk := true;
                      ro_deleteOk := true; ro_refresh1Ok := true; ro_refresh2Ok := true |};
     se_check := {| ck_currentUrl := None; ck_wait := fun _ => None |};
     se_clearOk := true;
     se_login := goodLogin |}.

Definition loginConfig : Config :=
  {| EMAIL := "user@example.com"; PASSWORD := "secret";
     JOB_SEARCH_QUERY := "Data Analyst"; LOCATION := "Bangalore"; EXPERIENCE := "2";
     INTERNAL_JOBS_LIMIT := 15; EXTERNAL_JOBS_LIMIT := 5; MAX_PAGES_TO_SEARCH := 3 |}.

Definition sampleEnv : Env :=
  {| env_store := {| db_clientOk := true; db_connectOk := true;
                     db_docs := Some ["https://www.naukri.com/old-job"; ""];
                     db_connectedInCatch := true |};
     env_build := fun _ => true;
     env_session := sampleSession;
     env_world := sampleWorld |}.

(** * Properties *)

Lemma run_step_last cfg w n m : run cfg w (S n) m = step cfg w (run cfg w n m).
Proof.
  revert m. induction n as [|n IH]; intros m; [reflexivity|].
  change (run cfg w (S (S n)) m) with (run cfg w (S n) (step cfg w m)).
  rewrite IH. reflexivity.
Qed.

Lemma run_add cfg w a b m : run cfg w (a + b) m = run cfg w b (run cfg w a m).
Proof. revert m. induction a as [|a IH]; intros m; simpl; [reflexivity|apply IH]. Qed.

Lemma run_halted cfg w n m h : ctl m = Halted h -> run cfg w n m = m.
Proof.
  intros H. induction n as [|n IH]; [reflexivity|].
  simpl. unfold step. rewrite H. exact IH.
Qed.

(** ** The acceptance ledger along a run *)

Lemma acceptJob_cases cfg jobData st :
  Job_URL jobData ∉ scrapedUrls st ->
  ledger (acceptJob cfg jobData st) = ledger st \/ Accepts cfg st (acceptJob cfg jobData st).
Proof.
  intros Hfresh. unfold acceptJob.
  destruct (String.eqb (Application_Type jobData) "Internal") eqn:Hi; simpl.
  - destruct (internalCount st <? INTERNAL_JOBS_LIMIT cfg) eqn:Hl.
    + right. eapply AcceptsInternal; eauto.
      * by apply String.eqb_eq.
      * by apply Z.ltb_lt.
    + destruct (String.eqb (Application_Type jobData) "External") eqn:He; simpl.
      * apply String.eqb_eq in Hi, He. congruence.
      * by left.
  - destruct (String.eqb (Application_Type jobData) "External") eqn:He; simpl.
    + destruct (externalCount st <? EXTERNAL_JOBS_LIMIT cfg) eqn:Hl.
      * right. eapply AcceptsExternal; eauto.
        -- by apply String.eqb_eq.
        -- by apply Z.ltb_lt.
      * by left.
    + by left.
Qed.

Lemma cardCatch_ledger cfg i e st : ledger (cardCatch cfg i e st).1 = ledger st.
Proof. unfold cardCatch. repeat case_match; reflexivity. Qed.

Lemma Accepts_ledger cfg a a' b b' :
  ledger a' = ledger a -> ledger b' = ledger b -> Accepts cfg a' b' -> Accepts cfg a b.
Proof.
  unfold ledger at 1 2. intros Heq Hb' H. injection Heq as Hj Hi He Hn Hs.
  destruct H as [jd ? ? ? Hb | jd ? ? ? Hb];
    [eapply AcceptsInternal | eapply AcceptsExternal]; eauto;
    rewrite <- ?Hj, <- ?Hi, <- ?He, <- ?Hn, <- ?Hs, <- ?Hb'; assumption.
Qed.

Lemma processCard_ledger cfg i card st :
  ledger (processCard cfg i card st).1 = ledger st
  \/ Accepts cfg st (processCard cfg i card st).1.
Proof.
  unfold processCard.
  destruct (c_scroll card); [left; by rewrite cardCatch_ledger|].
  destruct (titleLoop _ _ _ _) as [jobTitle [jobUrl|]]; [|by left].
  destruct (truthy jobUrl); cbn [negb]; [|by left].
  destruct (bool_decide _) eqn:Hseen; [by left|].
  apply bool_decide_eq_false in Hseen.
  destruct (c_windowHandle card); [left; by rewrite cardCatch_ledger|].
  destruct (c_switchBack card); cbn [negb]; [|left; by rewrite cardCatch_ledger].
  cbn [fst].
  match goal with |- context [acceptJob cfg ?jd ?s] =>
    destruct (acceptJob_cases cfg jd s) as [H|H]; [exact Hseen| |] end.
  - left. rewrite H. reflexivity.
  - right. eapply Accepts_ledger; [| |exact H]; reflexivity.
Qed.

Lemma pageCatch_ledger cfg w e st : ledger (vars (pageCatch cfg w e st)) = ledger st.
Proof. unfold pageCatch. repeat case_match; reflexivity. Qed.

Lemma enterCards_vars cards p st : vars (enterCards cards p st) = st.
Proof. unfold enterCards. repeat case_match; reflexivity. Qed.

Lemma fetchPage_ledger cfg w st : ledger (vars (fetchPage cfg w st)) = ledger st.
Proof.
  unfold fetchPage.
  repeat case_match; rewrite ?pageCatch_ledger, ?enterCards_vars; reflexivity.
Qed.

Lemma step_ledger cfg w m :
  ledger (vars (step cfg w m)) = ledger (vars m)
  \/ Accepts cfg (vars m) (vars (step cfg w m)).
Proof.
  unfold step. destruct (ctl m) as [|cards i|h]; [left; apply fetchPage_ledger| |by left].
  destruct (cards !! i) as [card|]; [|by left].
  destruct (limitsReached cfg (vars m)); [by left|].
  destruct (processCard_ledger cfg i card (vars m)) as [H|H];
    destruct (processCard cfg i card (vars m)) as [st []]; cbn [fst vars] in *;
    [left; exact H | left; exact H | right; exact H |].
  right. eapply Accepts_ledger; [| |exact H]; reflexivity.
Qed.

(** Induction along a run for a property of the ledger. *)
Lemma run_ledger_ind cfg w (P : RunState -> Prop) :
  (forall a b, ledger b = ledger a -> P a -> P b) ->
  (forall a b, Accepts cfg a b -> P a -> P b) ->
  forall m n, P (vars m) -> P (vars (run cfg w n m)).
Proof.
  intros Hsame Hacc m n H0. induction n as [|n IH]; [exact H0|].
  rewrite run_step_last.
  destruct (step_ledger cfg w (run cfg w n m)) as [H|H]; eauto.
Qed.

Lemma ledger_fields a b :
  ledger b = ledger a ->
  jobsToSave b = jobsToSave a /\ internalCount b = internalCount a
  /\ externalCount b = externalCount a /\ newJobsCount b = newJobsCount a
  /\ scrapedUrls b = scrapedUrls a.
Proof. unfold ledger. intros H. injection H as -> -> -> -> ->. auto. Qed.

Lemma Accepts_fields cfg a b :
  Accepts cfg a b ->
  exists jobData,
    (Job_URL jobData ∉ scrapedUrls a)
    /\ jobsToSave b = jobsToSave a ++ [jobData]
    /\ scrapedUrls b = {[Job_URL jobData]} ∪ scrapedUrls a
    /\ newJobsCount b = newJobsCount a + 1
    /\ ((Application_Type jobData = "Internal"
         /\ internalCount a < INTERNAL_JOBS_LIMIT cfg
         /\ internalCount b = internalCount a + 1
         /\ externalCount b = externalCount a)
        \/ (Application_Type jobData = "External"
            /\ externalCount a < EXTERNAL_JOBS_LIMIT cfg
            /\ externalCount b = externalCount a + 1
            /\ internalCount b = internalCount a)).
Proof.
  unfold ledger.
  intros [jd Ht Hl Hf Hb | jd Ht Hl Hf Hb]; injection Hb as -> -> -> -> ->;
    exists jd; repeat split; auto.
Qed.

(** A card whose title link resolves to a known URL leaves the batch, the
    counters and the known URLs as they were. *)
Lemma processCard_known cfg i card st jobTitle jobUrl :
  titleLoop (c_find card) titleSelectors "Not available" None = (jobTitle, Some jobUrl) ->
  jobUrl ∈ scrapedUrls st ->
  ledger (processCard cfg i card st).1 = ledger st.
Proof.
  intros Ht Hin. unfold processCard.
  destruct (c_scroll card); [by rewrite cardCatch_ledger|].
  rewrite Ht. destruct (truthy jobUrl); cbn [negb]; [|reflexivity].
  rewrite bool_decide_eq_true_2; [reflexivity|exact Hin].
Qed.

(** C1.  At every point of a run the URLs of the accepted batch are
    pairwise distinct; each of them is in the known-URL set and none was in
    the set loaded from the store; and a card whose resolved URL is already
    known is skipped: it changes neither the batch, nor the counters, nor the
    known URLs. *)
Theorem batch_urls_distinct cfg w storedUrls loggedIn sent n :
  NoDup (Job_URL <$> jobsToSave (vars (run cfg w n (initial storedUrls loggedIn sent))))
  /\ (forall u,
        u ∈ (Job_URL <$> jobsToSave (vars (run cfg w n (initial storedUrls loggedIn sent)))) ->
        u ∈ scrapedUrls (vars (run cfg w n (initial storedUrls loggedIn sent)))
        /\ u ∉ storedUrls)
  /\ storedUrls ⊆ scrapedUrls (vars (run cfg w n (initial storedUrls loggedIn sent)))
  /\ (forall i card jobTitle jobUrl,
        titleLoop (c_find card) titleSelectors "Not available" None
          = (jobTitle, Some jobUrl) ->
        jobUrl ∈ scrapedUrls (vars (run cfg w n (initial storedUrls loggedIn sent))) ->
        ledger (processCard cfg i card
                  (vars (run cfg w n (initial storedUrls loggedIn sent)))).1
        = ledger (vars (run cfg w n (initial storedUrls loggedIn sent)))).
Proof.
  set (P := fun st : RunState =>
    NoDup (Job_URL <$> jobsToSave st)
    /\ (forall u, u ∈ (Job_URL <$> jobsToSave st) -> u ∈ scrapedUrls st /\ u ∉ storedUrls)
    /\ storedUrls ⊆ scrapedUrls st).
  assert (HP : P (vars (run cfg w n (initial storedUrls loggedIn sent)))).
  { apply run_ledger_ind.
    - intros a b Hab Ha. apply ledger_fields in Hab as (Hj & _ & _ & _ & Hs).
      unfold P. rewrite Hj, Hs. exact Ha.
    - intros a b Hacc (Hnd & Hin & Hsub).
      apply Accepts_fields in Hacc as (jd & Hfresh & Hj & Hs & _).
      unfold P. rewrite Hj, Hs, fmap_app. cbn [fmap list_fmap].
      split; [|split].
      + apply NoDup_app. split; [exact Hnd|]. split; [|apply NoDup_singleton].
        intros u Hu Hu'. apply list_elem_of_singleton in Hu'. subst u.
        apply Hin in Hu. tauto.
      + intros u Hu. apply elem_of_app in Hu as [Hu|Hu].
        * destruct (Hin u Hu) as [Hk Hn]. split; [|exact Hn].
          apply elem_of_union. by right.
        * apply list_elem_of_singleton in Hu. subst u. split.
          -- apply elem_of_union. left. by apply elem_of_singleton.
          -- intros Hc. apply Hfresh, Hsub, Hc.
      + intros u Hu. apply elem_of_union. right. apply Hsub, Hu.
    - unfold P, initial; cbn. split; [apply NoDup_nil_2|]. split; [|done].
      intros u Hu. by apply elem_of_nil in Hu. }
  destruct HP as (H1 & H2 & H3). repeat split; auto.
  - by apply H2.
  - by apply H2.
  - intros i card jobTitle jobUrl. apply processCard_known.
Qed.

(** C2 (amended).  At every point of a run the accepted count of each
    category is at most its configured limit when that limit is not
    negative, and is 0 when that limit is negative (nothing of the category
    is then accepted); and every step of the run that moves a counter is an
    acceptance taken while that counter was strictly below its limit, raising
    it by one. *)
Theorem counts_within_limits cfg w storedUrls loggedIn sent n :
  (0 <= INTERNAL_JOBS_LIMIT cfg ->
   internalCount (vars (run cfg w n (initial storedUrls loggedIn sent)))
     <= INTERNAL_JOBS_LIMIT cfg)
  /\ (INTERNAL_JOBS_LIMIT cfg < 0 ->
      internalCount (vars (run cfg w n (initial storedUrls loggedIn sent))) = 0)
  /\ (0 <= EXTERNAL_JOBS_LIMIT cfg ->
      externalCount (vars (run cfg w n (initial storedUrls loggedIn sent)))
        <= EXTERNAL_JOBS_LIMIT cfg)
  /\ (EXTERNAL_JOBS_LIMIT cfg < 0 ->
      externalCount (vars (run cfg w n (initial storedUrls loggedIn sent))) = 0)
  /\ (0 <= INTERNAL_JOBS_LIMIT cfg -> 0 <= EXTERNAL_JOBS_LIMIT cfg ->
      withinLimits cfg (vars (run cfg w n (initial storedUrls loggedIn sent))))
  /\ (ledger (vars (run cfg w (S n) (initial storedUrls loggedIn sent)))
        = ledger (vars (run cfg w n (initial storedUrls loggedIn sent)))
      \/ Accepts cfg (vars (run cfg w n (initial storedUrls loggedIn sent)))
                     (vars (run cfg w (S n) (initial storedUrls loggedIn sent)))).
Proof.
  assert (H : (fun st =>
      (0 <= INTERNAL_JOBS_LIMIT cfg -> internalCount st <= INTERNAL_JOBS_LIMIT cfg)
      /\ (INTERNAL_JOBS_LIMIT cfg < 0 -> internalCount st = 0)
      /\ (0 <= EXTERNAL_JOBS_LIMIT cfg -> externalCount st <= EXTERNAL_JOBS_LIMIT cfg)
      /\ (EXTERNAL_JOBS_LIMIT cfg < 0 -> externalCount st = 0))
    (vars (run cfg w n (initial storedUrls loggedIn sent)))).
  { apply run_ledger_ind.
    - intros a b Hab Ha. apply ledger_fields in Hab as (_ & -> & -> & _). exact Ha.
    - intros a b Hacc (Ha1 & Ha2 & Ha3 & Ha4).
      apply Accepts_fields in Hacc as (jd & _ & _ & _ & _ & [H|H]);
        destruct H as (_ & Hlt & -> & ->); repeat split; lia.
    - cbn. lia. }
  destruct H as (H1 & H2 & H3 & H4).
  repeat split; auto.
  rewrite run_step_last. apply step_ledger.
Qed.

(** C2 as stated fails: the limits are taken from the command line as
    [parseInt] gives them, and under a negative Internal limit the Internal
    count, 0 from the start, is above its limit at every point of the run. *)
Lemma counts_exceed_negative_limit :
  INTERNAL_JOBS_LIMIT negativeLimitConfig = -1
  /\ internalCount (vars (run negativeLimitConfig sampleWorld 0 sampleStart)) = 0
  /\ ~ withinLimits negativeLimitConfig
        (vars (run negativeLimitConfig sampleWorld 0 sampleStart))
  /\ ~ withinLimits negativeLimitConfig
        (vars (run negativeLimitConfig sampleWorld 6 sampleStart)).
Proof.
  split; [reflexivity|]. split; [reflexivity|].
  split; intros [Hi _]; vm_compute in Hi; apply Hi; reflexivity.
Qed.

(** C8.  At every point of a run every record of the accepted batch has the
    application type "Internal" or "External"; the type a detail visit
    yields is "Internal" unless the detail page opened and one of the
    company-site selectors has a displayed element, in which case it is
    "External". *)
Theorem application_type_decided cfg w storedUrls loggedIn sent n :
  Forall (fun jobData => Application_Type jobData = "Internal"
                         \/ Application_Type jobData = "External")
         (jobsToSave (vars (run cfg w n (initial storedUrls loggedIn sent))))
  /\ (forall i card jobUrl jobDescription skills skillsList,
        let t := dt_applicationType
                   (scrapeDetails cfg i card jobUrl jobDescription skills skillsList) in
        (t = "Internal" \/ t = "External")
        /\ (t = "External" ->
            exists d sel elements btn,
              c_detail card = DetailOpened d
              /\ sel ∈ externalButtonSelectors
              /\ d_findAll d sel = Some elements
              /\ btn ∈ elements
              /\ e_displayed btn = Some true)).
Proof.
  split.
  - apply (run_ledger_ind cfg w (fun st =>
      Forall (fun jobData => Application_Type jobData = "Internal"
                             \/ Application_Type jobData = "External") (jobsToSave st))).
    + intros a b Hab Ha. apply ledger_fields in Hab as (-> & _). exact Ha.
    + intros a b Hacc Ha.
      apply Accepts_fields in Hacc as (jd & _ & -> & _ & _ & H).
      apply Forall_app. split; [exact Ha|]. apply Forall_singleton.
      destruct H as [(H & _)|(H & _)]; auto.
    + cbn. apply Forall_nil_2.
  - intros i card jobUrl jobDescription skills skillsList t. subst t.
    unfold scrapeDetails. destruct (c_detail card) as [known e| |d]; cbn [dt_applicationType].
    + split; [by left|discriminate].
    + split; [by left|discriminate].
    + unfold classifyApplication.
      destruct (existsb _ externalButtonSelectors) eqn:Hex.
      * split; [by right|]. intros _.
        apply existsb_exists in Hex as (sel & Hsel & Hdisp).
        destruct (d_findAll d sel) as [elements|] eqn:Hfind; [|discriminate].
        assert (Hbtn : exists btn, btn ∈ elements /\ e_displayed btn = Some true).
        { clear Hfind. induction elements as [|b r IH]; [discriminate|].
          cbn [anyDisplayed] in Hdisp.
          destruct (e_displayed b) as [[]|] eqn:Hb; try discriminate.
          - exists b. split; [left|exact Hb].
          - destruct (IH Hdisp) as (btn & Hin & Hd). exists btn. split; [by right|exact Hd]. }
        destruct Hbtn as (btn & Hin & Hd).
        exists d, sel, elements, btn. repeat split; auto.
        by apply list_elem_of_In.
      * split; [by left|discriminate].
Qed.

(** C10.  At every point of a run the length of the accepted batch equals
    the sum of the two category counters and equals the new-jobs counter;
    and every step of the run either leaves the batch, the three counters and
    the known URLs untouched or is one acceptance, which appends one record,
    raises exactly one category counter and the new-jobs counter by one and
    marks the record's URL known. *)
Theorem batch_length_is_count cfg w storedUrls loggedIn sent n :
  (Z.of_nat (length (jobsToSave (vars (run cfg w n (initial storedUrls loggedIn sent)))))
     = internalCount (vars (run cfg w n (initial storedUrls loggedIn sent)))
       + externalCount (vars (run cfg w n (initial storedUrls loggedIn sent)))
   /\ newJobsCount (vars (run cfg w n (initial storedUrls loggedIn sent)))
     = internalCount (vars (run cfg w n (initial storedUrls loggedIn sent)))
       + externalCount (vars (run cfg w n (initial storedUrls loggedIn sent))))
  /\ (ledger (vars (run cfg w (S n) (initial storedUrls loggedIn sent)))
        = ledger (vars (run cfg w n (initial storedUrls loggedIn sent)))
      \/ exists jobData,
           let a := vars (run cfg w n (initial storedUrls loggedIn sent)) in
           let b := vars (run cfg w (S n) (initial storedUrls loggedIn sent)) in
           jobsToSave b = jobsToSave a ++ [jobData]
           /\ scrapedUrls b = {[Job_URL jobData]} ∪ scrapedUrls a
           /\ newJobsCount b = newJobsCount a + 1
           /\ ((internalCount b = internalCount a + 1
                /\ externalCount b = externalCount a)
               \/ (externalCount b = externalCount a + 1
                   /\ internalCount b = internalCount a))).
Proof.
  split.
  - apply (run_ledger_ind cfg w (fun st =>
      Z.of_nat (length (jobsToSave st)) = internalCount st + externalCount st
      /\ newJobsCount st = internalCount st + externalCount st)).
    + intros a b Hab Ha. apply ledger_fields in Hab as (-> & -> & -> & -> & _). exact Ha.
    + intros a b Hacc [Ha1 Ha2].
      apply Accepts_fields in Hacc as (jd & _ & -> & _ & -> & H).
      rewrite length_app. cbn [length].
      destruct H as [(_ & _ & -> & ->)|(_ & _ & -> & ->)]; lia.
    + cbn. lia.
  - rewrite run_step_last.
    destruct (step_ledger cfg w (run cfg w n (initial storedUrls loggedIn sent))) as [H|H];
      [by left|right].
    apply Accepts_fields in H as (jd & _ & Hj & Hs & Hn & H).
    exists jd. cbn zeta. repeat split; auto.
    destruct H as [(_ & _ & ? & ?)|(_ & _ & ? & ?)]; auto.
Qed.

(** ** Search URL *)

Lemma append_empty_r s : s +:+ "" = s.
Proof.
  induction s as [|c s IH]; [reflexivity|].
  change (String c (s +:+ "") = String c s). by rewrite IH.
Qed.

Lemma append_fixed_l s t : s +:+ t = s -> t = "".
Proof.
  induction s as [|c s IH]; [intros H; exact H|].
  change (String c (s +:+ t) = String c s -> t = "").
  intros H. injection H as H. auto.
Qed.

(** C6.  The URL of page 1 is the base URL, with nothing appended.  For a
    page number above 1 the page parameter is appended to the base URL: with
    "&" when the base URL carries the experience parameter (it then differs
    from the bare search path), with "?" when it does not. *)
Theorem page_parameter_separator cfg N :
  1 < N ->
  currentPageUrl cfg 1 = searchUrlBase cfg
  /\ (searchUrlBase cfg <> searchUrlPath cfg ->
      searchUrlBase cfg = searchUrlPath cfg +:+ "?experience=" +:+ EXPERIENCE cfg
      /\ currentPageUrl cfg N = searchUrlBase cfg +:+ "&pageNo=" +:+ showZ N)
  /\ (searchUrlBase cfg = searchUrlPath cfg ->
      currentPageUrl cfg N = searchUrlBase cfg +:+ "?pageNo=" +:+ showZ N).
Proof.
  intros HN. apply Z.ltb_lt in HN.
  unfold currentPageUrl, searchUrlParams. rewrite HN. cbn [Z.ltb Z.compare].
  split; [apply append_empty_r|].
  unfold searchUrlBase. destruct (experienceGiven cfg) eqn:Hexp.
  - split; [intros _; split; reflexivity|].
    intros H. apply append_fixed_l in H. discriminate.
  - split; [congruence|reflexivity].
Qed.

(** ** Detail description *)



(** ** Login guard *)

Lemma truthy_empty : truthy "" = false.
Proof. reflexivity. Qed.

Lemma loginToNaukri_empty email password o :
  email = "" \/ password = "" -> loginToNaukri email password o = (false, []).
Proof.
  intros [-> | ->]; unfold loginToNaukri; rewrite truthy_empty; cbn [negb orb];
    [reflexivity|]. by rewrite orb_true_r.
Qed.

(** C9.  A call of the login with an empty email or an empty password
    returns false and sends no command to the browser, so no navigation is
    attempted; and when that call is the re-login after a lost session, the
    run goes on from the next page, marked as not logged in, having sent
    nothing but the driver teardown and rebuild. *)
Theorem login_without_credentials email password :
  email = "" \/ password = "" ->
  (forall o, loginToNaukri email password o = (false, []))
  /\ (forall cfg w pageError st,
        EMAIL cfg = email -> PASSWORD cfg = password ->
        isTimeout pageError = false ->
        sessionLost (message pageError) = true ->
        (initializeDriver (w_build w (page st))).1 = true ->
        ctl (pageCatch cfg w pageError st) = LoopHead
        /\ isLoggedIn (vars (pageCatch cfg w pageError st)) = false
        /\ page (vars (pageCatch cfg w pageError st)) = page st + 1
        /\ events (vars (pageCatch cfg w pageError st))
           = events st ++ [EvQuit] ++ (initializeDriver (w_build w (page st))).2
        /\ List.filter isGet ((initializeDriver (w_build w (page st))).2) = []).
Proof.
  intros Hempty. split; [intros o; by apply loginToNaukri_empty|].
  intros cfg w e st <- <- Ht Hs Hb.
  unfold pageCatch. rewrite Ht, Hs. cbn [page addEvents].
  rewrite (loginToNaukri_empty _ _ (w_login w (page st)) Hempty).
  destruct (initializeDriver (w_build w (page st))) as [ok built] eqn:Hinit.
  cbn [fst snd] in *. subst ok. cbn.
  rewrite app_nil_r, <- app_assoc. repeat split.
  unfold initializeDriver in Hinit. clear -Hinit.
  revert built Hinit. generalize 0%nat. induction MAX_RETRIES as [|k IH];
    intros r built H; cbn in H.
  - discriminate.
  - destruct (w_build w (page st) r).
    + injection H as <-. reflexivity.
    + destruct (buildLoop _ (S r) k) as [ok evs] eqn:Hb. injection H as -> <-.
      cbn. eapply IH. exact Hb.
Qed.


(** ** CAPTCHA on a result page *)

Lemma captcha_error_classified :
  isTimeout (mkError "CAPTCHA challenge detected on results page") = false
  /\ sessionLost (message (mkError "CAPTCHA challenge detected on results page")) = false
  /\ includes (message (mkError "CAPTCHA challenge detected on results page")) "CAPTCHA"
     = true.
Proof. repeat split; vm_compute; reflexivity. Qed.

(** C3.  When the scanner finds no container and no card on a fetched
    result page and the page source contains the CAPTCHA marker, the step
    ends the page loop: the only commands sent are the fetch of that page and
    a screenshot (no driver teardown, no driver build, no second fetch), the
    batch is untouched, and no later step changes anything. *)
Theorem captcha_stops_paging cfg w st p :
  page st <= MAX_PAGES_TO_SEARCH cfg ->
  limitsReached cfg st = false ->
  w_page w (page st) = Loaded p ->
  noElements p = true ->
  includes (toLowerCase (default "" (p_pageSource p))) "captcha" = true ->
  ctl (step cfg w {| vars := st; ctl := LoopHead |}) = Halted Finished
  /\ events (vars (step cfg w {| vars := st; ctl := LoopHead |}))
     = events st ++ [EvGet (currentPageUrl cfg (page st));
                     EvScreenshot ("page_" +:+ showZ (page st) +:+ "_no_elements_found.png")]
  /\ page (vars (step cfg w {| vars := st; ctl := LoopHead |})) = page st
  /\ ledger (vars (step cfg w {| vars := st; ctl := LoopHead |})) = ledger st
  /\ (forall n, run cfg w n (step cfg w {| vars := st; ctl := LoopHead |})
                = step cfg w {| vars := st; ctl := LoopHead |}).
Proof.
  intros Hp Hl Hw Hno Hc.
  destruct captcha_error_classified as (Ht & Hs & Hcap).
  assert (Hstep : step cfg w {| vars := st; ctl := LoopHead |}
    = {| vars := addEvents [EvScreenshot ("page_" +:+ showZ (page st)
                                            +:+ "_no_elements_found.png")]
                   (addEvents [EvGet (currentPageUrl cfg (page st))] st);
         ctl := Halted Finished |}).
  { unfold step, fetchPage. cbn [ctl vars].
    apply Z.leb_le in Hp. rewrite Hp, Hl. cbn [negb addEvents page].
    rewrite Hw. unfold noElements in Hno. apply negb_true_iff in Hno. rewrite Hno.
    rewrite Hc. unfold pageCatch. rewrite Ht, Hs, Hcap. reflexivity. }
  rewrite Hstep. cbn [ctl vars addEvents events page].
  repeat split.
  - by rewrite <- app_assoc.
  - intros n. by eapply run_halted.
Qed.

(** ** Lost session *)

Lemma fetch_fails cfg w st pageError :
  page st <= MAX_PAGES_TO_SEARCH cfg ->
  limitsReached cfg st = false ->
  w_page w (page st) = GetFails pageError ->
  step cfg w {| vars := st; ctl := LoopHead |}
  = pageCatch cfg w pageError (addEvents [EvGet (currentPageUrl cfg (page st))] st).
Proof.
  intros Hp Hl Hw. unfold step, fetchPage. cbn [ctl vars].
  apply Z.leb_le in Hp. rewrite Hp, Hl. cbn [negb addEvents page]. by rewrite Hw.
Qed.

(** C4 (amended).  When the fetch of a page fails with an error that is not
    a timeout error and whose message contains "session", "crashed",
    "disconnected" or "target closed", the coordinator quits the old driver
    and tries to build a new one.  When a driver is built, it calls the
    login and is back at the head of the loop on the next page, the failed
    page not being fetched again and the batch untouched.  When no driver
    can be built, the error leaves the page loop and the run is cut short,
    the batch collected so far untouched. *)
Theorem session_loss_recovery cfg w st pageError :
  page st <= MAX_PAGES_TO_SEARCH cfg ->
  limitsReached cfg st = false ->
  w_page w (page st) = GetFails pageError ->
  sessionLost (message pageError) = true ->
  isTimeout pageError = false ->
  ((initializeDriver (w_build w (page st))).1 = true ->
   recovered cfg w st (step cfg w {| vars := st; ctl := LoopHead |}))
  /\ ((initializeDriver (w_build w (page st))).1 = false ->
      ctl (step cfg w {| vars := st; ctl := LoopHead |})
      = Halted (Fatal (mkError "Failed to initialize WebDriver after 3 attempts."))
      /\ ledger (vars (step cfg w {| vars := st; ctl := LoopHead |})) = ledger st
      /\ events (vars (step cfg w {| vars := st; ctl := LoopHead |}))
         = events st ++ [EvGet (currentPageUrl cfg (page st)); EvQuit]
             ++ (initializeDriver (w_build w (page st))).2).
Proof.
  intros Hp Hl Hw Hs Ht. rewrite (fetch_fails _ _ _ _ Hp Hl Hw).
  unfold recovered, pageCatch. rewrite Ht, Hs. cbn [page addEvents].
  destruct (initializeDriver (w_build w (page st))) as [ok built]. cbn [fst snd].
  split; intros ->.
  - destruct (loginToNaukri _ _ _) as [ok sent]. cbn [fst snd].
    cbn [ctl vars nextPage setLoggedIn addEvents page isLoggedIn events].
    repeat split. exists built. split; [reflexivity|].
    rewrite <- !app_assoc. reflexivity.
  - cbn [ctl vars addEvents events]. repeat split. by rewrite <- !app_assoc.
Qed.

(** C4 as stated fails: after the same kind of failure the run is cut short
    when no driver can be built, and a timeout error with such a message is
    handled as a general page error, without teardown. *)
Lemma session_loss_not_always_recovered :
  (w_page (crashWorld crashError false) (page (vars sampleStart)) = GetFails crashError
   /\ sessionLost (message crashError) = true
   /\ ctl (step sampleConfig (crashWorld crashError false) sampleStart)
      = Halted (Fatal (mkError "Failed to initialize WebDriver after 3 attempts."))
   /\ ~ recovered sampleConfig (crashWorld crashError false) (vars sampleStart)
          (step sampleConfig (crashWorld crashError false) sampleStart))
  /\ (w_page (crashWorld timeoutError true) (page (vars sampleStart)) = GetFails timeoutError
      /\ sessionLost (message timeoutError) = true
      /\ List.filter isQuit
           (events (vars (step sampleConfig (crashWorld timeoutError true) sampleStart))) = []
      /\ ~ recovered sampleConfig (crashWorld timeoutError true) (vars sampleStart)
             (step sampleConfig (crashWorld timeoutError true) sampleStart)).
Proof.
  split; (split; [reflexivity|]); (split; [vm_compute; reflexivity|]);
    (split; [vm_compute; reflexivity|]).
  - intros (Hctl & _). vm_compute in Hctl. discriminate.
  - intros (_ & _ & _ & _ & built & _ & Hev).
    assert (Hq : List.filter isQuit
      (events (vars (step sampleConfig (crashWorld timeoutError true) sampleStart))) = [])
      by (vm_compute; reflexivity).
    rewrite Hev in Hq. cbn [sampleStart initial vars events app] in Hq.
    cbn [List.filter isGet isQuit] in Hq. discriminate.
Qed.

(** ** Pagination *)

Lemma noFetch_refl a : noFetch 0 a a.
Proof. split; [lia|]. exists []. by rewrite app_nil_r. Qed.

Lemma noFetch_trans j k a b c : noFetch j a b -> noFetch k b c -> noFetch (j + k) a c.
Proof.
  intros [Hp (e1 & He1 & Hf1)] [Hq (e2 & He2 & Hf2)]. split; [lia|].
  exists (e1 ++ e2). rewrite He2, He1, <- app_assoc. split; [reflexivity|].
  by rewrite List.filter_app, Hf1, Hf2.
Qed.

Lemma noFetch_addEvents evs st :
  List.filter isGet evs = [] -> noFetch 0 st (addEvents evs st).
Proof. intros H. split; [cbn; lia|]. by exists evs. Qed.

Lemma noFetch_nextPage st : noFetch 1 st (nextPage st).
Proof. split; [reflexivity|]. exists []. by rewrite app_nil_r. Qed.

Lemma noFetch_acceptJob cfg jobData st : noFetch 0 st (acceptJob cfg jobData st).
Proof.
  unfold acceptJob, noFetch.
  repeat case_match; cbn [page events];
    (split; [lia | exists []; by rewrite app_nil_r]).
Qed.

Lemma noFetch_cardCatch cfg i e st : noFetch 0 st (cardCatch cfg i e st).1.
Proof.
  unfold cardCatch.
  repeat case_match; cbn [fst]; try apply noFetch_refl; by apply noFetch_addEvents.
Qed.

Lemma noFetch_processCard cfg i card st : noFetch 0 st (processCard cfg i card st).1.
Proof.
  unfold processCard.
  assert (Hscroll : noFetch 0 st (addEvents [EvScript "scrollIntoView"] st))
    by by apply noFetch_addEvents.
  destruct (c_scroll card).
  { apply (noFetch_trans 0 0 _ _ _ Hscroll), noFetch_cardCatch. }
  destruct (titleLoop _ _ _ _) as [jobTitle [jobUrl|]]; [|exact Hscroll].
  destruct (truthy jobUrl); cbn [negb]; [|exact Hscroll].
  destruct (bool_decide _); [exact Hscroll|].
  destruct (c_windowHandle card).
  { apply (noFetch_trans 0 0 _ _ _ Hscroll), noFetch_cardCatch. }
  match goal with |- context [addEvents ?evs (addEvents ?s0 st)] =>
    assert (Htab : noFetch 0 (addEvents s0 st) (addEvents evs (addEvents s0 st))) end.
  { apply noFetch_addEvents. unfold scrapeDetails.
    destruct (c_detail card) as [known e| |d]; cbn [dt_events dt_handle];
      repeat case_match; reflexivity. }
  destruct (c_switchBack card); cbn [negb fst].
  - apply (noFetch_trans 0 0 _ _ _ Hscroll), (noFetch_trans 0 0 _ _ _ Htab),
      noFetch_acceptJob.
  - apply (noFetch_trans 0 0 _ _ _ Hscroll), (noFetch_trans 0 0 _ _ _ Htab),
      noFetch_cardCatch.
Qed.

(** The card loop always comes back to the head of the page loop, on the
    next page, without a fetch. *)
Lemma card_loop_returns cfg w jobCards k :
  forall i st, (length jobCards - i <= k)%nat ->
  exists steps st',
    run cfg w steps {| vars := st; ctl := CardLoop jobCards i |}
    = {| vars := st'; ctl := LoopHead |}
    /\ noFetch 1 st st'.
Proof.
  induction k as [|k IH]; intros i st Hk.
  - exists 1%nat, (nextPage st). split; [|apply noFetch_nextPage].
    cbn [run]. unfold step. cbn [ctl vars].
    rewrite (proj2 (lookup_ge_None jobCards i)); [reflexivity|lia].
  - destruct (jobCards !! i) as [card|] eqn:Hcard.
    + destruct (limitsReached cfg st) eqn:Hl.
      * exists 1%nat, (nextPage st). split; [|apply noFetch_nextPage].
        cbn [run]. unfold step. cbn [ctl vars]. by rewrite Hcard, Hl.
      * pose proof (noFetch_processCard cfg i card st) as Hq.
        destruct (processCard cfg i card st) as [st1 []] eqn:Hproc; cbn [fst] in Hq.
        -- destruct (IH (S i) st1) as (steps & st' & Hrun & Hnf); [lia|].
           exists (S steps), st'. split.
           ++ cbn [run]. rewrite <- Hrun. f_equal.
              unfold step. cbn [ctl vars]. by rewrite Hcard, Hl, Hproc.
           ++ apply (noFetch_trans 0 1 _ _ _ Hq Hnf).
        -- exists 1%nat, (nextPage st1). split.
           ++ cbn [run]. unfold step. cbn [ctl vars]. by rewrite Hcard, Hl, Hproc.
           ++ apply (noFetch_trans 0 1 _ _ _ Hq), noFetch_nextPage.
    + exists 1%nat, (nextPage st). split; [|apply noFetch_nextPage].
      cbn [run]. unfold step. cbn [ctl vars]. by rewrite Hcard.
Qed.

(** One round of the page loop on a page that shows cards: exactly one
    fetch, of that page, and the loop is back at its head on the next
    page. *)
Lemma page_round cfg w st p :
  page st <= MAX_PAGES_TO_SEARCH cfg ->
  limitsReached cfg st = false ->
  w_page w (page st) = Loaded p ->
  showsCards p = true ->
  exists steps st',
    run cfg w steps {| vars := st; ctl := LoopHead |} = {| vars := st'; ctl := LoopHead |}
    /\ page st' = page st + 1
    /\ exists evs, events st' = events st ++ evs
                   /\ List.filter isGet evs = [EvGet (currentPageUrl cfg (page st))].
Proof.
  intros Hp Hl Hw Hshow.
  apply andb_true_iff in Hshow as [Hcont Hcards].
  unfold noElements in Hcont. rewrite negb_involutive in Hcont.
  set (jobCards := findJobCards (p_cards p) jobCardSelectors) in *.
  set (st0 := addEvents [EvGet (currentPageUrl cfg (page st))] st).
  assert (Hstep : step cfg w {| vars := st; ctl := LoopHead |}
                  = {| vars := st0; ctl := CardLoop jobCards 0 |}).
  { unfold step, fetchPage. cbn [ctl vars].
    apply Z.leb_le in Hp. rewrite Hp, Hl. cbn [negb addEvents page].
    rewrite Hw, Hcont. fold jobCards. unfold enterCards.
    destruct jobCards; [discriminate|reflexivity]. }
  destruct (card_loop_returns cfg w jobCards (length jobCards) 0 st0)
    as (steps & st' & Hrun & Hpage & evs & Hev & Hf); [lia|].
  exists (S steps), st'. split; [cbn [run]; by rewrite Hstep|].
  split; [exact Hpage|].
  exists (EvGet (currentPageUrl cfg (page st)) :: evs). split.
  - rewrite Hev. subst st0. cbn [addEvents events]. by rewrite <- app_assoc.
  - cbn [List.filter isGet]. by rewrite Hf.
Qed.

(** C5.  With a page cap of 3, result pages 1 to 3 that show cards, and
    category limits that are never both satisfied during the run, the page
    loop ends, and from then on the commands sent by the page loop contain
    exactly three page fetches: those of pages 1, 2 and 3, in this order.
    Both stop conditions come before the fetch: at the head of the loop, a
    page number above the cap or both limits satisfied halts the loop with
    no command sent. *)
Theorem three_pages_three_fetches cfg w storedUrls loggedIn sent :
  MAX_PAGES_TO_SEARCH cfg = 3 ->
  (forall N, 1 <= N <= 3 -> exists p, w_page w N = Loaded p /\ showsCards p = true) ->
  (forall n, limitsReached cfg (vars (run cfg w n (initial storedUrls loggedIn sent)))
             = false) ->
  (exists n, forall k, (n <= k)%nat ->
     ctl (run cfg w k (initial storedUrls loggedIn sent)) = Halted Finished
     /\ exists evs,
          events (vars (run cfg w k (initial storedUrls loggedIn sent))) = sent ++ evs
          /\ List.filter isGet evs
             = [EvGet (currentPageUrl cfg 1); EvGet (currentPageUrl cfg 2);
                EvGet (currentPageUrl cfg 3)])
  /\ (forall st,
        MAX_PAGES_TO_SEARCH cfg < page st \/ limitsReached cfg st = true ->
        step cfg w {| vars := st; ctl := LoopHead |}
        = {| vars := st; ctl := Halted Finished |}).
Proof.
  intros Hmax Hpages Hlim.
  split.
  2:{ intros st Hstop. unfold step, fetchPage. cbn [ctl vars].
      destruct (page st <=? MAX_PAGES_TO_SEARCH cfg) eqn:Hp; cbn [negb]; [|reflexivity].
      destruct Hstop as [Hgt| ->]; [|reflexivity]. apply Z.leb_le in Hp. lia. }
  set (m0 := initial storedUrls loggedIn sent) in *.
  assert (Hround : forall n st, run cfg w n m0 = {| vars := st; ctl := LoopHead |} ->
            1 <= page st <= 3 ->
            exists n' st', run cfg w n' m0 = {| vars := st'; ctl := LoopHead |}
              /\ page st' = page st + 1
              /\ exists evs, events st' = events st ++ evs
                   /\ List.filter isGet evs = [EvGet (currentPageUrl cfg (page st))]).
  { intros n st Hn Hrange.
    destruct (Hpages (page st) Hrange) as (p & Hw & Hshow).
    destruct (page_round cfg w st p) as (steps & st' & Hrun & Hrest);
      [lia| |exact Hw|exact Hshow|].
    - specialize (Hlim n). by rewrite Hn in Hlim.
    - exists (n + steps)%nat, st'. split; [|exact Hrest].
      by rewrite run_add, Hn. }
  destruct (Hround 0%nat (vars m0)) as (n1 & st1 & Hr1 & Hp1 & e1 & He1 & Hf1);
    [reflexivity|cbn; lia|].
  destruct (Hround n1 st1 Hr1) as (n2 & st2 & Hr2 & Hp2 & e2 & He2 & Hf2);
    [cbn in Hp1; lia|].
  destruct (Hround n2 st2 Hr2) as (n3 & st3 & Hr3 & Hp3 & e3 & He3 & Hf3);
    [cbn in Hp1; lia|].
  assert (Hend : run cfg w (S n3) m0 = {| vars := st3; ctl := Halted Finished |}).
  { rewrite run_step_last, Hr3. unfold step, fetchPage. cbn [ctl vars].
    replace (page st3 <=? MAX_PAGES_TO_SEARCH cfg) with false; [reflexivity|].
    symmetry. apply Z.leb_gt. cbn in Hp1. lia. }
  exists (S n3). intros k Hk.
  replace k with (S n3 + (k - S n3))%nat by lia.
  rewrite run_add, Hend, (run_halted _ _ _ _ Finished); [|reflexivity].
  split; [reflexivity|]. exists (e1 ++ e2 ++ e3). cbn [vars]. split.
  - rewrite He3, He2, He1. cbn. by rewrite <- !app_assoc.
  - rewrite !List.filter_app, Hf1, Hf2, Hf3, Hp2, Hp1. reflexivity.
Qed.

(** ** Termination of the page loop *)

Lemma pageCatch_next cfg w e st :
  (exists h, ctl (pageCatch cfg w e st) = Halted h)
  \/ (ctl (pageCatch cfg w e st) = LoopHead
      /\ page (vars (pageCatch cfg w e st)) = page st + 1).
Proof.
  unfold pageCatch.
  repeat case_match; cbn [ctl vars page nextPage setLoggedIn addEvents]; eauto.
Qed.

Lemma enterCards_next cards p st :
  (exists h, ctl (enterCards cards p st) = Halted h)
  \/ ctl (enterCards cards p st) = CardLoop cards 0.
Proof. unfold enterCards. repeat case_match; cbn [ctl]; eauto. Qed.

Lemma fetchPage_next cfg w st :
  page st <= MAX_PAGES_TO_SEARCH cfg ->
  (exists h, ctl (fetchPage cfg w st) = Halted h)
  \/ (ctl (fetchPage cfg w st) = LoopHead
      /\ page (vars (fetchPage cfg w st)) = page st + 1)
  \/ (exists cards, ctl (fetchPage cfg w st) = CardLoop cards 0
                    /\ page (vars (fetchPage cfg w st)) = page st).
Proof.
  intros Hp. unfold fetchPage.
  repeat match goal with
         | |- context [if ?b then _ else _] => destruct b
         | |- context [match w_page w ?N with _ => _ end] => destruct (w_page w N)
         end;
    cbn [ctl vars]; eauto;
    try (match goal with |- context [pageCatch cfg w ?e ?s] =>
           destruct (pageCatch_next cfg w e s) as [H|[H1 H2]]; [by left|right; left] end;
         split; [exact H1|rewrite H2; reflexivity]);
    match goal with |- context [enterCards ?c ?p ?s] =>
      destruct (enterCards_next c p s) as [H|H]; [by left|right; right];
      exists c; rewrite enterCards_vars; split; [exact H|reflexivity] end.
Qed.

(** The page loop always ends: from the head of the loop the machine
    halts after finitely many steps, whatever the browser answers. *)
Lemma loop_head_halts cfg w k :
  forall st, (Z.to_nat (MAX_PAGES_TO_SEARCH cfg + 1 - page st) <= k)%nat ->
  exists n h, ctl (run cfg w n {| vars := st; ctl := LoopHead |}) = Halted h.
Proof.
  induction k as [|k IH]; intros st Hk.
  - exists 1%nat, Finished. cbn [run]. unfold step, fetchPage. cbn [ctl vars].
    replace (page st <=? MAX_PAGES_TO_SEARCH cfg) with false; [reflexivity|].
    symmetry. apply Z.leb_gt. lia.
  - destruct (Z_le_gt_dec (page st) (MAX_PAGES_TO_SEARCH cfg)) as [Hp|Hp].
    + destruct (fetchPage_next cfg w st Hp) as [[h H]|[[H1 H2]|(cards & H1 & H2)]].
      * exists 1%nat, h. exact H.
      * destruct (IH (vars (fetchPage cfg w st))) as (n & h & Hn); [lia|].
        exists (S n), h. cbn [run].
        change (step cfg w {| vars := st; ctl := LoopHead |}) with (fetchPage cfg w st).
        destruct (fetchPage cfg w st) as [st1 c1]. cbn [ctl vars] in *. by subst c1.
      * destruct (card_loop_returns cfg w cards (length cards) 0
                    (vars (fetchPage cfg w st))) as (steps & st' & Hrun & Hpage & _);
          [lia|].
        destruct (IH st') as (n & h & Hn); [lia|].
        exists (S (steps + n)), h. cbn [run].
        change (step cfg w {| vars := st; ctl := LoopHead |}) with (fetchPage cfg w st).
        destruct (fetchPage cfg w st) as [st1 c1]. cbn [ctl vars] in *. subst c1.
        by rewrite run_add, Hrun.
    + exists 1%nat, Finished. cbn [run]. unfold step, fetchPage. cbn [ctl vars].
      replace (page st <=? MAX_PAGES_TO_SEARCH cfg) with false; [reflexivity|].
      symmetry. apply Z.leb_gt. lia.
Qed.

Lemma run_halts cfg w storedUrls loggedIn sent :
  exists n h, forall k, (n <= k)%nat ->
    run cfg w k (initial storedUrls loggedIn sent)
    = run cfg w n (initial storedUrls loggedIn sent)
    /\ ctl (run cfg w k (initial storedUrls loggedIn sent)) = Halted h.
Proof.
  destruct (loop_head_halts cfg w _ (vars (initial storedUrls loggedIn sent)) (le_n _))
    as (n & h & Hn).
  exists n, h. intros k Hk. replace k with (n + (k - n))%nat by lia.
  rewrite run_add, (run_halted _ _ _ _ h); [|exact Hn]. split; [reflexivity|exact Hn].
Qed.

(** ** The properties on the sample observations *)

Lemma counts_within_limits_sample :
  0 <= INTERNAL_JOBS_LIMIT sampleConfig
  /\ 0 <= EXTERNAL_JOBS_LIMIT sampleConfig
  /\ withinLimits sampleConfig (vars (run sampleConfig sampleWorld 4 sampleStart)).
Proof.
  assert (Hi : 0 <= INTERNAL_JOBS_LIMIT sampleConfig) by (cbn; lia).
  assert (He : 0 <= EXTERNAL_JOBS_LIMIT sampleConfig) by (cbn; lia).
  split; [exact Hi|]. split; [exact He|].
  destruct (counts_within_limits sampleConfig sampleWorld ∅ false [] 4)
    as (_ & _ & _ & _ & H & _).
  exact (H Hi He).
Defined.

Lemma captcha_stops_paging_sample :
  ctl (step sampleConfig captchaWorld sampleStart) = Halted Finished
  /\ events (vars (step sampleConfig captchaWorld sampleStart))
     = [EvGet "https://www.naukri.com/data-analyst-jobs-in-bangalore?experience=2";
        EvScreenshot "page_1_no_elements_found.png"].
Proof.
  destruct (captcha_stops_paging sampleConfig captchaWorld (vars sampleStart) captchaPage)
    as (Hctl & Hev & _).
  - cbn. lia.
  - reflexivity.
  - reflexivity.
  - reflexivity.
  - vm_compute. reflexivity.
  - split; [exact Hctl|exact Hev].
Defined.

Lemma session_loss_recovery_sample :
  recovered sampleConfig (crashWorld crashError true) (vars sampleStart)
    (step sampleConfig (crashWorld crashError true) sampleStart).
Proof.
  destruct (session_loss_recovery sampleConfig (crashWorld crashError true)
              (vars sampleStart) crashError) as [Hok _].
  - cbn. lia.
  - reflexivity.
  - reflexivity.
  - vm_compute. reflexivity.
  - reflexivity.
  - apply Hok. reflexivity.
Defined.

Lemma three_pages_three_fetches_sample :
  exists n, forall k, (n <= k)%nat ->
    ctl (run sampleConfig sampleWorld k sampleStart) = Halted Finished
    /\ exists evs,
         events (vars (run sampleConfig sampleWorld k sampleStart)) = [] ++ evs
         /\ List.filter isGet evs
            = [EvGet (currentPageUrl sampleConfig 1); EvGet (currentPageUrl sampleConfig 2);
               EvGet (currentPageUrl sampleConfig 3)].
Proof.
  apply (three_pages_three_fetches sampleConfig sampleWorld ∅ false []).
  - reflexivity.
  - intros N _. exists samplePage. split; [reflexivity|vm_compute; reflexivity].
  - intros n. destruct (le_lt_dec n 10) as [Hn|Hn].
    + do 11 (destruct n as [|n]; [vm_compute; reflexivity|]). lia.
    + replace n with (10 + (n - 10))%nat by lia.
      rewrite run_add.
      rewrite (run_halted sampleConfig sampleWorld (n - 10) _ Finished);
        vm_compute; reflexivity.
Defined.

Lemma page_parameter_separator_sample :
  1 < 2
  /\ currentPageUrl sampleConfig 2
     = "https://www.naukri.com/data-analyst-jobs-in-bangalore?experience=2&pageNo=2".
Proof.
  assert (H : 1 < 2) by lia. split; [exact H|].
  destruct (page_parameter_separator sampleConfig 2 H) as (_ & Hamp & _).
  destruct Hamp as [_ Hurl]; [vm_compute; discriminate|exact Hurl].
Defined.


Lemma login_without_credentials_sample :
  loginToNaukri "" "secret" sampleLogin = (false, [])
  /\ ctl (pageCatch sampleConfig (crashWorld crashError true) crashError (vars sampleStart))
     = LoopHead
  /\ isLoggedIn
       (vars (pageCatch sampleConfig (crashWorld crashError true) crashError
                (vars sampleStart))) = false.
Proof.
  destruct (login_without_credentials "" "secret") as [Hcall Hrun]; [by left|].
  split; [apply Hcall|].
  destruct (Hrun sampleConfig (crashWorld crashError true) crashError (vars sampleStart))
    as (Hctl & Hin & _); try reflexivity.
  split; [exact Hctl|exact Hin].
Defined.

(** * Further properties of the script *)

(** ** Normalised names *)

Lemma lowerChar_not_upper c : isUpper (lowerChar c) = false.
Proof. destruct c as [[] [] [] [] [] [] [] []]; reflexivity. Qed.

Lemma allChars_toLowerCase s : allChars (fun c => negb (isUpper c)) (toLowerCase s) = true.
Proof.
  induction s as [|c s IH]; [reflexivity|].
  cbn [toLowerCase allChars]. by rewrite lowerChar_not_upper, IH.
Qed.

Lemma allChars_replaceSpacesFrom b s :
  allChars (fun c => negb (isUpper c)) s = true ->
  allChars (fun c => negb (isSpace c) && negb (isUpper c)) (replaceSpacesFrom b s) = true.
Proof.
  revert b. induction s as [|c s IH]; intros b H; [reflexivity|].
  cbn [allChars] in H. apply andb_true_iff in H as [Hc Hs].
  cbn [replaceSpacesFrom]. destruct (isSpace c) eqn:Hsp.
  - destruct b; [by apply IH|]. cbn [allChars]. rewrite IH; [reflexivity|exact Hs].
  - cbn [allChars]. rewrite Hsp, Hc, IH; [reflexivity|exact Hs].
Qed.

(** X1.  The query and location parts of the search URL contain no white
    space and no upper-case letter, whatever the configured terms are. *)
Theorem formatted_terms_normalised cfg :
  allChars (fun c => negb (isSpace c) && negb (isUpper c)) (formattedQuery cfg) = true
  /\ allChars (fun c => negb (isSpace c) && negb (isUpper c)) (formattedLocation cfg) = true.
Proof.
  split; apply allChars_replaceSpacesFrom, allChars_toLowerCase.
Qed.

Lemma sanitize_char c : isNameChar (lowerChar (if isAlnum c then c else "_"%char)) = true.
Proof. destruct c as [[] [] [] [] [] [] [] []]; reflexivity. Qed.

(** X2.  The sanitized query used in file names consists of lower-case
    letters, digits and underscores only, and has the length of the query:
    every other character is replaced, none is dropped. *)
Theorem sanitized_query_is_name cfg :
  allChars isNameChar (sanitizedQuery cfg) = true
  /\ String.length (sanitizedQuery cfg) = String.length (JOB_SEARCH_QUERY cfg).
Proof.
  unfold sanitizedQuery. induction (JOB_SEARCH_QUERY cfg) as [|c s [IH1 IH2]];
    [split; reflexivity|].
  cbn [replaceNonAlnum toLowerCase allChars String.length].
  rewrite sanitize_char, IH1, IH2. split; reflexivity.
Qed.

(** ** One URL per page *)

Lemma showZ_inj a b : showZ a = showZ b -> a = b.
Proof.
  unfold showZ. intros H. apply Stdlib.Numbers.DecimalZ.to_int_inj.
  assert (Hnil : forall z, Z.to_int z <> Decimal.Pos Decimal.Nil
                           /\ Z.to_int z <> Decimal.Neg Decimal.Nil).
  { intros [|p|p]; cbn; split; try discriminate;
      intros Hp; injection Hp as Hp;
      pose proof (Stdlib.Numbers.DecimalPos.Unsigned.to_uint_nonnil p); contradiction. }
  destruct (Hnil a) as [Ha1 Ha2]. destruct (Hnil b) as [Hb1 Hb2].
  pose proof (NilZero.isi _ Ha1 Ha2) as Ia. pose proof (NilZero.isi _ Hb1 Hb2) as Ib.
  rewrite H in Ia. rewrite Ia in Ib. by injection Ib.
Qed.

(** X3.  Different page numbers from 1 on are fetched at different URLs:
    the URL of a page determines its number. *)
Theorem page_urls_differ cfg N M :
  1 <= N -> 1 <= M -> N <> M ->
  currentPageUrl cfg N <> currentPageUrl cfg M.
Proof.
  intros HN HM Hne H. apply Hne. unfold currentPageUrl in H.
  apply String.app_inj in H.
  destruct (1 <? N) eqn:EN; destruct (1 <? M) eqn:EM.
  - apply String.app_inj in H. apply (String.app_inj "pageNo=") in H.
    by apply showZ_inj.
  - destruct (searchUrlParams cfg); discriminate.
  - destruct (searchUrlParams cfg); discriminate.
  - apply Z.ltb_ge in EN, EM. lia.
Qed.

Lemma page_urls_differ_sample :
  currentPageUrl sampleConfig 2 <> currentPageUrl sampleConfig 3.
Proof. apply (page_urls_differ sampleConfig 2 3); lia. Defined.

(** ** Safe text *)

Lemma revString_revString a b s : revString a (revString b s) = revString (s +:+ a) b.
Proof.
  revert a b. induction s as [|c s IH]; intros a b; [reflexivity|].
  cbn [revString]. rewrite IH. reflexivity.
Qed.

Lemma revString_acc acc s : revString acc s = revString "" s +:+ acc.
Proof.
  revert acc. induction s as [|c s IH]; intros acc; [reflexivity|].
  cbn [revString]. rewrite (IH (String c acc)), (IH (String c "")).
  generalize (revString "" s). intros r. induction r as [|d r IHr]; [reflexivity|].
  change (String d (r +:+ String c acc) = String d ((r +:+ String c "") +:+ acc)).
  by rewrite IHr.
Qed.

Lemma revString_app acc a b : revString acc (a +:+ b) = revString (revString acc a) b.
Proof.
  revert acc. induction a as [|c a IH]; intros acc; [reflexivity|].
  change (revString (String c acc) (a +:+ b) = revString (revString (String c acc) a) b).
  apply IH.
Qed.

Lemma dropSpaces_start s : startsWithSpace (dropSpaces s) = false.
Proof.
  induction s as [|c s IH]; [reflexivity|].
  cbn [dropSpaces]. destruct (isSpace c) eqn:Hc; [exact IH|]. cbn. exact Hc.
Qed.

(** What [dropSpaces] removes is a prefix. *)
Lemma dropSpaces_suffix s : exists pre, s = pre +:+ dropSpaces s.
Proof.
  induction s as [|c s [pre IH]]; [by exists ""|].
  cbn [dropSpaces]. destruct (isSpace c).
  - exists (String c pre). change (String c s = String c (pre +:+ dropSpaces s)).
    by rewrite <- IH.
  - by exists "".
Qed.

Lemma startsWithSpace_app s t :
  s <> "" -> startsWithSpace (s +:+ t) = startsWithSpace s.
Proof. destruct s; [congruence|reflexivity]. Qed.

Lemma revString_empty s : revString "" s = "" -> s = "".
Proof.
  destruct s as [|c s]; [reflexivity|]. cbn [revString]. rewrite revString_acc.
  destruct (revString "" s); discriminate.
Qed.

Lemma trim_no_outer_space s :
  startsWithSpace (trim s) = false /\ endsWithSpace (trim s) = false.
Proof.
  unfold trim, endsWithSpace. split.
  - set (t := dropSpaces s).
    destruct (dropSpaces_suffix (revString "" t)) as [pre Hpre].
    set (u := dropSpaces (revString "" t)) in *.
    destruct (String.eqb_spec u "") as [->|Hu]; [reflexivity|].
    assert (Ht : t = revString "" u +:+ revString "" pre).
    { assert (E : revString "" (revString "" t) = t)
        by (rewrite revString_revString; cbn [revString]; apply append_empty_r).
      rewrite <- E at 1. rewrite Hpre, revString_app. apply revString_acc. }
    rewrite <- (startsWithSpace_app _ (revString "" pre)).
    + rewrite <- Ht. apply dropSpaces_start.
    + intros H. by apply revString_empty in H.
  - rewrite revString_revString. cbn [revString]. rewrite append_empty_r.
    apply dropSpaces_start.
Qed.

Lemma dropSpaces_blank s : allChars isSpace s = true -> dropSpaces s = "".
Proof.
  induction s as [|c s IH]; [reflexivity|]. cbn [allChars dropSpaces].
  intros H. apply andb_true_iff in H as [-> Hs]. by apply IH.
Qed.

(** What [dropSpaces] removes is a prefix made of white space. *)
Lemma dropSpaces_split s :
  exists pre, allChars isSpace pre = true /\ s = pre +:+ dropSpaces s.
Proof.
  induction s as [|c s (pre & Hpre & IH)]; [by exists ""|].
  cbn [dropSpaces]. destruct (isSpace c) eqn:Hc.
  - exists (String c pre). split; [cbn [allChars]; by rewrite Hc, Hpre|].
    change (String c s = String c (pre +:+ dropSpaces s)). by rewrite <- IH.
  - by exists "".
Qed.

Lemma allChars_revString P acc s :
  allChars P (revString acc s) = allChars P s && allChars P acc.
Proof.
  revert acc. induction s as [|c s IH]; intros acc; [reflexivity|].
  cbn [revString allChars]. rewrite IH. cbn [allChars].
  destruct (P c), (allChars P s), (allChars P acc); reflexivity.
Qed.

(** [trim] removes white space at both ends and nothing else. *)
Lemma trim_split s :
  exists pre post,
    allChars isSpace pre = true /\ allChars isSpace post = true
    /\ s = pre +:+ trim s +:+ post.
Proof.
  destruct (dropSpaces_split s) as (pre & Hpre & Hs).
  destruct (dropSpaces_split (revString "" (dropSpaces s))) as (q & Hq & Hr).
  exists pre, (revString "" q). split; [exact Hpre|]. split.
  - rewrite allChars_revString, Hq. reflexivity.
  - unfold trim. rewrite Hs at 1. f_equal.
    assert (E : revString "" (revString "" (dropSpaces s)) = dropSpaces s)
      by (rewrite revString_revString; cbn [revString]; apply append_empty_r).
    rewrite <- E at 1. rewrite Hr at 1. rewrite revString_app. apply revString_acc.
Qed.

(** X4.  [safeGetText] gives the default when the element is missing, its
    text cannot be read or its text is empty.  For any other text it gives
    that text with white space removed at both ends and nothing else: the
    text is the result between two runs of white space, and the result
    neither starts nor ends with white space.  A text made of white space
    only therefore gives the empty string, not the default. *)
Theorem safeGetText_trimmed defaultValue :
  safeGetText None defaultValue = defaultValue
  /\ (forall e, e_text e = None \/ e_text e = Some "" ->
        safeGetText (Some e) defaultValue = defaultValue)
  /\ (forall e text, e_text e = Some text -> text <> "" ->
        (exists pre post,
           allChars isSpace pre = true /\ allChars isSpace post = true
           /\ text = pre +:+ safeGetText (Some e) defaultValue +:+ post)
        /\ startsWithSpace (safeGetText (Some e) defaultValue) = false
        /\ endsWithSpace (safeGetText (Some e) defaultValue) = false
        /\ (allChars isSpace text = true -> safeGetText (Some e) defaultValue = "")).
Proof.
  split; [reflexivity|]. split.
  - intros e [H|H]; unfold safeGetText; rewrite H; reflexivity.
  - intros e text Ht Hne. unfold safeGetText. rewrite Ht.
    unfold truthy. destruct (String.eqb_spec text ""); [contradiction|].
    cbn [negb]. split; [apply trim_split|].
    split; [apply trim_no_outer_space|]. split; [apply trim_no_outer_space|].
    intros Hblank. unfold trim. rewrite (dropSpaces_blank _ Hblank). reflexivity.
Qed.

(** ** Fallback chains *)

(** X5.  In the loops for company, experience, salary and description
    snippet the first candidate that yields a text different from the
    sentinel wins: candidates before it that are missing, unreadable, empty
    or equal to the sentinel are passed over, and the candidates after it
    are not consulted. *)
Theorem textLoop_first_match find before sel after sentinel e :
  (forall s, s ∈ before -> safeGetText (find s) sentinel = sentinel) ->
  find sel = Some e ->
  safeGetText (Some e) sentinel <> sentinel ->
  textLoop find (before ++ sel :: after) sentinel sentinel
  = safeGetText (Some e) sentinel.
Proof.
  intros Hbefore Hsel Hne. induction before as [|b before IH].
  - cbn [app textLoop]. rewrite Hsel.
    destruct (String.eqb_spec (safeGetText (Some e) sentinel) sentinel);
      [contradiction|reflexivity].
  - cbn [app textLoop].
    pose proof (Hbefore b (list_elem_of_here _ _)) as Hb.
    destruct (find b) as [eb|].
    + rewrite Hb, String.eqb_refl. apply IH. intros s Hs. apply Hbefore. by right.
    + apply IH. intros s Hs. apply Hbefore. by right.
Qed.

Lemma textLoop_first_match_sample :
  textLoop (fun sel => if String.eqb sel "a.companyName"
                       then Some (sampleElement " Acme Analytics " "") else None)
    companySelectors "Not available" "Not available"
  = "Acme Analytics".
Proof.
  apply (textLoop_first_match _ ["a.comp-name"] "a.companyName" _ "Not available"
           (sampleElement " Acme Analytics " "")).
  - intros s Hs. apply list_elem_of_singleton in Hs. subst s. reflexivity.
  - reflexivity.
  - vm_compute. discriminate.
Defined.

(** X6.  The skills found on the detail page replace the skills of the
    card only when the detail page lists strictly more skills than the
    card; when no detail selector does, the card's skills are kept. *)
Theorem detail_skills_only_if_more waitAll skillsList skills :
  (detailSkills waitAll detailSkillsSelectors skillsList skills = skills
   \/ exists sel skillElements,
        sel ∈ detailSkillsSelectors
        /\ waitAll sel = Some skillElements
        /\ (length skillsList < length (textsOf skillElements))%nat
        /\ detailSkills waitAll detailSkillsSelectors skillsList skills
           = String.concat ", " (textsOf skillElements))
  /\ ((forall sel skillElements,
         sel ∈ detailSkillsSelectors -> waitAll sel = Some skillElements ->
         (length (textsOf skillElements) <= length skillsList)%nat) ->
      detailSkills waitAll detailSkillsSelectors skillsList skills = skills).
Proof.
  induction detailSkillsSelectors as [|sel rest [IH1 IH2]];
    [split; [by left|reflexivity]|].
  cbn [detailSkills].
  assert (Hrest : detailSkills waitAll rest skillsList skills = skills
    \/ exists s els, s ∈ sel :: rest /\ waitAll s = Some els
         /\ (length skillsList < length (textsOf els))%nat
         /\ detailSkills waitAll rest skillsList skills
            = String.concat ", " (textsOf els)).
  { destruct IH1 as [IH1|(s & els & Hin & Hw & Hlt & Heq)]; [by left|].
    right. exists s, els. repeat split; auto. by right. }
  assert (Hkeep : (forall s els, s ∈ sel :: rest -> waitAll s = Some els ->
                     (length (textsOf els) <= length skillsList)%nat) ->
                  detailSkills waitAll rest skillsList skills = skills).
  { intros Hall. apply IH2. intros s els Hin. apply Hall. by right. }
  destruct (waitAll sel) as [els|] eqn:Hw; [|split; assumption].
  destruct ((0 <? length els)%nat && (length skillsList <? length (textsOf els))%nat)
    eqn:Hc; [|split; assumption].
  apply andb_true_iff in Hc as [_ Hlt]. apply Nat.ltb_lt in Hlt. split.
  - right. exists sel, els. repeat split; auto. left.
  - intros Hall. specialize (Hall sel els (list_elem_of_here _ _) Hw). lia.
Qed.

(** ** The detail tab *)

Lemma events_acceptJob cfg jobData st : events (acceptJob cfg jobData st) = events st.
Proof. unfold acceptJob. repeat case_match; reflexivity. Qed.

(** The error of a failed switch back is one the card loop breaks on. *)
Lemma switch_error_breaks cfg i st :
  cardCatch cfg i (mkError "Failed to switch back to main window") st = (st, CardBreak).
Proof. reflexivity. Qed.

(** X7.  The commands about tabs sent while a card is processed.  A card
    that does not get as far as the detail tab sends none.  A card that does
    sends [window.open] once and the switch back to the result window once,
    as the last of them, whatever happens in between; the close is sent
    between the two exactly when the handle of the new tab is still set when
    the [finally] block runs: after a detail visit that opened, and after a
    rejection met when the handle was already found (the rejected switch into
    the tab) unless it is an error other than a timeout error whose message
    contains "no such window".  It is not sent when no new handle was
    found. *)
Theorem detail_tab_always_left cfg i card st :
  exists evs,
    events (processCard cfg i card st).1 = events st ++ evs
    /\ ((forall jobUrl, ~ reachesDetails card st jobUrl) -> tabCommands evs = [])
    /\ (forall jobUrl, reachesDetails card st jobUrl ->
          exists close,
            tabCommands evs = [EvOpenTab jobUrl] ++ close ++ [EvSwitchBack]
            /\ match c_detail card with
               | DetailOpened _ => close = [EvCloseTab]
               | DetailNoHandle => close = []
               | DetailFails handleKnown detailError =>
                   close = if handleKnown
                              && (isTimeout detailError
                                  || negb (includes (message detailError)
                                             "no such window"))
                           then [EvCloseTab] else []
               end).
Proof.
  unfold reachesDetails, processCard.
  destruct (c_scroll card) as [e|].
  { unfold cardCatch.
    repeat case_match; cbn [fst events addEvents]; rewrite <- ?app_assoc;
      (eexists; split; [reflexivity|]);
      (split; [reflexivity|intros u ([=] & _)]). }
  destruct (titleLoop (c_find card) titleSelectors "Not available" None)
    as [jobTitle [jobUrl|]]; cbn [snd].
  2:{ cbn [fst events addEvents]. eexists. split; [reflexivity|].
      split; [reflexivity|intros u (_ & [=] & _)]. }
  destruct (truthy jobUrl) eqn:Hurl; cbn [negb].
  2:{ cbn [fst events addEvents]. eexists. split; [reflexivity|].
      split; [reflexivity|intros u (_ & [= <-] & ? & _); congruence]. }
  destruct (bool_decide _) eqn:Hseen.
  { apply bool_decide_eq_true in Hseen. cbn [fst events addEvents].
    eexists. split; [reflexivity|].
    split; [reflexivity|intros u (_ & [= <-] & _ & ? & _); contradiction]. }
  apply bool_decide_eq_false in Hseen. cbn [scrapedUrls addEvents] in Hseen.
  destruct (c_windowHandle card) as [e|].
  { unfold cardCatch.
    repeat case_match; cbn [fst events addEvents]; rewrite <- ?app_assoc;
      (eexists; split; [reflexivity|]);
      (split; [reflexivity|intros u (_ & _ & _ & _ & [=])]). }
  rewrite switch_error_breaks.
  match goal with |- context [scrapeDetails cfg i card jobUrl ?d ?s ?l] =>
    set (dt := scrapeDetails cfg i card jobUrl d s l) end.
  assert (Hdt : exists shot,
            dt_events dt = EvOpenTab jobUrl :: shot /\ tabCommands shot = []
            /\ match c_detail card with
               | DetailOpened _ => dt_handle dt = true
               | DetailNoHandle => dt_handle dt = false
               | DetailFails handleKnown detailError =>
                   dt_handle dt
                   = handleKnown
                     && (isTimeout detailError
                         || negb (includes (message detailError) "no such window"))
               end).
  { subst dt. unfold scrapeDetails. destruct (c_detail card) as [known e| |d];
      cbn [dt_events dt_handle]; eexists; (split; [reflexivity|]);
      (split; [reflexivity|]); try reflexivity.
    destruct known, (isTimeout e), (includes (message e) "no such window"); reflexivity. }
  destruct Hdt as (shot & Hev & Hshot & Hhandle).
  exists ([EvScript "scrollIntoView"] ++ dt_events dt
            ++ (if dt_handle dt then [EvCloseTab] else []) ++ [EvSwitchBack]).
  split.
  { destruct (c_switchBack card); cbn [negb fst]; rewrite ?events_acceptJob;
      cbn [events addEvents]; rewrite <- ?app_assoc; reflexivity. }
  split; [intros Hno; exfalso; apply (Hno jobUrl); repeat split; auto|].
  intros u (_ & [= <-] & _).
  exists (if dt_handle dt then [EvCloseTab] else []). split.
  - rewrite Hev. unfold tabCommands in *.
    cbn [app List.filter isOpenTab isCloseTab isSwitchBack orb].
    rewrite !List.filter_app, Hshot. destruct (dt_handle dt); reflexivity.
  - destruct (c_detail card); rewrite Hhandle; reflexivity.
Qed.

(** ** Stored records *)

Lemma truthy_orNotAvailable v : truthy (orNotAvailable v) = true.
Proof. unfold orNotAvailable. destruct (truthy v) eqn:H; [exact H|reflexivity]. Qed.

Lemma acceptJob_jobs cfg jobData st :
  jobsToSave (acceptJob cfg jobData st) = jobsToSave st
  \/ jobsToSave (acceptJob cfg jobData st) = jobsToSave st ++ [jobData].
Proof. unfold acceptJob. repeat case_match; auto. Qed.

Lemma cardCatch_jobs cfg i e st : jobsToSave (cardCatch cfg i e st).1 = jobsToSave st.
Proof. unfold cardCatch. repeat case_match; reflexivity. Qed.

Lemma processCard_jobs cfg i card st :
  jobsToSave (processCard cfg i card st).1 = jobsToSave st
  \/ exists jobData,
       jobsToSave (processCard cfg i card st).1 = jobsToSave st ++ [jobData]
       /\ wellFormed cfg jobData.
Proof.
  unfold processCard.
  destruct (c_scroll card); [left; by rewrite cardCatch_jobs|].
  destruct (titleLoop _ _ _ _) as [jobTitle [jobUrl|]]; [|by left].
  destruct (truthy jobUrl) eqn:Hurl; cbn [negb]; [|by left].
  destruct (bool_decide _); [by left|].
  destruct (c_windowHandle card); [left; by rewrite cardCatch_jobs|].
  destruct (c_switchBack card); cbn [negb fst]; [|left; by rewrite cardCatch_jobs].
  match goal with |- context [acceptJob cfg ?jd ?s] =>
    destruct (acceptJob_jobs cfg jd s) as [H|H]; rewrite H end; [by left|].
  right. eexists. split; [reflexivity|].
  unfold wellFormed.
  cbn [Job_URL Skills Job_Description Search_Query Search_Location Search_Experience].
  rewrite !truthy_orNotAvailable. repeat split. exact Hurl.
Qed.

Lemma step_jobs cfg w m :
  jobsToSave (vars (step cfg w m)) = jobsToSave (vars m)
  \/ exists jobData,
       jobsToSave (vars (step cfg w m)) = jobsToSave (vars m) ++ [jobData]
       /\ wellFormed cfg jobData.
Proof.
  unfold step. destruct (ctl m) as [|cards i|h]; [left| |by left].
  { pose proof (fetchPage_ledger cfg w (vars m)) as H.
    by apply ledger_fields in H as (-> & _). }
  destruct (cards !! i) as [card|]; [|by left].
  destruct (limitsReached cfg (vars m)); [by left|].
  destruct (processCard_jobs cfg i card (vars m)) as [H|H];
    destruct (processCard cfg i card (vars m)) as [st []]; cbn [fst vars nextPage jobsToSave] in *;
    auto.
Qed.

(** X8.  At every point of a run every record of the batch has a
    non-empty URL, non-empty skills and description (the sentinel when
    nothing was found), and carries the query, location and experience of
    the run. *)
Theorem batch_records_well_formed cfg w storedUrls loggedIn sent n :
  Forall (wellFormed cfg)
         (jobsToSave (vars (run cfg w n (initial storedUrls loggedIn sent)))).
Proof.
  induction n as [|n IH]; [apply Forall_nil_2|].
  rewrite run_step_last.
  destruct (step_jobs cfg w (run cfg w n (initial storedUrls loggedIn sent)))
    as [->|(jd & -> & Hwf)]; [exact IH|].
  apply Forall_app. split; [exact IH|]. by apply Forall_singleton.
Qed.

(** ** Failures around the detail tab *)

(** X9.  A posting whose detail tab cannot be opened is not lost: when the
    card got as far as the detail tab, the switch back succeeds and the
    Internal limit is not reached, the record is accepted as "Internal" with
    the card's URL; its description is the fixed notice after a timeout
    error and the card's snippet after any other error. *)
Theorem failed_detail_still_recorded cfg i card st jobUrl handleKnown detailError :
  reachesDetails card st jobUrl ->
  c_detail card = DetailFails handleKnown detailError ->
  c_switchBack card = true ->
  internalCount st < INTERNAL_JOBS_LIMIT cfg ->
  exists jobData,
    jobsToSave (processCard cfg i card st).1 = jobsToSave st ++ [jobData]
    /\ (processCard cfg i card st).2 = CardNext
    /\ internalCount (processCard cfg i card st).1 = internalCount st + 1
    /\ Job_URL jobData = jobUrl
    /\ Application_Type jobData = "Internal"
    /\ Job_Description jobData
       = (if isTimeout detailError
          then "Details page did not load correctly or structure changed."
          else orNotAvailable (cardDescription card)).
Proof.
  intros (Hscroll & Htitle & Hurl & Hfresh & Hwin) Hdetail Hback Hlimit.
  unfold processCard, cardDescription. rewrite Hscroll.
  destruct (titleLoop _ _ _ _) as [jobTitle u]. cbn [snd] in Htitle. subst u.
  rewrite Hurl. cbn [negb].
  rewrite bool_decide_eq_false_2; [|exact Hfresh].
  rewrite Hwin, Hback. cbn [negb fst snd].
  unfold scrapeDetails. rewrite Hdetail. cbn [dt_applicationType dt_description].
  unfold acceptJob. cbn [Application_Type internalCount addEvents].
  apply Z.ltb_lt in Hlimit. rewrite Hlimit. cbn [String.eqb andb].
  eexists. split; [reflexivity|]. cbn [jobsToSave internalCount Job_URL Application_Type
                                       Job_Description].
  repeat split. destruct (isTimeout detailError); reflexivity.
Qed.

Lemma failed_detail_still_recorded_sample :
  exists jobData,
    jobsToSave (processCard sampleConfig 0
                  (failingCard "https://www.naukri.com/job-7"
                     (DetailFails false timeoutError) true) (vars sampleStart)).1
    = [jobData]
    /\ Application_Type jobData = "Internal"
    /\ Job_Description jobData
       = "Details page did not load correctly or structure changed.".
Proof.
  destruct (failed_detail_still_recorded sampleConfig 0
              (failingCard "https://www.naukri.com/job-7"
                 (DetailFails false timeoutError) true)
              (vars sampleStart) "https://www.naukri.com/job-7" false timeoutError)
    as (jd & Hj & _ & _ & _ & Ht & Hd).
  - repeat split; try reflexivity. apply not_elem_of_empty.
  - reflexivity.
  - reflexivity.
  - cbn. lia.
  - exists jd. repeat split; assumption.
Defined.

(** X10.  When the switch back to the result window fails, the posting at
    hand is not recorded and the rest of the page is abandoned: the card
    loop is left and the page loop goes on with the next page. *)
Theorem switch_back_failure_abandons_page cfg w jobCards i card st jobUrl :
  reachesDetails card st jobUrl ->
  c_switchBack card = false ->
  jobCards !! i = Some card ->
  limitsReached cfg st = false ->
  (processCard cfg i card st).2 = CardBreak
  /\ ledger (processCard cfg i card st).1 = ledger st
  /\ ctl (step cfg w {| vars := st; ctl := CardLoop jobCards i |}) = LoopHead
  /\ page (vars (step cfg w {| vars := st; ctl := CardLoop jobCards i |})) = page st + 1
  /\ ledger (vars (step cfg w {| vars := st; ctl := CardLoop jobCards i |})) = ledger st.
Proof.
  intros (Hscroll & Htitle & Hurl & Hfresh & Hwin) Hback Hcard Hlim.
  assert (Hproc : exists st', processCard cfg i card st = (st', CardBreak)
                              /\ ledger st' = ledger st /\ page st' = page st).
  { unfold processCard. rewrite Hscroll.
    destruct (titleLoop _ _ _ _) as [jobTitle u]. cbn [snd] in Htitle. subst u.
    rewrite Hurl. cbn [negb]. rewrite bool_decide_eq_false_2; [|exact Hfresh].
    rewrite Hwin, Hback. cbn [negb]. unfold cardCatch.
    change (isStale (mkError "Failed to switch back to main window")) with false.
    change (includes (message (mkError "Failed to switch back to main window"))
              "Failed to switch back") with true.
    cbn iota. eexists. split; [reflexivity|]. split; reflexivity. }
  destruct Hproc as (st' & Hp & Hl & Hpg).
  unfold step. cbn [ctl vars]. rewrite Hcard, Hlim, Hp. cbn [fst snd ctl vars].
  repeat split; auto. cbn. by rewrite Hpg.
Qed.

Lemma switch_back_failure_abandons_page_sample :
  ctl (step sampleConfig sampleWorld
         {| vars := vars sampleStart;
            ctl := CardLoop [failingCard "https://www.naukri.com/job-7"
                               (DetailOpened sampleDetail) false;
                             sampleCard "https://www.naukri.com/job-8"] 0 |}) = LoopHead
  /\ jobsToSave (vars (step sampleConfig sampleWorld
         {| vars := vars sampleStart;
            ctl := CardLoop [failingCard "https://www.naukri.com/job-7"
                               (DetailOpened sampleDetail) false;
                             sampleCard "https://www.naukri.com/job-8"] 0 |})) = [].
Proof.
  destruct (switch_back_failure_abandons_page sampleConfig sampleWorld
              [failingCard "https://www.naukri.com/job-7" (DetailOpened sampleDetail) false;
               sampleCard "https://www.naukri.com/job-8"] 0
              (failingCard "https://www.naukri.com/job-7" (DetailOpened sampleDetail) false)
              (vars sampleStart) "https://www.naukri.com/job-7")
    as (_ & _ & Hctl & _ & Hl).
  - repeat split; try reflexivity. apply not_elem_of_empty.
  - reflexivity.
  - reflexivity.
  - reflexivity.
  - split; [exact Hctl|]. by apply ledger_fields in Hl as (-> & _).
Defined.

(** ** Page-level failures and empty pages *)

(** X11.  A page whose fetch fails with a timeout error, or with an error
    that names neither a lost session nor a CAPTCHA, does not end the run:
    a screenshot is taken and the page loop goes on with the next page, the
    batch untouched and the driver kept. *)
Theorem general_page_error_continues cfg w st pageError :
  page st <= MAX_PAGES_TO_SEARCH cfg ->
  limitsReached cfg st = false ->
  w_page w (page st) = GetFails pageError ->
  isTimeout pageError = true
  \/ (sessionLost (message pageError) = false
      /\ includes (message pageError) "CAPTCHA" = false) ->
  ctl (step cfg w {| vars := st; ctl := LoopHead |}) = LoopHead
  /\ page (vars (step cfg w {| vars := st; ctl := LoopHead |})) = page st + 1
  /\ ledger (vars (step cfg w {| vars := st; ctl := LoopHead |})) = ledger st
  /\ events (vars (step cfg w {| vars := st; ctl := LoopHead |}))
     = events st ++ [EvGet (currentPageUrl cfg (page st));
                     EvScreenshot ("page_" +:+ showZ (page st)
                                     +:+ "_general_error_screenshot.png")].
Proof.
  intros Hp Hl Hw Hkind. rewrite (fetch_fails _ _ _ _ Hp Hl Hw). unfold pageCatch.
  destruct Hkind as [Ht|[Hs Hc]].
  - rewrite Ht. cbn. repeat split. by rewrite <- app_assoc.
  - destruct (isTimeout pageError); rewrite ?Hs, ?Hc; cbn; repeat split;
      by rewrite <- app_assoc.
Qed.

Lemma general_page_error_continues_sample :
  ctl (step sampleConfig (crashWorld timeoutError true) sampleStart) = LoopHead
  /\ page (vars (step sampleConfig (crashWorld timeoutError true) sampleStart)) = 2.
Proof.
  destruct (general_page_error_continues sampleConfig (crashWorld timeoutError true)
              (vars sampleStart) timeoutError) as (Hc & Hp & _).
  - cbn. lia.
  - reflexivity.
  - reflexivity.
  - left. reflexivity.
  - split; [exact Hc|exact Hp].
Defined.

(** X12.  After the first page, a loaded result page that shows no cards
    always ends the page loop, whatever else the page contains. *)
Theorem later_page_without_cards_ends_run cfg w st p :
  1 < page st ->
  page st <= MAX_PAGES_TO_SEARCH cfg ->
  limitsReached cfg st = false ->
  w_page w (page st) = Loaded p ->
  showsCards p = false ->
  ctl (step cfg w {| vars := st; ctl := LoopHead |}) = Halted Finished
  /\ ledger (vars (step cfg w {| vars := st; ctl := LoopHead |})) = ledger st.
Proof.
  intros Hlater Hp Hl Hw Hshow.
  destruct captcha_error_classified as (Ht & Hs & Hcap).
  unfold step, fetchPage. cbn [ctl vars].
  apply Z.leb_le in Hp. rewrite Hp, Hl. cbn [negb addEvents page]. rewrite Hw.
  apply Z.ltb_lt in Hlater. unfold showsCards, noElements in Hshow.
  destruct (existsb (p_container p) jobListContainerSelectors
            || existsb (p_directCard p) directCardSelectors).
  - cbn [negb andb] in Hshow. unfold enterCards.
    destruct (findJobCards (p_cards p) jobCardSelectors); [|discriminate].
    cbn [page addEvents]. rewrite Hlater. split; reflexivity.
  - unfold pageCatch. rewrite Ht, Hs, Hcap. cbn [page addEvents]. rewrite Hlater.
    repeat case_match; split; reflexivity.
Qed.

Lemma later_page_without_cards_ends_run_sample :
  ctl (step sampleConfig captchaWorld
         {| vars := nextPage (vars sampleStart); ctl := LoopHead |}) = Halted Finished.
Proof.
  destruct (later_page_without_cards_ends_run sampleConfig captchaWorld
              (nextPage (vars sampleStart)) captchaPage) as [H _].
  - cbn. lia.
  - cbn. lia.
  - reflexivity.
  - reflexivity.
  - reflexivity.
  - exact H.
Defined.

(** X13.  A first page on which the scanner finds nothing (no container,
    no card, no CAPTCHA marker, no no-results message) does not end the run:
    no card is processed and the page loop goes on with page 2. *)
Theorem empty_first_page_continues cfg w st p :
  page st = 1 ->
  1 <= MAX_PAGES_TO_SEARCH cfg ->
  limitsReached cfg st = false ->
  w_page w 1 = Loaded p ->
  noElements p = true ->
  includes (toLowerCase (default "" (p_pageSource p))) "captcha" = false ->
  includes (default "" (p_pageSource p)) "No matching jobs found" = false ->
  includes (default "" (p_pageSource p)) "no jobs found" = false ->
  noResultsFound (p_noResults p) noResultsSelectors = false ->
  ctl (run cfg w 2 {| vars := st; ctl := LoopHead |}) = LoopHead
  /\ page (vars (run cfg w 2 {| vars := st; ctl := LoopHead |})) = 2
  /\ ledger (vars (run cfg w 2 {| vars := st; ctl := LoopHead |})) = ledger st
  /\ events (vars (run cfg w 2 {| vars := st; ctl := LoopHead |}))
     = events st ++ [EvGet (currentPageUrl cfg 1);
                     EvScreenshot "page_1_no_elements_found.png"].
Proof.
  intros Hpage Hmax Hl Hw Hno Hc Hn1 Hn2 Hnr.
  assert (Hstep : step cfg w {| vars := st; ctl := LoopHead |}
    = {| vars := addEvents [EvScreenshot "page_1_no_elements_found.png"]
                   (addEvents [EvGet (currentPageUrl cfg 1)] st);
         ctl := CardLoop [] 0 |}).
  { unfold step, fetchPage. cbn [ctl vars]. rewrite Hpage.
    replace (1 <=? MAX_PAGES_TO_SEARCH cfg) with true by (symmetry; by apply Z.leb_le).
    rewrite Hl. cbn [negb addEvents page]. rewrite Hpage, Hw.
    unfold noElements in Hno. apply negb_true_iff in Hno. rewrite Hno, Hc, Hn1, Hn2.
    cbn [orb Z.ltb Z.compare]. unfold enterCards. cbn [page addEvents].
    rewrite Hpage, Hnr. reflexivity. }
  cbn [run]. rewrite Hstep. unfold step. cbn [ctl vars lookup].
  cbn. rewrite Hpage. repeat split. by rewrite <- app_assoc.
Qed.

Lemma empty_first_page_continues_sample :
  ctl (run sampleConfig
         {| w_page := fun _ => Loaded
              {| p_container := fun _ => false; p_directCard := fun _ => false;
                 p_pageSource := Some "<html></html>"; p_cards := fun _ => [];
                 p_noResults := fun _ => None |};
            w_build := fun _ _ => true; w_login := fun _ => sampleLogin |}
         2 sampleStart) = LoopHead.
Proof.
  refine (proj1 (empty_first_page_continues sampleConfig _ (vars sampleStart) _
                   _ _ _ _ _ _ _ _ _)); try reflexivity.
  cbn. lia.
Defined.

(** ** What a run never undoes *)

Lemma fetchPage_grows cfg w st :
  (page st <= page (vars (fetchPage cfg w st)) <= page st + 1)
  /\ events st `prefix_of` events (vars (fetchPage cfg w st)).
Proof.
  unfold fetchPage, pageCatch, enterCards.
  repeat case_match;
    cbn [vars page events nextPage setLoggedIn addEvents]; rewrite <- ?app_assoc;
    (split; [lia|first [reflexivity | by apply prefix_app_r]]).
Qed.

Lemma processCard_grows cfg i card st :
  page (processCard cfg i card st).1 = page st
  /\ events st `prefix_of` events (processCard cfg i card st).1.
Proof.
  destruct (noFetch_processCard cfg i card st) as [Hp (evs & -> & _)].
  split; [lia|by apply prefix_app_r].
Qed.

Lemma step_grows cfg w m :
  (page (vars m) <= page (vars (step cfg w m)) <= page (vars m) + 1)
  /\ events (vars m) `prefix_of` events (vars (step cfg w m))
  /\ jobsToSave (vars m) `prefix_of` jobsToSave (vars (step cfg w m))
  /\ scrapedUrls (vars m) ⊆ scrapedUrls (vars (step cfg w m)).
Proof.
  assert (Hledger : jobsToSave (vars m) `prefix_of` jobsToSave (vars (step cfg w m))
                    /\ scrapedUrls (vars m) ⊆ scrapedUrls (vars (step cfg w m))).
  { destruct (step_ledger cfg w m) as [H|H].
    - apply ledger_fields in H as (-> & _ & _ & _ & ->). done.
    - apply Accepts_fields in H as (jd & _ & -> & -> & _).
      split; [by apply prefix_app_r|]. intros u Hu. apply elem_of_union. by right. }
  destruct Hledger as [Hj Hs].
  assert (Hpe : (page (vars m) <= page (vars (step cfg w m)) <= page (vars m) + 1)
                /\ events (vars m) `prefix_of` events (vars (step cfg w m))).
  { unfold step. destruct (ctl m) as [|cards i|h].
    - apply fetchPage_grows.
    - destruct (cards !! i) as [card|]; [|cbn; split; [lia|done]].
      destruct (limitsReached cfg (vars m)); [cbn; split; [lia|done]|].
      destruct (processCard_grows cfg i card (vars m)) as [Hp He].
      destruct (processCard cfg i card (vars m)) as [st []]; cbn [fst vars] in *;
        cbn [nextPage page events]; split; auto; lia.
    - split; [lia|done]. }
  destruct Hpe as [Hp He]. auto.
Qed.

(** X14.  Nothing is taken back during a run: from one point of the run
    to any later one the page number does not decrease, the commands sent so
    far and the records accepted so far stay as they are at the front of the
    log and of the batch, and every known URL stays known. *)
Theorem run_only_grows cfg w m n k :
  page (vars (run cfg w n m)) <= page (vars (run cfg w (n + k) m))
  /\ events (vars (run cfg w n m)) `prefix_of` events (vars (run cfg w (n + k) m))
  /\ jobsToSave (vars (run cfg w n m)) `prefix_of` jobsToSave (vars (run cfg w (n + k) m))
  /\ scrapedUrls (vars (run cfg w n m)) ⊆ scrapedUrls (vars (run cfg w (n + k) m)).
Proof.
  induction k as [|k (IHp & IHe & IHj & IHs)].
  - rewrite Nat.add_0_r. repeat split; done.
  - replace (n + S k)%nat with (S (n + k)) by lia. rewrite run_step_last.
    destruct (step_grows cfg w (run cfg w (n + k) m)) as (Hp & He & Hj & Hs).
    repeat split.
    + lia.
    + by etrans.
    + by etrans.
    + by etrans.
Qed.

(** The page number stays within the cap while cards are processed. *)
Lemma page_bounds_step cfg w m :
  (1 <= page (vars m)
   /\ page (vars m) <= Z.max 1 (MAX_PAGES_TO_SEARCH cfg + 1)
   /\ (forall cards i, ctl m = CardLoop cards i ->
         page (vars m) <= MAX_PAGES_TO_SEARCH cfg)) ->
  1 <= page (vars (step cfg w m))
  /\ page (vars (step cfg w m)) <= Z.max 1 (MAX_PAGES_TO_SEARCH cfg + 1)
  /\ (forall cards i, ctl (step cfg w m) = CardLoop cards i ->
        page (vars (step cfg w m)) <= MAX_PAGES_TO_SEARCH cfg).
Proof.
  intros (H1 & H2 & H3). unfold step. destruct (ctl m) as [|cards i|h] eqn:Hctl.
  - unfold fetchPage.
    destruct (page (vars m) <=? MAX_PAGES_TO_SEARCH cfg) eqn:Hle; cbn [negb].
    + apply Z.leb_le in Hle. unfold pageCatch, enterCards.
      repeat case_match;
        cbn [vars ctl page nextPage setLoggedIn addEvents];
        (split; [lia|split; [lia|intros ? ? ?; try discriminate; lia]]).
    + cbn [vars ctl]. split; [lia|split; [lia|discriminate]].
  - specialize (H3 cards i eq_refl).
    destruct (cards !! i) as [card|];
      [|cbn; split; [lia|split; [lia|discriminate]]].
    destruct (limitsReached cfg (vars m));
      [cbn; split; [lia|split; [lia|discriminate]]|].
    destruct (processCard_grows cfg i card (vars m)) as [Hp _].
    destruct (processCard cfg i card (vars m)) as [st []]; cbn [fst vars ctl] in *;
      cbn [nextPage page]; (split; [lia|split; [lia|intros ? ? ?; try discriminate; lia]]).
  - rewrite Hctl. split; [lia|split; [lia|exact H3]].
Qed.

(** X15.  At every point of a run the page number lies between 1 and one
    past the page cap (1 when the cap is below 1), and it is within the cap
    whenever cards are being processed: no page beyond the cap is ever
    scanned. *)
Theorem page_number_within_cap cfg w storedUrls loggedIn sent n :
  1 <= page (vars (run cfg w n (initial storedUrls loggedIn sent)))
  /\ page (vars (run cfg w n (initial storedUrls loggedIn sent)))
     <= Z.max 1 (MAX_PAGES_TO_SEARCH cfg + 1)
  /\ (forall cards i,
        ctl (run cfg w n (initial storedUrls loggedIn sent)) = CardLoop cards i ->
        page (vars (run cfg w n (initial storedUrls loggedIn sent)))
        <= MAX_PAGES_TO_SEARCH cfg).
Proof.
  induction n as [|n IH].
  - cbn. split; [lia|split; [lia|discriminate]].
  - rewrite run_step_last. by apply page_bounds_step.
Qed.

(** X16.  With non-negative limits the new-jobs counter, which is what the
    run reports as its result, and the length of the batch never exceed the
    sum of the two limits. *)
Theorem total_within_limits cfg w storedUrls loggedIn sent n :
  0 <= INTERNAL_JOBS_LIMIT cfg ->
  0 <= EXTERNAL_JOBS_LIMIT cfg ->
  newJobsCount (vars (run cfg w n (initial storedUrls loggedIn sent)))
    <= INTERNAL_JOBS_LIMIT cfg + EXTERNAL_JOBS_LIMIT cfg
  /\ Z.of_nat (length (jobsToSave (vars (run cfg w n (initial storedUrls loggedIn sent)))))
    <= INTERNAL_JOBS_LIMIT cfg + EXTERNAL_JOBS_LIMIT cfg.
Proof.
  intros Hi He.
  assert (H : let st := vars (run cfg w n (initial storedUrls loggedIn sent)) in
              internalCount st <= INTERNAL_JOBS_LIMIT cfg
              /\ externalCount st <= EXTERNAL_JOBS_LIMIT cfg
              /\ newJobsCount st = internalCount st + externalCount st
              /\ Z.of_nat (length (jobsToSave st)) = internalCount st + externalCount st).
  { apply (run_ledger_ind cfg w (fun st =>
      internalCount st <= INTERNAL_JOBS_LIMIT cfg
      /\ externalCount st <= EXTERNAL_JOBS_LIMIT cfg
      /\ newJobsCount st = internalCount st + externalCount st
      /\ Z.of_nat (length (jobsToSave st)) = internalCount st + externalCount st)).
    - intros a b Hab Ha. apply ledger_fields in Hab as (-> & -> & -> & -> & _). exact Ha.
    - intros a b Hacc (Ha1 & Ha2 & Ha3 & Ha4).
      apply Accepts_fields in Hacc as (jd & _ & -> & _ & -> & Hcase).
      rewrite length_app. cbn [length].
      destruct Hcase as [(_ & Hlt & -> & ->)|(_ & Hlt & -> & ->)]; lia.
    - cbn. lia. }
  cbn zeta in H. lia.
Qed.

Lemma total_within_limits_sample :
  newJobsCount (vars (run sampleConfig sampleWorld 10 sampleStart)) <= 15 + 5.
Proof.
  refine (proj1 (total_within_limits sampleConfig sampleWorld ∅ false [] 10 _ _));
    cbn; lia.
Defined.

(** ** Driver initialisation *)

(** X17.  [initializeDriver] makes at most three attempts, numbered from 1,
    stops at the first that succeeds, and fails exactly when the first three
    attempts all fail. *)
Theorem initializeDriver_attempts build :
  (initializeDriver build).1 = build 0%nat || build 1%nat || build 2%nat
  /\ (exists k, (1 <= k <= 3)%nat
                /\ (initializeDriver build).2
                   = List.map (fun a => EvBuildDriver (Z.of_nat a)) (seq 1 k)
                /\ (forall j, (j < k - 1)%nat -> build j = false)
                /\ ((initializeDriver build).1 = true -> build (k - 1)%nat = true)).
Proof.
  unfold initializeDriver, MAX_RETRIES. cbn [buildLoop].
  destruct (build 0%nat) eqn:H0; [|destruct (build 1%nat) eqn:H1;
                                    [|destruct (build 2%nat) eqn:H2]];
    (split; [reflexivity|]).
  - exists 1%nat. split; [lia|]. split; [reflexivity|].
    split; [intros j Hj; lia|intros _; exact H0].
  - exists 2%nat. split; [lia|]. split; [reflexivity|].
    split; [|intros _; exact H1].
    intros j Hj. by replace j with 0%nat by lia.
  - exists 3%nat. split; [lia|]. split; [reflexivity|].
    split; [|intros _; exact H2].
    intros j Hj. destruct j as [|[|j]]; [assumption|assumption|lia].
  - exists 3%nat. split; [lia|]. split; [reflexivity|].
    split; [|discriminate].
    intros j Hj. destruct j as [|[|j]]; [assumption|assumption|lia].
Qed.

(** ** Login *)

Lemma clickHomeLogin_no_get find sels : List.filter isGet (clickHomeLogin find sels) = [].
Proof.
  induction sels as [|sel rest IH]; [reflexivity|]. cbn [clickHomeLogin].
  repeat case_match; cbn [List.filter isGet]; auto.
Qed.

Lemma submitLogin_no_get email password o form field :
  List.filter isGet (submitLogin email password o form field).2 = [].
Proof.
  unfold submitLogin.
  destruct (negb (e_actOk field)); [reflexivity|].
  destruct (locateField form passwordSelectors None).1; [|reflexivity].
  destruct (negb (e_actOk _)); [reflexivity|].
  destruct (locateLoginButton form loginButtonSelectors) as [[sel btn]|]; [|reflexivity].
  assert (Hc : List.filter isGet (clickLogin o sel btn).2 = [])
    by (unfold clickLogin; repeat case_match; reflexivity).
  destruct (clickLogin o sel btn) as [clicked evs]. cbn [snd] in Hc.
  repeat case_match; cbn [snd]; rewrite !List.filter_app, Hc; reflexivity.
Qed.

Lemma submitLogin_success email password o form field :
  (submitLogin email password o form field).1 = true ->
  lo_loggedIn o = true
  /\ includes (toLowerCase (default "" (lo_pageSource o))) "captcha" = false
  /\ includes (toLowerCase (default "" (lo_pageSource o))) "verify mobile" = false
  /\ includes (toLowerCase (default "" (lo_pageSource o))) "enter otp" = false.
Proof.
  unfold submitLogin.
  destruct (negb (e_actOk field)); [discriminate|].
  destruct (locateField form passwordSelectors None).1; [|discriminate].
  destruct (negb (e_actOk _)); [discriminate|].
  destruct (locateLoginButton form loginButtonSelectors) as [[sel btn]|]; [|discriminate].
  destruct (clickLogin o sel btn) as [clicked evs].
  destruct (negb clicked); [discriminate|].
  destruct (includes _ "captcha"); [discriminate|].
  destruct (includes _ "verify mobile"); [discriminate|].
  destruct (includes _ "enter otp"); [discriminate|].
  cbn [orb]. destruct (lo_loggedIn o); [auto|discriminate].
Qed.

(** X18.  The login reports success only when both credentials are
    non-empty, the page after submission shows no CAPTCHA and no OTP or
    mobile-verification marker, and the login check confirms the session. *)
Theorem login_success_requires email password o :
  (loginToNaukri email password o).1 = true ->
  truthy email = true /\ truthy password = true
  /\ lo_loggedIn o = true
  /\ includes (toLowerCase (default "" (lo_pageSource o))) "captcha" = false
  /\ includes (toLowerCase (default "" (lo_pageSource o))) "verify mobile" = false
  /\ includes (toLowerCase (default "" (lo_pageSource o))) "enter otp" = false.
Proof.
  unfold loginToNaukri.
  destruct (truthy email); cbn [negb orb]; [|discriminate].
  destruct (truthy password); cbn [negb]; [|discriminate].
  intros H. split; [reflexivity|]. split; [reflexivity|]. revert H.
  destruct (lo_get1 o); [discriminate|].
  destruct (lo_currentUrl o); [|discriminate].
  destruct (locateField (lo_firstPage o) emailSelectors None) as [emailField [|]].
  - destruct emailField as [field|]; [|discriminate].
    pose proof (submitLogin_success email password o (lo_firstPage o) field) as Hs.
    destruct (submitLogin email password o (lo_firstPage o) field) as [ok evs].
    exact Hs.
  - destruct (lo_get2 o); [discriminate|].
    destruct (locateField (lo_secondPage o) emailSelectors emailField)
      as [[field|] [|]]; try discriminate.
    pose proof (submitLogin_success email password o (lo_secondPage o) field) as Hs.
    destruct (submitLogin email password o (lo_secondPage o) field) as [ok evs].
    exact Hs.
Qed.

Lemma login_success_requires_sample :
  (loginToNaukri "user@example.com" "secret" goodLogin).1 = true
  /\ lo_loggedIn goodLogin = true.
Proof.
  assert (H : (loginToNaukri "user@example.com" "secret" goodLogin).1 = true)
    by (vm_compute; reflexivity).
  split; [exact H|].
  by destruct (login_success_requires _ _ _ H) as (_ & _ & Hl & _).
Defined.

(** X19.  A login attempt navigates at most twice: first to the login
    page, and to the older login page only after that; nothing else it sends
    is a navigation. *)
Theorem login_navigates_at_most_twice email password o :
  List.filter isGet (loginToNaukri email password o).2
  `prefix_of` [EvGet "https://www.naukri.com/nlogin/login";
               EvGet "https://login.naukri.com/nLogin/Login.php"].
Proof.
  assert (H0 : [] `prefix_of` [EvGet "https://www.naukri.com/nlogin/login";
                               EvGet "https://login.naukri.com/nLogin/Login.php"])
    by apply prefix_nil.
  assert (H1 : [EvGet "https://www.naukri.com/nlogin/login"]
               `prefix_of` [EvGet "https://www.naukri.com/nlogin/login";
                            EvGet "https://login.naukri.com/nLogin/Login.php"])
    by (by exists [EvGet "https://login.naukri.com/nLogin/Login.php"]).
  unfold loginToNaukri.
  destruct (negb (truthy email) || negb (truthy password)); [exact H0|].
  destruct (lo_get1 o); [exact H1|].
  destruct (lo_currentUrl o) as [currentUrl|]; [|exact H1].
  set (home := if includes currentUrl "login" then []
               else clickHomeLogin (lo_firstPage o) homeLoginButtonSelectors).
  assert (Hhome : List.filter isGet home = []).
  { subst home. destruct (includes currentUrl "login");
      [reflexivity|apply clickHomeLogin_no_get]. }
  destruct (locateField (lo_firstPage o) emailSelectors None) as [emailField [|]].
  - destruct emailField as [field|].
    + pose proof (submitLogin_no_get email password o (lo_firstPage o) field) as Hs.
      destruct (submitLogin email password o (lo_firstPage o) field) as [ok evs].
      cbn [snd] in *. rewrite !List.filter_app, Hhome, Hs. exact H1.
    + cbn [snd]. rewrite !List.filter_app, Hhome. exact H1.
  - destruct (lo_get2 o).
    + cbn [snd]. rewrite !List.filter_app, Hhome. reflexivity.
    + destruct (locateField (lo_secondPage o) emailSelectors emailField)
        as [[field|] [|]];
        try (cbn [snd]; rewrite !List.filter_app, Hhome; reflexivity).
      pose proof (submitLogin_no_get email password o (lo_secondPage o) field) as Hs.
      destruct (submitLogin email password o (lo_secondPage o) field) as [ok evs].
      cbn [snd] in *. rewrite !List.filter_app, Hhome, Hs. reflexivity.
Qed.

(** ** How the page loop ends *)

Lemma step_fatal cfg w m e :
  ctl (step cfg w m) = Halted (Fatal e) ->
  ctl m = Halted (Fatal e)
  \/ exists N, (initializeDriver (w_build w N)).1 = false.
Proof.
  unfold step. destruct (ctl m) as [|cards i|h] eqn:Hctl.
  - unfold fetchPage, pageCatch, enterCards.
    repeat case_match; cbn [ctl]; try discriminate;
      intros _; right;
      match goal with H : initializeDriver (w_build w ?N) = (false, _) |- _ =>
        exists N; by rewrite H end.
  - repeat case_match; cbn [ctl]; discriminate.
  - rewrite Hctl. by left.
Qed.

(** X20.  The page loop always ends after finitely many steps, whatever
    the browser answers, and stays as it ended; it ends by its own
    conditions or a break unless a driver could not be rebuilt after a lost
    session, which is the only way it is cut short by an error. *)
Theorem page_loop_ends cfg w storedUrls loggedIn sent :
  exists n h,
    (forall k, (n <= k)%nat ->
       run cfg w k (initial storedUrls loggedIn sent)
       = run cfg w n (initial storedUrls loggedIn sent)
       /\ ctl (run cfg w k (initial storedUrls loggedIn sent)) = Halted h)
    /\ (h = Finished \/ exists N, (initializeDriver (w_build w N)).1 = false).
Proof.
  destruct (run_halts cfg w storedUrls loggedIn sent) as (n & h & Hn).
  exists n, h. split; [exact Hn|].
  destruct h as [|e]; [by left|right].
  destruct (Hn n (le_n _)) as [_ Hctl]. clear Hn.
  induction n as [|n IH]; [discriminate|].
  rewrite run_step_last in Hctl.
  apply step_fatal in Hctl as [Hctl|Hex]; auto.
Qed.

(** ** Login check *)

Lemma indicatorShown_spec wait locators :
  indicatorShown wait locators = true
  <-> exists locator element,
        locator ∈ locators /\ wait locator = Some element
        /\ e_displayed element = Some true.
Proof.
  induction locators as [|loc rest IH]; cbn [indicatorShown].
  - split; [discriminate|]. intros (l & e & Hin & _). by apply elem_of_nil in Hin.
  - destruct (wait loc) as [el|] eqn:Hw.
    + unfold displayedTrue. destruct (e_displayed el) as [[]|] eqn:Hd.
      * split; [|reflexivity]. intros _. exists loc, el. repeat split; auto. left.
      * rewrite IH. split.
        -- intros (l & e & Hin & H). exists l, e. split; [by right|exact H].
        -- intros (l & e & Hin & Hl & He). apply elem_of_cons in Hin as [->|Hin];
             [congruence|]. by exists l, e.
      * rewrite IH. split.
        -- intros (l & e & Hin & H). exists l, e. split; [by right|exact H].
        -- intros (l & e & Hin & Hl & He). apply elem_of_cons in Hin as [->|Hin];
             [congruence|]. by exists l, e.
    + rewrite IH. split.
      * intros (l & e & Hin & H). exists l, e. split; [by right|exact H].
      * intros (l & e & Hin & Hl & He). apply elem_of_cons in Hin as [->|Hin];
          [congruence|]. by exists l, e.
Qed.

(** X21.  The login check fails closed: it answers true exactly when the
    current URL lies in the members' area or one of the logged-in indicators
    is located and displayed; a displayed logged-in indicator wins over a
    displayed login button; and when no indicator of either kind is displayed
    it answers false and takes a screenshot. *)
Theorem login_check_fails_closed o :
  ((checkIfLoggedIn o).1 = true
   <-> (exists currentUrl,
          ck_currentUrl o = Some currentUrl
          /\ (includes currentUrl "mynaukri" = true
              \/ includes currentUrl "/v1/user/dashboard" = true))
       \/ (exists locator element,
             locator ∈ loggedInIndicators /\ ck_wait o locator = Some element
             /\ e_displayed element = Some true))
  /\ ((checkIfLoggedIn o).1 = false ->
      (forall locator element,
         locator ∈ loggedOutIndicators -> ck_wait o locator = Some element ->
         e_displayed element <> Some true) ->
      (checkIfLoggedIn o).2 = [EvScreenshot "login_check_state.png"]).
Proof.
  unfold checkIfLoggedIn.
  pose proof (indicatorShown_spec (ck_wait o) loggedInIndicators) as Hin.
  pose proof (indicatorShown_spec (ck_wait o) loggedOutIndicators) as Hout.
  destruct (ck_currentUrl o) as [url|].
  - destruct (includes url "mynaukri") eqn:H1; cbn [orb].
    { split; [|discriminate]. split; [|reflexivity]. intros _. left. exists url. auto. }
    destruct (includes url "/v1/user/dashboard") eqn:H2.
    { split; [|discriminate]. split; [|reflexivity]. intros _. left. exists url. auto. }
    destruct (indicatorShown (ck_wait o) loggedInIndicators).
    { split; [|discriminate]. split; [|reflexivity]. intros _. right. by apply Hin. }
    assert (Hno : ~ ((exists currentUrl, Some url = Some currentUrl
                        /\ (includes currentUrl "mynaukri" = true
                            \/ includes currentUrl "/v1/user/dashboard" = true))
                     \/ (exists locator element,
                           locator ∈ loggedInIndicators /\ ck_wait o locator = Some element
                           /\ e_displayed element = Some true))).
    { intros [(u & Hu & [H|H])|H]; [congruence|congruence|].
      apply Hin in H. discriminate. }
    destruct (indicatorShown (ck_wait o) loggedOutIndicators).
    + split; [split; [discriminate|intros H; by destruct Hno]|].
      intros _ Hall. destruct (proj1 Hout eq_refl) as (l & e & Hl & Hw & Hd).
      by destruct (Hall l e Hl Hw).
    + split; [split; [discriminate|intros H; by destruct Hno]|reflexivity].
  - destruct (indicatorShown (ck_wait o) loggedInIndicators).
    { split; [|discriminate]. split; [|reflexivity]. intros _. right. by apply Hin. }
    assert (Hno : ~ ((exists currentUrl, @None string = Some currentUrl
                        /\ (includes currentUrl "mynaukri" = true
                            \/ includes currentUrl "/v1/user/dashboard" = true))
                     \/ (exists locator element,
                           locator ∈ loggedInIndicators /\ ck_wait o locator = Some element
                           /\ e_displayed element = Some true))).
    { intros [(u & Hu & _)|H]; [discriminate|]. apply Hin in H. discriminate. }
    destruct (indicatorShown (ck_wait o) loggedOutIndicators).
    + split; [split; [discriminate|intros H; by destruct Hno]|].
      intros _ Hall. destruct (proj1 Hout eq_refl) as (l & e & Hl & Hw & Hd).
      by destruct (Hall l e Hl Hw).
    + split; [split; [discriminate|intros H; by destruct Hno]|reflexivity].
Qed.

(** ** Session restoration *)

(** X22.  A restoration without a session file does nothing and reports
    false.  With a file, it reports true only after the navigation, the
    clearing of the cookie jar, the two passes of cookies and two refreshes;
    every failure on the way (unreadable file, rejected navigation, clearing
    or refresh) makes it report false and remove the session file as its last
    effect. *)
Theorem restore_session_outcomes o :
  (ro_fileExists o = false -> tryRestoreCookies o = (false, []))
  /\ (ro_fileExists o = true ->
      ((tryRestoreCookies o).1 = true
       /\ exists cookiesData,
            ro_cookies o = Some cookiesData
            /\ (tryRestoreCookies o).2
               = [FxDriver (EvGet "https://www.naukri.com"); FxDeleteAllCookies]
                 ++ addCookies cookiesData ++ [FxRefresh; FxRefresh])
      \/ ((tryRestoreCookies o).1 = false
          /\ exists before, (tryRestoreCookies o).2 = before ++ [FxUnlinkCookies])).
Proof.
  unfold tryRestoreCookies. split; intros ->; cbn [negb]; [reflexivity|].
  destruct (ro_cookies o) as [cs|]; [|right; split; [reflexivity|by exists []]].
  destruct (ro_getOk o); cbn [negb];
    [|right; split; [reflexivity|by exists [FxDriver (EvGet "https://www.naukri.com")]]].
  destruct (ro_deleteOk o); cbn [negb];
    [|right; split; [reflexivity|
       by exists [FxDriver (EvGet "https://www.naukri.com"); FxDeleteAllCookies]]].
  destruct (ro_refresh1Ok o); cbn [negb].
  - destruct (ro_refresh2Ok o); cbn [negb].
    + left. split; [reflexivity|]. exists cs. split; [reflexivity|].
      cbn [fst snd]. by rewrite <- app_assoc.
    + right. split; [reflexivity|]. cbn [snd].
      exists (([FxDriver (EvGet "https://www.naukri.com"); FxDeleteAllCookies]
                ++ addCookies cs) ++ [FxRefresh; FxRefresh]).
      by rewrite <- !app_assoc.
  - right. split; [reflexivity|]. cbn [snd].
    exists (([FxDriver (EvGet "https://www.naukri.com"); FxDeleteAllCookies]
              ++ addCookies cs) ++ [FxRefresh]).
    by rewrite <- !app_assoc.
Qed.

Lemma filter_partition_perm {A} (P Q : A -> bool) (l : list A) :
  List.filter Q (List.filter P l) ++ List.filter Q (List.filter (fun x => negb (P x)) l)
  ≡ₚ List.filter Q l.
Proof.
  induction l as [|x l IH]; [reflexivity|]. cbn [List.filter].
  destruct (P x); cbn [negb List.filter]; destruct (Q x); cbn [app];
    first [exact IH | by apply perm_skip
          | rewrite <- Permutation_middle; by apply perm_skip].
Qed.

Lemma filter_Forall {A} (P : A -> bool) (l : list A) :
  Forall (fun x => P x = true) (List.filter P l).
Proof.
  induction l as [|x l IH]; [constructor|]. cbn [List.filter].
  destruct (P x) eqn:H; [by constructor|exact IH].
Qed.

Lemma filter_filter_Forall {A} (P Q : A -> bool) (l : list A) :
  Forall (fun x => P x = true) (List.filter Q (List.filter P l)).
Proof.
  induction l as [|x l IH]; [constructor|]. cbn [List.filter].
  destruct (P x) eqn:H; [|exact IH]. cbn [List.filter].
  destruct (Q x); [by constructor|exact IH].
Qed.

(** X23.  The cookies of the session file are sent in two passes, those
    of the site's domain first; together the passes send every cookie that
    has a name and a value exactly once, and no cookie without a name or a
    value. *)
Theorem cookies_sent_once cookiesData :
  exists firstPass secondPass,
    addCookies cookiesData
    = List.map addDomainCookie firstPass ++ List.map addOtherCookie secondPass
    /\ firstPass ++ secondPass ≡ₚ List.filter usableCookie cookiesData
    /\ Forall (fun c => isDomainCookie c = true) firstPass
    /\ Forall (fun c => isDomainCookie c = false) secondPass
    /\ Forall (fun c => truthy (cookieName c) = true /\ truthy (cookieValue c) = true)
              (firstPass ++ secondPass).
Proof.
  exists (List.filter usableCookie (List.filter isDomainCookie cookiesData)),
         (List.filter usableCookie
            (List.filter (fun c => negb (isDomainCookie c)) cookiesData)).
  split; [reflexivity|]. split; [apply filter_partition_perm|].
  split; [apply filter_filter_Forall|]. split.
  - eapply Forall_impl; [apply (filter_filter_Forall (fun c => negb (isDomainCookie c)))|].
    intros c Hc. cbn in Hc. by apply negb_true_iff.
  - apply Forall_app. split;
      (eapply Forall_impl; [apply filter_Forall|]);
      intros c Hc; by apply andb_true_iff in Hc.
Qed.

Lemma prefix_dot d : String.prefix "." ("." +:+ d) = true.
Proof. destruct d; reflexivity. Qed.

(** X24.  A cookie of the first pass whose domain names the site
    ("naukri.com") is sent with the bare domain "naukri.com" or with a domain
    that starts with a dot; a domain that already starts with a dot is sent
    unchanged. *)
Theorem cookie_domain_normalised c :
  (includes (cookieDomain c) "naukri.com" = true ->
   sentDomain c = "naukri.com" \/ String.prefix "." (sentDomain c) = true)
  /\ (String.prefix "." (cookieDomain c) = true -> sentDomain c = cookieDomain c).
Proof.
  unfold sentDomain. split.
  - intros Hinc. destruct (truthy (cookieDomain c)) eqn:Ht.
    + destruct (String.prefix "." (cookieDomain c)) eqn:Hp; cbn [negb andb]; [by right|].
      rewrite Hinc. cbn [andb].
      destruct (String.eqb_spec (cookieDomain c) "naukri.com") as [->|Hne];
        cbn [negb]; [by left|right; apply prefix_dot].
    + unfold truthy in Ht. apply negb_false_iff, String.eqb_eq in Ht.
      rewrite Ht in Hinc. discriminate.
  - intros Hp. assert (Ht : truthy (cookieDomain c) = true).
    { destruct (cookieDomain c); [discriminate|reflexivity]. }
    rewrite Ht, Hp. reflexivity.
Qed.

(** ** Session phase *)

Lemma filter_isWrite_driver evs : List.filter isWrite (List.map FxDriver evs) = [].
Proof. induction evs as [|e evs IH]; [reflexivity|exact IH]. Qed.

Lemma restore_effects o : forallb restoreEffect (tryRestoreCookies o).2 = true.
Proof.
  assert (Hadd : forall cs, forallb restoreEffect (addCookies cs) = true).
  { intros cs. unfold addCookies. rewrite forallb_app.
    apply andb_true_iff. split.
    - induction (List.filter usableCookie (List.filter isDomainCookie cs)); auto.
    - induction (List.filter usableCookie
                   (List.filter (fun c => negb (isDomainCookie c)) cs)); auto. }
  unfold tryRestoreCookies.
  repeat case_match; cbn [snd]; rewrite ?forallb_app, ?Hadd; reflexivity.
Qed.

Lemma checkIfLoggedIn_events o :
  (checkIfLoggedIn o).2 = [] \/ (checkIfLoggedIn o).2 = [EvScreenshot "login_check_state.png"].
Proof. unfold checkIfLoggedIn. repeat case_match; auto. Qed.

(** X25.  The session phase rewrites the session file only after a login
    with credentials that succeeded, never after a restoration alone; it
    reports a logged-in session only when the restored session passed the
    check or that login succeeded; and with an empty email or password it
    sends nothing to the login pages: its effects are the first navigation,
    those of the restoration and of the check, and the clearing of cookies. *)
Theorem session_phase_outcomes cfg o isLoggedIn fx :
  sessionPhase cfg o = Done isLoggedIn fx ->
  (FxWriteCookies ∈ fx ->
     isLoggedIn = true
     /\ truthy (EMAIL cfg) = true /\ truthy (PASSWORD cfg) = true
     /\ (loginToNaukri (EMAIL cfg) (PASSWORD cfg) (se_login o)).1 = true)
  /\ (isLoggedIn = true ->
      ((tryRestoreCookies (se_restore o)).1 = true
       /\ (checkIfLoggedIn (se_check o)).1 = true)
      \/ (loginToNaukri (EMAIL cfg) (PASSWORD cfg) (se_login o)).1 = true)
  /\ (truthy (EMAIL cfg) = false \/ truthy (PASSWORD cfg) = false ->
      forall e, e ∈ fx ->
        e = FxDriver (EvGet "https://www.naukri.com/")
        \/ restoreEffect e = true
        \/ e = FxDriver (EvScreenshot "login_check_state.png")).
Proof.
  unfold sessionPhase. destruct (negb (se_homeOk o)); [discriminate|].
  pose proof (restore_effects (se_restore o)) as Hre.
  destruct (tryRestoreCookies (se_restore o)) as [restored fx1]. cbn [fst snd] in *.
  assert (Hck : exists checked evs,
            (if restored then checkIfLoggedIn (se_check o) else (false, [])) = (checked, evs)
            /\ (evs = [] \/ evs = [EvScreenshot "login_check_state.png"])
            /\ (checked = true ->
                restored = true /\ (checkIfLoggedIn (se_check o)).1 = true)).
  { destruct restored.
    - pose proof (checkIfLoggedIn_events (se_check o)) as He.
      destruct (checkIfLoggedIn (se_check o)) as [c evs]. exists c, evs. auto.
    - exists false, []. split; [reflexivity|]. split; [by left|discriminate]. }
  destruct Hck as (checked & evs & -> & Hevs & Hchecked).
  destruct (restored && negb checked && negb (se_clearOk o)); [discriminate|].
  remember (([FxDriver (EvGet "https://www.naukri.com/")] ++ fx1 ++ List.map FxDriver evs)
            ++ (if restored && negb checked then [FxDeleteAllCookies] else []))
    as fx3 eqn:Efx3.
  assert (Hfx3 : forall e, e ∈ fx3 ->
            e = FxDriver (EvGet "https://www.naukri.com/")
            \/ restoreEffect e = true
            \/ e = FxDriver (EvScreenshot "login_check_state.png")).
  { intros e He. rewrite Efx3 in He. clear Efx3.
    apply elem_of_app in He as [He|He].
    - apply elem_of_app in He as [He|He];
        [apply list_elem_of_singleton in He; by left|].
      apply elem_of_app in He as [He|He].
      + right. left. rewrite forallb_forall in Hre. apply Hre. by apply list_elem_of_In.
      + right. right. destruct Hevs as [-> | ->]; cbn in He.
        * by apply elem_of_nil in He.
        * by apply list_elem_of_singleton in He.
    - right. left. destruct (restored && negb checked);
        [apply list_elem_of_singleton in He; by subst|by apply elem_of_nil in He]. }
  clear Efx3.
  destruct (truthy (EMAIL cfg)) eqn:Hem, (truthy (PASSWORD cfg)) eqn:Hpw,
    checked eqn:Hc; cbn [negb andb];
    try (intros [= <- <-]; split; [|split];
         [ intros Hw; apply Hfx3 in Hw as [Hw|[Hw|Hw]]; discriminate
         | first [ intros _; left; by apply Hchecked | discriminate ]
         | first [ intros _; exact Hfx3 | intros [?|?]; discriminate ] ]).
  destruct (loginToNaukri (EMAIL cfg) (PASSWORD cfg) (se_login o)) as [ok sent].
  intros [= <- <-]. cbn [fst]. split; [|split].
  - intros Hw. apply elem_of_app in Hw as [Hw|Hw].
    { apply Hfx3 in Hw as [Hw|[Hw|Hw]]; discriminate. }
    apply elem_of_app in Hw as [Hw|Hw].
    { apply list_elem_of_fmap in Hw as (ev & Hev & _). discriminate. }
    destruct ok; [auto|by apply elem_of_nil in Hw].
  - intros ->. by right.
  - intros [?|?]; discriminate.
Qed.

Lemma session_phase_outcomes_sample :
  exists fx,
    sessionPhase loginConfig sampleSession = Done true fx
    /\ (loginToNaukri (EMAIL loginConfig) (PASSWORD loginConfig)
          (se_login sampleSession)).1 = true.
Proof.
  assert (Hr : exists fx, sessionPhase loginConfig sampleSession = Done true fx
                          /\ In FxWriteCookies fx).
  { vm_compute. eexists. split; [reflexivity|].
    repeat (first [left; reflexivity | right]). }
  destruct Hr as (fx & Hfx & Hin).
  exists fx. split; [exact Hfx|].
  apply (proj1 (session_phase_outcomes loginConfig sampleSession true fx Hfx)).
  by apply list_elem_of_In.
Defined.

(** ** The whole run *)

Lemma forallb_restore_no_write l :
  forallb restoreEffect l = true -> List.filter isWrite l = [].
Proof.
  induction l as [|e l IH]; [reflexivity|]. cbn [forallb List.filter].
  intros H. apply andb_true_iff in H as [He Hl].
  destruct e as [[]| | | | | | | |]; try discriminate; cbn [isWrite]; auto.
Qed.

Lemma sessionPhase_no_write cfg o :
  match sessionPhase cfg o with
  | Done _ fx | Thrown fx => List.filter isWrite fx = []
  end.
Proof.
  unfold sessionPhase. destruct (negb (se_homeOk o)); [reflexivity|].
  pose proof (forallb_restore_no_write _ (restore_effects (se_restore o))) as Hre.
  destruct (tryRestoreCookies (se_restore o)) as [restored fx1]. cbn [snd] in Hre.
  destruct (if restored then checkIfLoggedIn (se_check o) else (false, []))
    as [checked evs].
  destruct (loginToNaukri (EMAIL cfg) (PASSWORD cfg) (se_login o)) as [ok sent].
  repeat case_match; simplify_eq; cbn [app List.filter isWrite];
    rewrite ?List.filter_app, ?Hre, ?filter_isWrite_driver; reflexivity.
Qed.

(** The batch along a run started with an empty batch. *)
Lemma run_batch_invariant cfg w storedUrls loggedIn sent n :
  NoDup (Job_URL <$> jobsToSave (vars (run cfg w n (initial storedUrls loggedIn sent))))
  /\ (forall u,
        u ∈ (Job_URL <$> jobsToSave (vars (run cfg w n (initial storedUrls loggedIn sent)))) ->
        u ∉ storedUrls)
  /\ newJobsCount (vars (run cfg w n (initial storedUrls loggedIn sent)))
     = Z.of_nat (length (jobsToSave (vars (run cfg w n (initial storedUrls loggedIn sent))))).
Proof.
  set (P := fun st : RunState =>
    NoDup (Job_URL <$> jobsToSave st)
    /\ (forall u, u ∈ (Job_URL <$> jobsToSave st) -> u ∈ scrapedUrls st /\ u ∉ storedUrls)
    /\ storedUrls ⊆ scrapedUrls st
    /\ newJobsCount st = Z.of_nat (length (jobsToSave st))).
  assert (HP : P (vars (run cfg w n (initial storedUrls loggedIn sent)))).
  { apply run_ledger_ind.
    - intros a b Hab Ha. apply ledger_fields in Hab as (Hj & _ & _ & Hn & Hs).
      unfold P. rewrite Hj, Hs, Hn. exact Ha.
    - intros a b Hacc (Hnd & Hin & Hsub & Hcount).
      apply Accepts_fields in Hacc as (jd & Hfresh & Hj & Hs & Hn & _).
      unfold P. rewrite Hj, Hs, Hn, fmap_app, length_app. cbn [fmap list_fmap length].
      split; [|split; [|split]].
      + apply NoDup_app. split; [exact Hnd|]. split; [|apply NoDup_singleton].
        intros u Hu Hu'. apply list_elem_of_singleton in Hu'. subst u.
        apply Hin in Hu. tauto.
      + intros u Hu. apply elem_of_app in Hu as [Hu|Hu].
        * destruct (Hin u Hu) as [Hk Hn']. split; [|exact Hn'].
          apply elem_of_union. by right.
        * apply list_elem_of_singleton in Hu. subst u. split.
          -- apply elem_of_union. left. by apply elem_of_singleton.
          -- intros Hc. apply Hfresh, Hsub, Hc.
      + intros u Hu. apply elem_of_union. right. apply Hsub, Hu.
      + lia.
    - unfold P, initial; cbn. split; [apply NoDup_nil_2|]. split; [|done].
      intros u Hu. by apply elem_of_nil in Hu. }
  destruct HP as (H1 & H2 & _ & H4). repeat split; auto. intros u Hu. by apply H2.
Qed.

Lemma run_wellFormed cfg w n m :
  Forall (wellFormed cfg) (jobsToSave (vars m)) ->
  Forall (wellFormed cfg) (jobsToSave (vars (run cfg w n m))).
Proof.
  intros H0. induction n as [|n IH]; [exact H0|]. rewrite run_step_last.
  destruct (step_jobs cfg w (run cfg w n m)) as [->|(jd & -> & Hwf)]; [exact IH|].
  apply Forall_app. split; [exact IH|]. by apply Forall_singleton.
Qed.

(** X26.  Whenever a run returns, the number it returns is the number of
    records of the batch the page loop has collected, whose URLs are
    pairwise distinct and none of which was a "Job URL" of a stored document.
    With an empty batch nothing is written.  With a non-empty batch the
    writes are decided by how the page loop ended: when it ended by itself,
    the bulk write and then the backup file, both of exactly this batch;
    when an error cut it short, the backup file first, followed by the bulk
    write when the store is still connected and by nothing otherwise. *)
Theorem run_outcome_persistence cfg env fuel out :
  scrapeNaukriJobs cfg env fuel = Some out ->
  exists jobs,
    returned out = Z.of_nat (length jobs)
    /\ NoDup (Job_URL <$> jobs)
    /\ (forall docs u,
          db_docs (env_store env) = Some docs -> u ∈ (Job_URL <$> jobs) -> u ∉ docs)
    /\ (jobs = [] -> List.filter isWrite (effects out) = [])
    /\ (jobs <> [] ->
        exists docs loggedIn fx,
          db_docs (env_store env) = Some docs
          /\ sessionPhase cfg (env_session env) = Done loggedIn fx
          /\ jobs = jobsToSave (vars (run cfg (env_world env) fuel
                                        (initial (loadExistingUrls docs) loggedIn [])))
          /\ ((ctl (run cfg (env_world env) fuel
                      (initial (loadExistingUrls docs) loggedIn [])) = Halted Finished
               /\ List.filter isWrite (effects out)
                  = [FxBulkWrite jobs; FxWriteFile (OUTPUT_FILE cfg) jobs])
              \/ ((exists e, ctl (run cfg (env_world env) fuel
                                    (initial (loadExistingUrls docs) loggedIn []))
                             = Halted (Fatal e))
                  /\ List.filter isWrite (effects out)
                     = FxWriteFile (OUTPUT_FILE cfg) jobs
                       :: (if db_connectedInCatch (env_store env)
                           then [FxBulkWrite jobs] else [])))).
Proof.
  assert (Hempty : forall fx, List.filter isWrite fx = [] ->
            exists jobs : list JobData,
              0 = Z.of_nat (length jobs) /\ NoDup (Job_URL <$> jobs)
              /\ (forall docs u, db_docs (env_store env) = Some docs ->
                    u ∈ (Job_URL <$> jobs) -> u ∉ docs)
              /\ (jobs = [] -> List.filter isWrite fx = [])
              /\ (jobs <> [] ->
                  exists docs loggedIn fx',
                    db_docs (env_store env) = Some docs
                    /\ sessionPhase cfg (env_session env) = Done loggedIn fx'
                    /\ jobs = jobsToSave (vars (run cfg (env_world env) fuel
                                   (initial (loadExistingUrls docs) loggedIn [])))
                    /\ ((ctl (run cfg (env_world env) fuel
                                (initial (loadExistingUrls docs) loggedIn []))
                         = Halted Finished
                         /\ List.filter isWrite fx
                            = [FxBulkWrite jobs; FxWriteFile (OUTPUT_FILE cfg) jobs])
                        \/ ((exists e, ctl (run cfg (env_world env) fuel
                                   (initial (loadExistingUrls docs) loggedIn []))
                                       = Halted (Fatal e))
                            /\ List.filter isWrite fx
                               = FxWriteFile (OUTPUT_FILE cfg) jobs
                                 :: (if db_connectedInCatch (env_store env)
                                     then [FxBulkWrite jobs] else []))))).
  { intros fx Hfx. exists []. split; [reflexivity|]. split; [apply NoDup_nil_2|].
    split; [intros docs u _ Hu; by apply elem_of_nil in Hu|]. split; [auto|congruence]. }
  unfold scrapeNaukriJobs.
  destruct (negb (db_clientOk (env_store env)));
    [intros [= <-]; by apply Hempty|].
  destruct (negb (db_connectOk (env_store env)));
    [intros [= <-]; by apply Hempty|].
  destruct (db_docs (env_store env)) as [docs|] eqn:Hdocs;
    [|intros [= <-]; by apply Hempty].
  destruct (initializeDriver (env_build env)) as [[] built].
  2:{ intros [= <-]. apply Hempty. cbn [effects].
      by rewrite List.filter_app, filter_isWrite_driver. }
  pose proof (sessionPhase_no_write cfg (env_session env)) as Hsess.
  destruct (sessionPhase cfg (env_session env)) as [loggedIn fx|fx].
  2:{ intros [= <-]. apply Hempty. cbn [effects].
      by rewrite !List.filter_app, filter_isWrite_driver, Hsess. }
  clear Hempty.
  destruct (run_batch_invariant cfg (env_world env) (loadExistingUrls docs) loggedIn [] fuel)
    as (Hnd & Hseed & Hcount).
  pose proof (run_wellFormed cfg (env_world env) fuel
                (initial (loadExistingUrls docs) loggedIn []) (Forall_nil_2 _)) as Hwf.
  set (m := run cfg (env_world env) fuel (initial (loadExistingUrls docs) loggedIn [])) in *.
  assert (Hdocs' : forall docs' u, Some docs = Some docs' ->
            u ∈ (Job_URL <$> jobsToSave (vars m)) -> u ∉ docs').
  { intros docs' u [= <-] Hu Hin. apply (Hseed u Hu).
    unfold loadExistingUrls. apply elem_of_list_to_set, list_elem_of_In, filter_In.
    split; [by apply list_elem_of_In|].
    apply list_elem_of_fmap in Hu as (jd & -> & Hjd).
    rewrite Forall_forall in Hwf. by destruct (Hwf jd Hjd) as [Hurl _]. }
  destruct (ctl m) as [| |[|e]] eqn:Hctl; try discriminate; intros [= <-];
    exists (jobsToSave (vars m)); cbn [returned effects];
    (split; [exact Hcount|]); (split; [exact Hnd|]); (split; [exact Hdocs'|]);
    rewrite !List.filter_app, !filter_isWrite_driver, Hsess; cbn [app].
  - split.
    + intros ->. reflexivity.
    + intros Hne. exists docs, loggedIn, fx. fold m.
      split; [reflexivity|]. split; [reflexivity|]. split; [reflexivity|].
      left. split; [exact Hctl|].
      destruct (jobsToSave (vars m)) as [|j js]; [congruence|reflexivity].
  - split.
    + intros ->. reflexivity.
    + intros Hne. exists docs, loggedIn, fx. fold m.
      split; [reflexivity|]. split; [reflexivity|]. split; [reflexivity|].
      right. split; [by exists e|].
      destruct (jobsToSave (vars m)) as [|j js]; [congruence|].
      cbn [savePartial]. destruct (db_connectedInCatch (env_store env)); reflexivity.
Qed.

Lemma run_outcome_persistence_sample :
  exists (out : Outcome) (jobs : list JobData),
    scrapeNaukriJobs sampleConfig sampleEnv 10 = Some out
    /\ returned out = Z.of_nat (length jobs)
    /\ returned out = 1
    /\ List.filter isWrite (effects out)
       = [FxBulkWrite jobs; FxWriteFile (OUTPUT_FILE sampleConfig) jobs].
Proof.
  destruct (scrapeNaukriJobs sampleConfig sampleEnv 10) as [out|] eqn:Hout;
    [|vm_compute in Hout; discriminate].
  destruct (run_outcome_persistence sampleConfig sampleEnv 10 out Hout)
    as (jobs & Hret & _ & _ & _ & Hwrites).
  assert (Hone : returned out = 1)
    by (vm_compute in Hout; injection Hout as <-; reflexivity).
  exists out, jobs. split; [reflexivity|]. split; [exact Hret|]. split; [exact Hone|].
  destruct Hwrites as (docs & loggedIn & fx & Hdocs & Hsess & _ & [[_ Hw]|[[e He] _]]).
  - intros ->. rewrite Hone in Hret. discriminate.
  - exact Hw.
  - injection Hdocs as <-. vm_compute in Hsess. injection Hsess as <- _.
    vm_compute in He. discriminate.
Defined.

(** X27.  Every run returns: whatever the store, the session and the
    browser answer, enough steps of the page loop give an outcome, the same
    for any larger number of steps; and when the client, the connection, the
    scan of the stored URLs, the first driver or the session phase fails, the
    run returns 0 and writes nothing. *)
Theorem run_always_returns cfg env :
  exists fuel out,
    (forall fuel', (fuel <= fuel')%nat -> scrapeNaukriJobs cfg env fuel' = Some out)
    /\ (db_clientOk (env_store env) = false
        \/ db_connectOk (env_store env) = false
        \/ db_docs (env_store env) = None
        \/ (initializeDriver (env_build env)).1 = false
        \/ (exists fx, sessionPhase cfg (env_session env) = Thrown fx) ->
        returned out = 0 /\ List.filter isWrite (effects out) = []).
Proof.
  unfold scrapeNaukriJobs.
  destruct (db_clientOk (env_store env)); cbn [negb];
    [|exists 0%nat; eexists; split; [reflexivity|split; reflexivity]].
  destruct (db_connectOk (env_store env)); cbn [negb];
    [|exists 0%nat; eexists; split; [reflexivity|split; reflexivity]].
  destruct (db_docs (env_store env)) as [docs|];
    [|exists 0%nat; eexists; split; [reflexivity|split; reflexivity]].
  destruct (initializeDriver (env_build env)) as [[] built].
  2:{ exists 0%nat. eexists. split; [reflexivity|]. intros _. split; [reflexivity|].
      cbn [effects]. by rewrite List.filter_app, filter_isWrite_driver. }
  pose proof (sessionPhase_no_write cfg (env_session env)) as Hsess.
  destruct (sessionPhase cfg (env_session env)) as [loggedIn fx|fx].
  2:{ exists 0%nat. eexists. split; [reflexivity|]. intros _. split; [reflexivity|].
      cbn [effects]. by rewrite !List.filter_app, filter_isWrite_driver, Hsess. }
  destruct (run_halts cfg (env_world env) (loadExistingUrls docs) loggedIn [])
    as (n & h & Hn).
  destruct (Hn n (le_n _)) as [_ Hctl].
  set (mn := run cfg (env_world env) n (initial (loadExistingUrls docs) loggedIn [])) in *.
  exists n.
  destruct h as [|e].
  - exists {| returned := newJobsCount (vars mn);
              effects := (List.map FxDriver built ++ fx
                            ++ List.map FxDriver (events (vars mn)))
                         ++ saveResults cfg (jobsToSave (vars mn))
                         ++ [FxDriver EvQuit; FxCloseStore] |}.
    split; [|intros [H|[H|[H|[H|[fx' H]]]]]; discriminate].
    intros fuel' Hf. destruct (Hn fuel' Hf) as [-> _]. fold mn. by rewrite Hctl.
  - exists {| returned := newJobsCount (vars mn);
              effects := (List.map FxDriver built ++ fx
                            ++ List.map FxDriver (events (vars mn)))
                         ++ savePartial cfg (db_connectedInCatch (env_store env))
                              (jobsToSave (vars mn))
                         ++ [FxCloseStore] |}.
    split; [|intros [H|[H|[H|[H|[fx' H]]]]]; discriminate].
    intros fuel' Hf. destruct (Hn fuel' Hf) as [-> _]. fold mn. by rewrite Hctl.
Qed.

(** ** Command line *)

Lemma substring_all s : String.substring 0 (String.length s) s = s.
Proof. induction s as [|c s IH]; [reflexivity|]. cbn. by rewrite IH. Qed.

Lemma flag_name name :
  String.prefix "--" ("--" +:+ name) = true
  /\ String.substring 2 (String.length ("--" +:+ name) - 2) ("--" +:+ name) = name.
Proof.
  split; [destruct name; reflexivity|].
  change (String.length ("--" +:+ name)) with (S (S (String.length name))).
  replace (S (S (String.length name)) - 2)%nat with (String.length name) by lia.
  change (String.substring 0 (String.length name) name = name). apply substring_all.
Qed.

(** Lists of even length, two elements at a time. *)
Lemma even_list_ind {A} (P : list A -> Prop) :
  P [] -> (forall a b l, P l -> P (a :: b :: l)) ->
  forall l, Nat.Even (length l) -> P l.
Proof.
  intros H0 H2 l. remember (length l) as n eqn:Hn. revert l Hn.
  induction n as [n IH] using lt_wf_ind. intros l Hn [k Hk].
  destruct l as [|a [|b l]].
  - exact H0.
  - cbn in Hn. lia.
  - apply H2. apply (IH (length l)); [cbn in Hn; lia|reflexivity|].
    exists (k - 1)%nat. cbn in Hn. lia.
Qed.

(** Lists two elements at a time. *)
Lemma pair_list_ind {A} (P : list A -> Prop) :
  P [] -> (forall a, P [a]) -> (forall a b l, P l -> P (a :: b :: l)) ->
  forall l, P l.
Proof.
  intros H0 H1 H2 l. remember (length l) as n eqn:Hn. revert l Hn.
  induction n as [n IH] using lt_wf_ind. intros l Hn.
  destruct l as [|a [|b l]]; [exact H0|apply H1|].
  apply H2. apply (IH (length l)); [cbn in Hn; lia|reflexivity].
Qed.

Lemma setProperty_lookup name value params :
  name <> "__proto__" -> setProperty name value params !! name = Some value.
Proof.
  intros Hname. unfold setProperty.
  destruct (String.eqb_spec name "__proto__"); [contradiction|apply lookup_insert_eq].
Qed.

Lemma setProperty_proto name value params :
  params !! "__proto__" = None -> setProperty name value params !! "__proto__" = None.
Proof.
  intros Hp. unfold setProperty.
  destruct (String.eqb_spec name "__proto__") as [->|Hname]; [exact Hp|].
  rewrite lookup_insert_ne; [exact Hp|exact Hname].
Qed.

Lemma parseArgs_last_flag (args : list string) params name value :
  Nat.Even (length args) ->
  name <> "__proto__" ->
  parseArgs (args ++ ["--" +:+ name; value]) params !! name = Some value.
Proof.
  intros Heven Hname. revert params. pattern args.
  apply even_list_ind; [| |exact Heven]; clear args Heven.
  - intros params. cbn [app parseArgs].
    destruct (flag_name name) as [-> ->]. by apply setProperty_lookup.
  - intros a b l IH params. cbn [app parseArgs]. apply IH.
Qed.

(** X28.  Arguments are read in pairs from the first on.  After an even
    number of arguments, a flag followed by a value sets the parameter to
    that value, replacing any earlier one, unless the name is "__proto__",
    which sets nothing: no run of the loop gives the parameters a property
    of that name.  A last argument left without a partner is ignored; and
    when no argument at an even position starts with "--", nothing is set at
    all, so a flag that follows a stray argument is not recognised. *)
Theorem parseArgs_pairs :
  (forall args params name value,
     Nat.Even (length args) -> name <> "__proto__" ->
     parseArgs (args ++ ["--" +:+ name; value]) params !! name = Some value)
  /\ (forall args params value,
        Nat.Even (length args) ->
        parseArgs (args ++ ["--__proto__"; value]) params = parseArgs args params)
  /\ (forall args params,
        params !! "__proto__" = None -> parseArgs args params !! "__proto__" = None)
  /\ (forall args params last,
        Nat.Even (length args) ->
        parseArgs (args ++ [last]) params = parseArgs args params)
  /\ (forall args params stray,
        String.prefix "--" stray = false ->
        (forall i flag, args !! (2 * i + 1)%nat = Some flag ->
                        String.prefix "--" flag = false) ->
        parseArgs (stray :: args) params = params).
Proof.
  split; [|split; [|split; [|split]]].
  - intros args params name value Heven Hname. revert params. pattern args.
    apply even_list_ind; [| |exact Heven]; clear args Heven.
    + intros params. cbn [app parseArgs].
      destruct (flag_name name) as [-> ->]. unfold setProperty.
      destruct (String.eqb_spec name "__proto__"); [contradiction|].
      apply lookup_insert_eq.
    + intros a b l IH params. cbn [app parseArgs]. apply IH.
  - intros args params value Heven. revert params. pattern args.
    apply even_list_ind; [| |exact Heven]; clear args Heven.
    + intros params. reflexivity.
    + intros a b l IH params. cbn [app parseArgs]. apply IH.
  - intros args. pattern args. apply pair_list_ind; clear args.
    + intros params Hp. exact Hp.
    + intros a params Hp. exact Hp.
    + intros a b l IH params Hp. cbn [parseArgs]. apply IH.
      destruct (String.prefix "--" a); [by apply setProperty_proto|exact Hp].
  - intros args params last Heven. revert params. pattern args.
    apply even_list_ind; [| |exact Heven]; clear args Heven.
    + intros params. reflexivity.
    + intros a b l IH params. cbn [app parseArgs]. apply IH.
  - intros args. pattern args. apply pair_list_ind; clear args.
    + intros params stray _ _. reflexivity.
    + intros a params stray Hstray _. cbn [parseArgs]. by rewrite Hstray.
    + intros a b l IH params stray Hstray Hodd. cbn [parseArgs]. rewrite Hstray.
      apply IH.
      * apply (Hodd 0%nat). reflexivity.
      * intros i flag Hi. apply (Hodd (S i)).
        replace (2 * S i + 1)%nat with (S (S (2 * i + 1))) by lia. exact Hi.
Qed.

Lemma parseArgs_pairs_sample :
  parseArgs (["--query"; "Tester"] ++ ["--" +:+ "query"; "Data Engineer"]) ∅ !! "query"
  = Some "Data Engineer".
Proof.
  refine (proj1 parseArgs_pairs ["--query"; "Tester"] ∅ "query" "Data Engineer" _ _).
  - exists 1%nat. reflexivity.
  - discriminate.
Defined.

Lemma setting_cases params env name envName fallback :
  truthy fallback = true ->
  truthy (setting params env name envName fallback) = true
  /\ (forall value, params !! name = Some value -> truthy value = true ->
        setting params env name envName fallback = value)
  /\ (forall value,
        params !! name = None \/ params !! name = Some "" ->
        env !! envName = Some value -> truthy value = true ->
        setting params env name envName fallback = value).
Proof.
  intros Hf. unfold setting. split; [|split].
  - unfold orElse. repeat case_match; simplify_eq; cbn [default]; assumption.
  - intros value -> Hv. cbn [orElse]. rewrite Hv. cbn [orElse]. by rewrite Hv.
  - intros value Hp -> Hv.
    assert (E : orElse (params !! name) (Some value) = Some value)
      by (destruct Hp as [-> | ->]; reflexivity).
    rewrite E. cbn [orElse]. by rewrite Hv.
Qed.

(** X29.  The search query, the location and the experience are never
    empty, whatever the command line and the environment hold.  On the
    command line, after an even number of arguments, "--query" followed by a
    non-empty value sets the query whatever the environment says; and when
    the command line sets no query or an empty one, a non-empty environment
    variable sets it. *)
Theorem options_resolution args env :
  (truthy (optQuery (readOptions args env)) = true
   /\ truthy (optLocation (readOptions args env)) = true
   /\ truthy (optExperience (readOptions args env)) = true)
  /\ (forall value, Nat.Even (length args) -> truthy value = true ->
        optQuery (readOptions (args ++ ["--query"; value]) env) = value)
  /\ (forall value,
        parseArgs args ∅ !! "query" = None \/ parseArgs args ∅ !! "query" = Some "" ->
        env !! "JOB_SEARCH_QUERY" = Some value -> truthy value = true ->
        optQuery (readOptions args env) = value).
Proof.
  unfold readOptions. cbn [optQuery optLocation optExperience].
  split; [|split].
  - repeat split; by apply setting_cases.
  - intros value Heven Hv.
    apply (proj1 (proj2 (setting_cases _ env "query" "JOB_SEARCH_QUERY" "Data Analyst"
                           eq_refl))); [|exact Hv].
    by apply (parseArgs_last_flag args ∅ "query" value).
  - intros value Hnone Henv Hv.
    apply (proj2 (proj2 (setting_cases _ env "query" "JOB_SEARCH_QUERY" "Data Analyst"
                           eq_refl))); auto.
Qed.

Lemma options_resolution_sample :
  optQuery (readOptions (["--location"; "Pune"] ++ ["--query"; "Tester"])
              {[ "JOB_SEARCH_QUERY" := "Data Analyst" ]}) = "Tester".
Proof.
  refine (proj1 (proj2 (options_resolution ["--location"; "Pune"] _)) "Tester" _ _).
  - exists 1%nat. reflexivity.
  - reflexivity.
Defined.
